(** * tk-houdini-geometrynode: the handler of the Toolkit Geometry node

    A shallow embedding of [python/tk_houdini_geometrynode/handler.py].

    The handler is glue between a host application (Houdini, module [hou]),
    a pipeline toolkit ([sgtk]) and a few libraries ([pyseq], [pickle],
    [zlib], [base64]).  The code of the handler is embedded function by
    function; the collaborators are modelled as follows.

    - The node graph of the host is a store [world]: nodes are addressed by an
      identity ([node_id]), so that two references to one node alias, and a
      connection holds the identity of the node it comes from.
    - Python exceptions are a type [exn]; a computation is a function from the
      world to an outcome and the world it leaves behind ([M]).  A raise keeps
      the mutations made before it, as in Python.
    - The services of the toolkit and of the libraries are fields of a read-only
      environment ([env], [codec_library], [sequence]).
*)

From Stdlib Require Import ZArith String Ascii List Bool Lia.
From stdpp Require Import base tactics option list gmap strings pretty fin_maps.

Local Open Scope string_scope.
Local Open Scope Z_scope.

(** ** Python values, exceptions and built-ins *)

Module Py.

(** The exceptions the handler can meet.  [UnboundLocalError] is Python's
    subclass of [NameError] for a local variable read before assignment;
    [InvalidInput], [OperationFailed] and [TypeError] are also what [hou]
    raises ([hou.InvalidInput], [hou.OperationFailed], [hou.TypeError]). *)
Inductive exn : Type :=
| TankError (msg : string)
| InvalidInput (msg : string)
| OperationFailed
| TypeError
| ValueError
| IndexError
| KeyError (key : string)
| AttributeError
| UnboundLocalError (name : string).

Definition is_NameError (e : exn) : bool :=
  match e with UnboundLocalError _ => true | _ => false end.

Definition is_TankError (e : exn) : bool :=
  match e with TankError _ => true | _ => false end.

Inductive result (A : Type) : Type :=
| Ok (a : A)
| Raise (e : exn).
Arguments Ok {A} a.
Arguments Raise {A} e.

#[global] Instance exn_eq_dec : EqDecision exn.
Proof. solve_decision. Defined.

#[global] Instance result_eq_dec {A : Type} `{EqDecision A} : EqDecision (result A).
Proof. solve_decision. Defined.

(** [l[i]]: a negative index counts from the end, an index out of range
    raises [IndexError]. *)
Definition getitem {A : Type} (l : list A) (i : Z) : result A :=
  let j := if i <? 0 then i + Z.of_nat (length l) else i in
  if j <? 0 then Raise IndexError
  else match l !! Z.to_nat j with
       | Some x => Ok x
       | None => Raise IndexError
       end.

(** [l.index(x)]: the first position of [x], or [ValueError]. *)
Fixpoint index (x : string) (l : list string) : result Z :=
  match l with
  | [] => Raise ValueError
  | y :: l' =>
      if String.eqb x y then Ok 0
      else match index x l' with
           | Ok i => Ok (i + 1)
           | Raise e => Raise e
           end
  end.

(** [s.startswith(p)]. *)
Fixpoint startswith (p s : string) : bool :=
  match p with
  | EmptyString => true
  | String a p' =>
      match s with
      | EmptyString => false
      | String b s' => Ascii.eqb a b && startswith p' s'
      end
  end.

(** [s.replace(old, new)] for a non-empty [old]: occurrences are replaced
    from the left, without overlap.  [skip] counts the characters of an
    occurrence still to be dropped. *)
Fixpoint replace_go (old new : string) (skip : nat) (s : string) : string :=
  match s with
  | EmptyString => EmptyString
  | String c s' =>
      match skip with
      | S k => replace_go old new k s'
      | O =>
          if startswith old s
          then new +:+ replace_go old new (String.length old - 1) s'
          else String c (replace_go old new O s')
      end
  end.

Definition replace (old new s : string) : string := replace_go old new 0 s.

(** [sub in s] for a non-empty [sub]. *)
Fixpoint contains (sub s : string) : bool :=
  match s with
  | EmptyString => false
  | String _ s' => startswith sub s || contains sub s'
  end.

(** [s.split(sep)] for a one-character separator: the pieces between the
    separators, empty pieces included. *)
Fixpoint split_on (sep : ascii) (s : string) : list string :=
  match s with
  | EmptyString => [EmptyString]
  | String c s' =>
      if Ascii.eqb c sep then EmptyString :: split_on sep s'
      else match split_on sep s' with
           | [] => [String c EmptyString]
           | w :: ws => String c w :: ws
           end
  end.

(** [s.split()] where the only white space of [s] is the blank: the
    non-empty pieces between blanks. *)
Definition split (s : string) : list string :=
  filter (fun w => w <> EmptyString) (split_on " "%char s).

Definition is_lower (c : ascii) : bool :=
  let n := nat_of_ascii c in (97 <=? n)%nat && (n <=? 122)%nat.

Definition is_upper (c : ascii) : bool :=
  let n := nat_of_ascii c in (65 <=? n)%nat && (n <=? 90)%nat.

Definition is_alpha (c : ascii) : bool := is_lower c || is_upper c.

Definition upper (c : ascii) : ascii :=
  if is_lower c then ascii_of_nat (nat_of_ascii c - 32) else c.

Definition lower (c : ascii) : ascii :=
  if is_upper c then ascii_of_nat (nat_of_ascii c + 32) else c.

Fixpoint lower_string (s : string) : string :=
  match s with
  | EmptyString => EmptyString
  | String c s' => String (lower c) (lower_string s')
  end.

(** [s.capitalize()]. *)
Definition capitalize (s : string) : string :=
  match s with
  | EmptyString => EmptyString
  | String c s' => String (upper c) (lower_string s')
  end.

(** [s.title()]: a letter that follows a letter is lowered, any other letter
    is raised. *)
Fixpoint title_go (after_letter : bool) (s : string) : string :=
  match s with
  | EmptyString => EmptyString
  | String c s' =>
      String (if after_letter then lower c else upper c)
             (title_go (is_alpha c) s')
  end.

Definition title (s : string) : string := title_go false s.

(** [''.join(l)]. *)
Definition join (l : list string) : string := foldr String.append "" l.

(** [os.path.dirname] of [posixpath]: the part before the last slash,
    without its trailing slashes unless it consists of slashes only. *)
Fixpoint rstrip_slash (s : string) : string :=
  match s with
  | EmptyString => EmptyString
  | String c s' =>
      match rstrip_slash s' with
      | EmptyString => if Ascii.eqb c "/"%char then EmptyString else String c EmptyString
      | r => String c r
      end
  end.

Fixpoint head_to_last_slash (s : string) : option string :=
  match s with
  | EmptyString => None
  | String c s' =>
      match head_to_last_slash s' with
      | Some h => Some (String c h)
      | None => if Ascii.eqb c "/"%char then Some (String c EmptyString) else None
      end
  end.

Definition dirname (p : string) : string :=
  match head_to_last_slash p with
  | None => EmptyString
  | Some h =>
      match rstrip_slash h with
      | EmptyString => h
      | r => r
      end
  end.

End Py.

Export Py.

(** ** The host: parameters, nodes and the node graph *)

(** What a parameter holds, what [eval] returns and what [set] takes. *)
Inductive value : Type :=
| VNone
| VInt (z : Z)
| VStr (s : string).

#[global] Instance value_eq_dec : EqDecision value.
Proof. solve_decision. Defined.

(** The parameter templates the handler tells apart:
    [hou.FolderSetParmTemplate], [hou.StringParmTemplate], and the rest
    (integers, toggles, integer menus), which hold a number. *)
Inductive parm_template : Type :=
| FolderSetParmTemplate
| StringParmTemplate
| IntParmTemplate.

#[global] Instance parm_template_eq_dec : EqDecision parm_template.
Proof. solve_decision. Defined.

(** A key of a channel: its value and its expression, if it has one.  The
    frame of the key is its position in [p_keyframes]: the host keeps at most
    one key per frame. *)
Record keyframe : Type := Keyframe {
  k_value : Z;
  k_expression : option string
}.

#[global] Instance keyframe_eq_dec : EqDecision keyframe.
Proof. solve_decision. Defined.

(** A parameter of a node ([hou.Parm]).  [p_value] is the value of a parameter
    that has no keys; a parameter with keys takes its value from them. *)
Record parm : Type := Parm {
  p_template : parm_template;
  p_value : value;
  p_keyframes : gmap Z keyframe;
  p_menu_items : list string;
  p_menu_labels : list string
}.

#[global] Instance parm_eq_dec : EqDecision parm.
Proof. solve_decision. Defined.

Definition with_value (v : value) (p : parm) : parm :=
  Parm (p_template p) v (p_keyframes p) (p_menu_items p) (p_menu_labels p).

Definition with_keyframes (k : gmap Z keyframe) (p : parm) : parm :=
  Parm (p_template p) (p_value p) k (p_menu_items p) (p_menu_labels p).

(** [hou.Parm.set]: the value has to be of the type of the parameter. *)
Definition parm_accepts (t : parm_template) (v : value) : bool :=
  match t, v with
  | StringParmTemplate, VStr _ => true
  | IntParmTemplate, VInt _ => true
  | FolderSetParmTemplate, VInt _ => true
  | _, _ => false
  end.

Definition Parm_set (v : value) (p : parm) : result parm :=
  if parm_accepts (p_template p) v then Ok (with_value v p) else Raise TypeError.

(** [hou.Parm.keyframes], in the order of the frames the host stores. *)
Definition Parm_keyframes (p : parm) : list (Z * keyframe) :=
  map_to_list (p_keyframes p).

(** [hou.Parm.setKeyframe]: the key replaces the one at its frame. *)
Definition Parm_setKeyframe (k : Z * keyframe) (p : parm) : parm :=
  with_keyframes (<[k.1 := k.2]> (p_keyframes p)) p.

(** [hou.Parm.eval] and [hou.Parm.unexpandedString].  The handler calls them
    where the value of the parameter is the stored one. *)
Definition Parm_eval (p : parm) : value := p_value p.
Definition Parm_unexpandedString (p : parm) : value := p_value p.

(** [hou.Parm.evalAsInt] and [hou.Parm.evalAsString]. *)
Definition Parm_evalAsInt (p : parm) : result Z :=
  match p_value p with
  | VInt z => Ok z
  | _ => Raise TypeError
  end.

Definition Parm_evalAsString (p : parm) : string :=
  match p_value p with
  | VStr s => s
  | VInt z => pretty z
  | VNone => ""
  end.

(** [l[v]] for a value used as a subscript. *)
Definition subscript {A : Type} (l : list A) (v : value) : result A :=
  match v with
  | VInt z => getitem l z
  | _ => Raise TypeError
  end.

(** A colour, its three components in tenths: [hou.Color((0, 0.8, 0))] is
    [(0, 8, 0)]. *)
Definition color : Type := Z * Z * Z.

(** An output profile of the configuration: a dictionary with the keys
    [name], [settings], [color], [output_cache_template] and
    [output_backup_template]. *)
Record profile : Type := Profile {
  pr_name : string;
  pr_settings : gmap string value;
  pr_color : option color;
  pr_output_cache_template : string;
  pr_output_backup_template : string
}.

#[global] Instance profile_eq_dec : EqDecision profile.
Proof. solve_decision. Defined.

(** A value of a dictionary of template fields. *)
Inductive fval : Type :=
| FNone
| FInt (z : Z)
| FStr (s : string)
| FProfile (p : profile).

#[global] Instance fval_eq_dec : EqDecision fval.
Proof. solve_decision. Defined.

Abbreviation fields := (gmap string fval).

Definition node_id : Type := nat.

Inductive category : Type := Sop | Rop.

#[global] Instance category_eq_dec : EqDecision category.
Proof. solve_decision. Defined.

(** A node ([hou.Node]).  [n_inputs] maps an input slot to the node connected
    to it; [n_connectors] is the number of its input connectors;
    [n_user] is its user data, [n_cached_fields] and [n_cached_path] its cached
    user data under the keys ['fields'] and ['pathCache'];
    [n_dependents] are the nodes that refer to it. *)
Record node : Type := Node {
  n_category : category;
  n_type : string;
  n_name : string;
  n_parent : string;
  n_parms : gmap string parm;
  n_inputs : gmap nat node_id;
  n_connectors : nat;
  n_user : gmap string string;
  n_cached_fields : option fields;
  n_cached_path : option string;
  n_color : color;
  n_position : Z * Z;
  n_dependents : list node_id
}.

#[global] Instance node_eq_dec : EqDecision node.
Proof. solve_decision. Defined.

Definition with_parms (f : gmap string parm -> gmap string parm) (n : node) : node :=
  Node (n_category n) (n_type n) (n_name n) (n_parent n) (f (n_parms n))
       (n_inputs n) (n_connectors n) (n_user n) (n_cached_fields n)
       (n_cached_path n) (n_color n) (n_position n) (n_dependents n).

Definition with_inputs (f : gmap nat node_id -> gmap nat node_id) (n : node) : node :=
  Node (n_category n) (n_type n) (n_name n) (n_parent n) (n_parms n)
       (f (n_inputs n)) (n_connectors n) (n_user n) (n_cached_fields n)
       (n_cached_path n) (n_color n) (n_position n) (n_dependents n).

Definition with_user (f : gmap string string -> gmap string string) (n : node) : node :=
  Node (n_category n) (n_type n) (n_name n) (n_parent n) (n_parms n)
       (n_inputs n) (n_connectors n) (f (n_user n)) (n_cached_fields n)
       (n_cached_path n) (n_color n) (n_position n) (n_dependents n).

Definition with_cached_fields (c : option fields) (n : node) : node :=
  Node (n_category n) (n_type n) (n_name n) (n_parent n) (n_parms n)
       (n_inputs n) (n_connectors n) (n_user n) c
       (n_cached_path n) (n_color n) (n_position n) (n_dependents n).

Definition with_cached_path (c : option string) (n : node) : node :=
  Node (n_category n) (n_type n) (n_name n) (n_parent n) (n_parms n)
       (n_inputs n) (n_connectors n) (n_user n) (n_cached_fields n)
       c (n_color n) (n_position n) (n_dependents n).

Definition with_color (c : color) (n : node) : node :=
  Node (n_category n) (n_type n) (n_name n) (n_parent n) (n_parms n)
       (n_inputs n) (n_connectors n) (n_user n) (n_cached_fields n)
       (n_cached_path n) c (n_position n) (n_dependents n).

Definition with_name (s : string) (n : node) : node :=
  Node (n_category n) (n_type n) s (n_parent n) (n_parms n)
       (n_inputs n) (n_connectors n) (n_user n) (n_cached_fields n)
       (n_cached_path n) (n_color n) (n_position n) (n_dependents n).

Definition with_position (p : Z * Z) (n : node) : node :=
  Node (n_category n) (n_type n) (n_name n) (n_parent n) (n_parms n)
       (n_inputs n) (n_connectors n) (n_user n) (n_cached_fields n)
       (n_cached_path n) (n_color n) p (n_dependents n).

(** [hou.Node.path]. *)
Definition node_path (n : node) : string := n_parent n +:+ "/" +:+ n_name n.

(** ** The world and computations in it *)

Inductive log_level : Type := LogDebug | LogInfo | LogWarning | LogError.

#[global] Instance log_level_eq_dec : EqDecision log_level.
Proof. solve_decision. Defined.

(** A publish registered with [sgtk.util.register_publish]. *)
Record publish : Type := Publish {
  pub_path : option string;
  pub_name : string;
  pub_type : string;
  pub_version : Z;
  pub_dependencies : list string
}.

#[global] Instance publish_eq_dec : EqDecision publish.
Proof. solve_decision. Defined.

(** What the handler reads and writes: the nodes of the session, the log of
    the application, the paths that exist on disk, the publishes registered,
    and the calls of [apply_fields] made so far (the name of the template and
    the fields it was applied to). *)
Record world : Type := World {
  w_nodes : gmap node_id node;
  w_log : list (log_level * string);
  w_paths : gset string;
  w_publishes : list publish;
  w_applied : list (string * fields)
}.

#[global] Instance world_eq_dec : EqDecision world.
Proof. solve_decision. Defined.

Definition with_nodes (f : gmap node_id node -> gmap node_id node) (w : world) : world :=
  World (f (w_nodes w)) (w_log w) (w_paths w) (w_publishes w) (w_applied w).

Definition with_log (f : list (log_level * string) -> list (log_level * string))
    (w : world) : world :=
  World (w_nodes w) (f (w_log w)) (w_paths w) (w_publishes w) (w_applied w).

Definition with_paths (f : gset string -> gset string) (w : world) : world :=
  World (w_nodes w) (w_log w) (f (w_paths w)) (w_publishes w) (w_applied w).

Definition with_publishes (f : list publish -> list publish) (w : world) : world :=
  World (w_nodes w) (w_log w) (w_paths w) (f (w_publishes w)) (w_applied w).

Definition with_applied (f : list (string * fields) -> list (string * fields))
    (w : world) : world :=
  World (w_nodes w) (w_log w) (w_paths w) (w_publishes w) (f (w_applied w)).

(** A computation: its outcome and the world it leaves. *)
Definition M (A : Type) : Type := world -> result A * world.

Definition ret {A : Type} (a : A) : M A := fun w => (Ok a, w).

Definition raise {A : Type} (e : exn) : M A := fun w => (Raise e, w).

Definition bind {A B : Type} (m : M A) (k : A -> M B) : M B :=
  fun w =>
    match m w with
    | (Ok a, w') => k a w'
    | (Raise e, w') => (Raise e, w')
    end.

Notation "x <- c1 ;; c2" := (bind c1 (fun x => c2))
  (at level 100, c1 at next level, right associativity).
Notation "c1 ;; c2" := (bind c1 (fun _ => c2))
  (at level 100, right associativity).

Definition lift {A : Type} (r : result A) : M A := fun w => (r, w).

Definition modify (f : world -> world) : M unit := fun w => (Ok tt, f w).

(** [try: m except <exceptions satisfying catches> as e: handler e]. *)
Definition try_except {A : Type} (m : M A) (catches : exn -> bool)
    (handler : exn -> M A) : M A :=
  fun w =>
    match m w with
    | (Raise e, w') => if catches e then handler e w' else (Raise e, w')
    | r => r
    end.

(** [for x in l: body x]. *)
Fixpoint for_each {A : Type} (l : list A) (body : A -> M unit) : M unit :=
  match l with
  | [] => ret tt
  | x :: l' => body x ;; for_each l' body
  end.

Definition log (lvl : log_level) (msg : string) : M unit :=
  modify (with_log (fun l => (l ++ [(lvl, msg)])%list)).

(** *** Methods of [hou.Node] and [hou.Parm] on the nodes of the world *)

(** A reference to a node is used: the node has to be there still. *)
Definition the_node (i : node_id) : M node :=
  fun w =>
    match w_nodes w !! i with
    | Some n => (Ok n, w)
    | None => (Raise OperationFailed, w)
    end.

Definition update_node (i : node_id) (f : node -> node) : M unit :=
  modify (with_nodes (alter f i)).

(** [node.parm(name)], which is [None] when the node has no such parameter. *)
Definition Node_parm (i : node_id) (name : string) : M (option parm) :=
  n <- the_node i ;; ret (n_parms n !! name).

(** A method is called on the result of [node.parm(name)]. *)
Definition the_parm (i : node_id) (name : string) : M parm :=
  p <- Node_parm i name ;;
  match p with
  | Some p => ret p
  | None => raise AttributeError
  end.

Definition update_parm (i : node_id) (name : string) (f : parm -> parm) : M unit :=
  update_node i (with_parms (alter f name)).

(** [node.parm(name).set(v)]. *)
Definition parm_set (i : node_id) (name : string) (v : value) : M unit :=
  p <- the_parm i name ;;
  p' <- lift (Parm_set v p) ;;
  update_node i (with_parms <[name := p']>).

(** [node.inputConnections()]: the slot and the input node of each. *)
Definition Node_inputConnections (i : node_id) : M (list (nat * node_id)) :=
  n <- the_node i ;; ret (map_to_list (n_inputs n)).

(** [node.setInput(slot, input)]. *)
Definition Node_setInput (i : node_id) (slot : nat) (input : node_id) : M unit :=
  the_node i ;; update_node i (with_inputs <[slot := input]>).

(** The connections that leave node [i]: the node each goes to and the slot
    it enters. *)
Definition outputs_of (i : node_id) (ns : gmap node_id node) : list (node_id * nat) :=
  jn ← map_to_list ns;
  c ← map_to_list (n_inputs jn.2);
  if decide (c.2 = i) then [(jn.1, c.1)] else [].

(** [node.outputConnections()]. *)
Definition Node_outputConnections (i : node_id) : M (list (node_id * nat)) :=
  the_node i ;; fun w => (Ok (outputs_of i (w_nodes w)), w).

(** [node.destroy()]: the node leaves the session and its connections with
    it. *)
Definition Node_destroy (i : node_id) : M unit :=
  the_node i ;;
  modify (with_nodes (fun ns =>
    with_inputs (filter (fun c => c.2 <> i)) <$> delete i ns)).

(** [hou.node(path)], which is [None] when no node has this path. *)
Definition hou_node (path : string) : M (option node_id) :=
  fun w =>
    (Ok (fst <$> head (filter (fun jn => node_path jn.2 = path)
                              (map_to_list (w_nodes w)))), w).

(** [node.setUserData(key, s)] and [node.userData(key)]. *)
Definition Node_setUserData (i : node_id) (key s : string) : M unit :=
  the_node i ;; update_node i (with_user <[key := s]>).

Definition Node_userData (i : node_id) (key : string) : M (option string) :=
  n <- the_node i ;; ret (n_user n !! key).

(** What [createNode] instantiates for a node type: its parameters with
    their defaults, the number of input connectors, the default colour. *)
Record node_type : Type := NodeType {
  t_parms : gmap string parm;
  t_connectors : nat;
  t_color : color
}.

(** [hou.nodeType(category, name).instances()]. *)
Definition instances (c : category) (name : string) : M (list node_id) :=
  fun w =>
    (Ok (fst <$> filter (fun jn => n_category jn.2 = c /\ n_type jn.2 = name)
                        (map_to_list (w_nodes w))), w).

(** [node.createNode(type_name)] called on the parent of node [i]: the new
    node is of the category of the network, holds the defaults of its type as
    constants (a new parameter has no key), no connection and no user data,
    and gets an identity and a name of its own. *)
Definition createNode (types : category -> string -> option node_type)
    (i : node_id) (type_name : string) : M node_id :=
  n <- the_node i ;;
  match types (n_category n) type_name with
  | None => raise OperationFailed
  | Some t =>
      fun w =>
        let j := fresh (dom (w_nodes w)) in
        (Ok j,
         with_nodes <[j := Node (n_category n) type_name
                                (type_name +:+ pretty j) (n_parent n)
                                (with_keyframes ∅ <$> t_parms t) ∅
                                (t_connectors t) ∅ None None
                                (t_color t) (0, 0) [] ]> w)
  end.

(** ** Class data of [TkGeometryNodeHandler] *)

Definition HOU_ROP_GEOMETRY_TYPE : string := "geometry".
Definition HOU_SOP_GEOMETRY_TYPE : string := "rop_geometry".
Definition NODE_OUTPUT_PATH_PARM : string := "sopoutput".
Definition TK_GEOMETRY_NODE_TYPE : string := "sgtk_geometry".
Definition TK_OUTPUT_CONNECTIONS_KEY : string := "tk_output_connections".
Definition TK_OUTPUT_CONNECTION_CODEC : string := "sgtk-01".
Definition TK_OUTPUT_PROFILE_PARM : string := "output_profile".
Definition TK_OUTPUT_PROFILE_NAME_KEY : string := "tk_output_profile_name".
Definition TK_USD_PRIM_PREFIX_PATH : string := "prim_prefix_path".
Definition TK_USD_PRIM_PATH : string := "prim_path".

(** An output connection as it is saved: the dictionary
    [{'node': path, 'input': slot}]. *)
Record output_record : Type := OutputRecord {
  or_node : string;
  or_input : nat
}.

#[global] Instance output_record_eq_dec : EqDecision output_record.
Proof. solve_decision. Defined.

(** The three libraries the codec is made of. *)
Record codec_library : Type := CodecLibrary {
  pickle_dumps : list output_record -> string;
  pickle_loads : string -> result (list output_record);
  zlib_compress : string -> string;
  zlib_decompress : string -> result string;
  b64encode : string -> string;
  b64decode : string -> result string
}.


Record codec : Type := Codec {
  encode : list output_record -> string;
  decode : string -> result (list output_record)
}.

Definition result_bind {A B : Type} (r : result A) (k : A -> result B) : result B :=
  match r with
  | Ok a => k a
  | Raise e => Raise e
  end.

(** [TK_OUTPUT_CONNECTION_CODECS]. *)
Definition TK_OUTPUT_CONNECTION_CODECS (L : codec_library) : list (string * codec) :=
  [ ("sgtk-01",
     Codec (fun data => b64encode L (zlib_compress L (pickle_dumps L data)))
           (fun data_str =>
              result_bind (b64decode L data_str) (fun z =>
              result_bind (zlib_decompress L z) (fun p =>
              pickle_loads L p)))) ].

(** [d[key]] on a dictionary given by its items. *)
Fixpoint dict_get {A : Type} (d : list (string * A)) (key : string) : result A :=
  match d with
  | [] => Raise (KeyError key)
  | (k, a) :: d' => if String.eqb k key then Ok a else dict_get d' key
  end.

(** ** Utility methods *)

(** [_copy_inputs]: copy all the input connections from this node to the
    target node. *)
Definition _copy_inputs (source_node target_node : node_id) : M unit :=
  input_connections <- Node_inputConnections source_node ;;
  target <- the_node target_node ;;
  let num_target_inputs := n_connectors target in
  if (num_target_inputs <? length input_connections)%nat
  then
    source <- the_node source_node ;;
    raise (InvalidInput
      ("Not enough inputs on target node. Cannot copy inputs from '"
       +:+ node_path source +:+ "' to '" +:+ node_path target +:+ "'"))
  else
    for_each input_connections (fun connection =>
      Node_setInput target_node connection.1 connection.2).

(** The body of the loop of [_copy_parm_values] for the parameter [name] of
    the source node. *)
Definition copy_parm (source_node target_node : node_id) (name : string) : M unit :=
  source_parm <- the_parm source_node name ;;
  let source_parm_template := p_template source_parm in
  (* skip folder parms *)
  if decide (source_parm_template = FolderSetParmTemplate) then ret tt
  else
    target_parm <- Node_parm target_node name ;;
    match target_parm with
    | None => ret tt
    | Some _ =>
        match Parm_keyframes source_parm with
        | _ :: _ =>
            for_each (Parm_keyframes source_parm) (fun key =>
              update_parm target_node name (Parm_setKeyframe key))
        | [] =>
            if decide (source_parm_template = StringParmTemplate)
            then parm_set target_node name (Parm_unexpandedString source_parm)
            else
              try_except
                (parm_set target_node name (Parm_eval source_parm))
                (fun e => match e with TypeError => true | _ => false end)
                (fun e =>
                   if startswith "lpre" name || startswith "lpost" name
                   then
                     let value_map := ["hscript"; "python"] in
                     keyword <- lift (subscript value_map (Parm_eval source_parm)) ;;
                     parm_set target_node name (VStr keyword)
                   else raise e)
        end
    end.

(** [_copy_parm_values]: copy parameter values of the source node to those
    of the target node if a parameter with the same name exists. *)
Definition _copy_parm_values (source_node target_node : node_id)
    (excludes : list string) : M unit :=
  source <- the_node source_node ;;
  let source_parms :=
    filter (fun name => name ∉ excludes) (fst <$> map_to_list (n_parms source)) in
  for_each source_parms (copy_parm source_node target_node).

(** [_get_output_menu_label]: the menu label for the supplied parameter. *)
Definition _get_output_menu_label (p : parm) : result string :=
  result_bind (subscript (p_menu_items p) (Parm_eval p)) (fun item =>
  if String.eqb item "sgtk"
  then subscript (p_menu_labels p) (Parm_eval p)
  else subscript (p_menu_items p) (Parm_eval p)).

(** [_move_outputs]: move all the output connections from the source node to
    the target node. *)
Definition _move_outputs (source_node target_node : node_id) : M unit :=
  output_connections <- Node_outputConnections source_node ;;
  for_each output_connections (fun connection =>
    Node_setInput connection.1 connection.2 target_node).

(** [s.find(sub)] for a non-empty [sub]: the first position of [sub] in [s],
    or [-1]. *)
Fixpoint find (sub s : string) : Z :=
  match s with
  | EmptyString => -1
  | String _ s' =>
      if startswith sub s then 0
      else let i := find sub s' in if i <? 0 then -1 else i + 1
  end.

(** The position a slice bound stands for in a string of length [n]. *)
Definition slice_bound (n : nat) (i : Z) : nat :=
  let j := if i <? 0 then i + Z.of_nat n else i in
  Nat.min n (Z.to_nat j).

(** [s[:i]] and [s[i:]]. *)
Definition slice_to (s : string) (i : Z) : string :=
  String.substring 0 (slice_bound (String.length s) i) s.

Definition slice_from (s : string) (i : Z) : string :=
  let b := slice_bound (String.length s) i in
  String.substring b (String.length s - b) s.

(** [for x in l: ys.append(f x)], where [f] may raise. *)
Fixpoint collect {A B : Type} (l : list A) (f : A -> M B) : M (list B) :=
  match l with
  | [] => ret []
  | x :: l' => y <- f x ;; ys <- collect l' f ;; ret (y :: ys)
  end.

(** [_save_outputs_to_user_data]: saves output connections into user data
    of target node.  Needed when target node does not have outputs. *)
Definition _save_outputs_to_user_data (L : codec_library)
    (source_node target_node : node_id) : M unit :=
  output_connections <- Node_outputConnections source_node ;;
  match output_connections with
  | [] => ret tt
  | _ :: _ =>
      outputs <- collect output_connections (fun connection =>
        output_node <- the_node connection.1 ;;
        ret (OutputRecord (node_path output_node) connection.2)) ;;
      (* get the current encoder for the handler *)
      let codecs := TK_OUTPUT_CONNECTION_CODECS L in
      c <- lift (dict_get codecs TK_OUTPUT_CONNECTION_CODEC) ;;
      let encoder := encode c in
      (* encode and prepend the current codec name *)
      let data_str := TK_OUTPUT_CONNECTION_CODEC +:+ ":" +:+ encoder outputs in
      Node_setUserData target_node TK_OUTPUT_CONNECTIONS_KEY data_str
  end.

(** The loop that ends [_restore_outputs_from_user_data]. *)
Definition reconnect (outputs : list output_record) (target_node : node_id) : M unit :=
  for_each outputs (fun connection =>
    output_node <- hou_node (or_node connection) ;;
    match output_node with
    | None => raise AttributeError
    | Some j => Node_setInput j (or_input connection) target_node
    end).

(** [_restore_outputs_from_user_data]: restore output connections from this
    node to the target node. *)
Definition _restore_outputs_from_user_data (L : codec_library)
    (source_node target_node : node_id) : M unit :=
  data <- Node_userData source_node TK_OUTPUT_CONNECTIONS_KEY ;;
  match data with
  | None | Some EmptyString => ret tt
  | Some data_str =>
      (* parse the data str to determine the codec used *)
      let sep_index := find ":" data_str in
      let codec_name := slice_to data_str sep_index in
      let data_str := slice_from data_str (sep_index + 1) in
      (* get the matching decoder based on the codec name *)
      let codecs := TK_OUTPUT_CONNECTION_CODECS L in
      c <- lift (dict_get codecs codec_name) ;;
      let decoder := decode c in
      (* decode the data str back into original python objects *)
      outputs <- lift (decoder data_str) ;;
      match outputs with
      | [] => ret tt
      | _ :: _ => reconnect outputs target_node
      end
  end.

(** ** Class methods: the two conversions *)

Definition Node_setColor (i : node_id) (c : color) : M unit :=
  the_node i ;; update_node i (with_color c).

Definition Node_setName (i : node_id) (s : string) : M unit :=
  the_node i ;; update_node i (with_name s).

Definition Node_setPosition (i : node_id) (p : Z * Z) : M unit :=
  the_node i ;; update_node i (with_position p).

Section Conversion.

(** The node types installed in the host and the codec libraries. *)
Variable types : category -> string -> option node_type.
Variable L : codec_library.

(** The body of the loop of [convert_back_to_tk_geometry_nodes]. *)
Definition convert_back_node (geometry_node : node_id) : M unit :=
  let tk_node_type := TK_GEOMETRY_NODE_TYPE in
  g <- the_node geometry_node ;;
  (* get the output_profile from the dictionary *)
  match n_user g !! TK_OUTPUT_PROFILE_NAME_KEY with
  | None | Some EmptyString =>
      log LogWarning
        ("Geometry node '" +:+ n_name g +:+ "' does not have an output profile name. "
         +:+ "Can't convert to Tk Geometry node. Continuing.")
  | Some tk_output_profile_name =>
      (* create a new, Toolkit Geometry node *)
      tk_geometry_node <- createNode types geometry_node tk_node_type ;;
      (* find the index of the stored name on the new tk geometry node and
         set that item in the menu *)
      try_except
        (output_profile_parm <- the_parm tk_geometry_node TK_OUTPUT_PROFILE_PARM ;;
         output_profile_index <-
           lift (index tk_output_profile_name (p_menu_labels output_profile_parm)) ;;
         parm_set tk_geometry_node TK_OUTPUT_PROFILE_PARM (VInt output_profile_index))
        (fun e => match e with ValueError => true | _ => false end)
        (fun _ =>
           log LogWarning ("No output profile found named: " +:+ tk_output_profile_name)) ;;
      (* copy over all parameter values except the output path *)
      _copy_parm_values geometry_node tk_geometry_node [NODE_OUTPUT_PATH_PARM] ;;
      (* copy the inputs and move the outputs *)
      _copy_inputs geometry_node tk_geometry_node ;;
      (if String.eqb (n_type g) HOU_SOP_GEOMETRY_TYPE
       then _restore_outputs_from_user_data L geometry_node tk_geometry_node
       else if String.eqb (n_type g) HOU_ROP_GEOMETRY_TYPE
       then _move_outputs geometry_node tk_geometry_node
       else ret tt) ;;
      (* make the new node the same color *)
      g' <- the_node geometry_node ;;
      Node_setColor tk_geometry_node (n_color g') ;;
      (* remember the name and position of the original geometry node *)
      let geometry_node_name := n_name g' in
      let geometry_node_pos := n_position g' in
      (* destroy the original geometry node *)
      Node_destroy geometry_node ;;
      (* name and reposition the new node to match the original *)
      Node_setName tk_geometry_node geometry_node_name ;;
      Node_setPosition tk_geometry_node geometry_node_pos ;;
      log LogDebug
        ("Converted: Geometry node '" +:+ geometry_node_name +:+ "' to TK Geometry node.")
  end.

(** [convert_back_to_tk_geometry_nodes]: convert Geometry nodes back to
    Toolkit Geometry nodes. *)
Definition convert_back_to_tk_geometry_nodes : M unit :=
  (* get all rop/sop geometry nodes in the session *)
  sops <- instances Sop HOU_SOP_GEOMETRY_TYPE ;;
  rops <- instances Rop HOU_ROP_GEOMETRY_TYPE ;;
  let geometry_nodes := (sops ++ rops)%list in
  match geometry_nodes with
  | [] => log LogDebug "No Geometry Nodes found for conversion."
  | _ :: _ => for_each geometry_nodes convert_back_node
  end.

(** The body of the loop of [convert_to_regular_geometry_nodes]. *)
Definition convert_to_regular_node (tk_geometry_node : node_id) : M unit :=
  let tk_node_type := TK_GEOMETRY_NODE_TYPE in
  t <- the_node tk_geometry_node ;;
  (* determine the corresponding, built-in operator type *)
  let geometry_operator :=
    if decide (n_category t = Sop /\ n_type t = tk_node_type)
    then Some HOU_SOP_GEOMETRY_TYPE
    else if decide (n_category t = Rop /\ n_type t = tk_node_type)
    then Some HOU_ROP_GEOMETRY_TYPE
    else None in
  match geometry_operator with
  | None =>
      log LogWarning
        ("Unknown type for node '" +:+ n_name t +:+ "': " +:+ n_type t +:+ "'")
  | Some geometry_operator =>
      (* create a new, regular Geometry node *)
      geometry_node <- createNode types tk_geometry_node geometry_operator ;;
      (* copy the file parms value to the new node *)
      output_parm <- the_parm tk_geometry_node NODE_OUTPUT_PATH_PARM ;;
      filename <- lift (_get_output_menu_label output_parm) ;;
      parm_set geometry_node NODE_OUTPUT_PATH_PARM (VStr filename) ;;
      (* copy across knob values *)
      _copy_parm_values tk_geometry_node geometry_node [NODE_OUTPUT_PATH_PARM] ;;
      (* store the geometry output profile name in the user data *)
      output_profile_parm <- the_parm tk_geometry_node TK_OUTPUT_PROFILE_PARM ;;
      tk_output_profile_name <-
        lift (subscript (p_menu_labels output_profile_parm)
                        (Parm_eval output_profile_parm)) ;;
      Node_setUserData geometry_node TK_OUTPUT_PROFILE_NAME_KEY tk_output_profile_name ;;
      (* copy the inputs and move the outputs *)
      _copy_inputs tk_geometry_node geometry_node ;;
      (if String.eqb geometry_operator HOU_SOP_GEOMETRY_TYPE
       then _save_outputs_to_user_data L tk_geometry_node geometry_node
       else if String.eqb geometry_operator HOU_ROP_GEOMETRY_TYPE
       then _move_outputs tk_geometry_node geometry_node
       else ret tt) ;;
      (* make the new node the same color *)
      t' <- the_node tk_geometry_node ;;
      Node_setColor geometry_node (n_color t') ;;
      (* remember the name and position of the original tk geometry node *)
      let tk_geometry_node_name := n_name t' in
      let tk_geometry_node_pos := n_position t' in
      (* destroy the original tk geometry node *)
      Node_destroy tk_geometry_node ;;
      (* name and reposition the new node to match the original *)
      Node_setName geometry_node tk_geometry_node_name ;;
      Node_setPosition geometry_node tk_geometry_node_pos ;;
      log LogDebug
        ("Converted: Tk Geometry node '" +:+ tk_geometry_node_name +:+ "' to Geometry node.")
  end.

(** [convert_to_regular_geometry_nodes]: convert Toolkit Geometry nodes to
    regular Geometry nodes. *)
Definition convert_to_regular_geometry_nodes : M unit :=
  let tk_node_type := TK_GEOMETRY_NODE_TYPE in
  (* determine the surface and the render operator type for this class of
     node: a subscript of the dictionary of the installed types *)
  match types Sop tk_node_type, types Rop tk_node_type with
  | None, _ | _, None => raise (KeyError tk_node_type)
  | Some _, Some _ =>
      (* get all instances of tk geometry rop/sop nodes *)
      sops <- instances Sop tk_node_type ;;
      rops <- instances Rop tk_node_type ;;
      let tk_geometry_nodes := (sops ++ rops)%list in
      match tk_geometry_nodes with
      | [] => log LogDebug "No Toolkit Geometry Nodes found for conversion."
      | _ :: _ => for_each tk_geometry_nodes convert_to_regular_node
      end
  end.

End Conversion.

(** ** The toolkit, the libraries and the session *)

(** A template of the toolkit, by what it answers: [validate], [get_fields]
    and [apply_fields], which raises [TankError] when a field is missing. *)
Record template : Type := Template {
  tpl_validate : string -> bool;
  tpl_get_fields : string -> fields;
  tpl_apply_fields : fields -> result string
}.

(** A sequence found by [pyseq]: the number of its items (a sequence is a
    list, true when it is not empty), [missing()] and [format(directive)]. *)
Record sequence : Type := Sequence {
  seq_length : nat;
  seq_missing : list Z;
  seq_format : string -> string
}.

(** What the handler reads from its surroundings.
    - [isUIAvailable], [hipFile_path], [pwd]: [hou.isUIAvailable()],
      [hou.hipFile.path()], [hou.pwd()];
    - [NOZ_HIPFILE]: [os.getenv('NOZ_HIPFILE')]; [os_sep]: [os.path.sep];
    - [get_template], [get_template_by_name], [as_template_fields],
      [abstract_paths_from_template], [find_publish]: the application, its
      context and the toolkit; [find_publish] gives the keys of the dictionary
      it returns;
    - [output_profiles]: the profiles cached by [__init__];
    - [get_sequences]: [pyseq.get_sequences];
    - [alembicTimeRange]: the time range of an archive, each bound multiplied
      by [hou.fps()] and truncated by [int]. *)
Record env : Type := Env {
  isUIAvailable : bool;
  hipFile_path : string;
  pwd : node_id;
  NOZ_HIPFILE : option string;
  os_sep : string;
  get_template : string -> option template;
  get_template_by_name : string -> option template;
  as_template_fields : template -> fields;
  abstract_paths_from_template : template -> fields -> list string;
  find_publish : option string -> list string;
  output_profiles : gmap string profile;
  get_sequences : string -> list sequence;
  alembicTimeRange : string -> option (Z * Z)
}.

(** ** Instance methods *)

Section Handler.

Variable E : env.

(** [_getNodeName]: remove underscores or minus in node and create camelcase
    name. *)
Definition _getNodeName (n : node) : result string :=
  let name := replace "_" " " (replace "-" " " (n_name n)) in
  match split name with
  | [] => Raise IndexError
  | first :: others => Ok (first +:+ join (capitalize <$> others))
  end.

(** [_get_output_profile]: get the current output profile. *)
Definition _get_output_profile (node : node_id) : M profile :=
  output_profile_parm <- the_parm node TK_OUTPUT_PROFILE_PARM ;;
  output_profile_name <-
    lift (subscript (p_menu_labels output_profile_parm)
                    (Parm_eval output_profile_parm)) ;;
  match output_profiles E !! output_profile_name with
  | Some output_profile => ret output_profile
  | None => raise (KeyError output_profile_name)
  end.

(** The path [_get_hipfile_fields] takes for the work file: the path of the
    current file in a session with a user interface, else the environment
    variable [NOZ_HIPFILE], else the empty string. *)
Definition work_file_path_of : string :=
  if isUIAvailable E then hipFile_path E
  else match NOZ_HIPFILE E with
       | Some env_hip => env_hip
       | None => ""
       end.

(** [_get_hipfile_fields]: extract fields from current Houdini file using
    the workfile template. *)
Definition _get_hipfile_fields : M fields :=
  work_file_path <-
    (if isUIAvailable E then ret (hipFile_path E)
     else
       (* exception for when we are on the render farm and using the backup hip *)
       match NOZ_HIPFILE E with
       | Some (String c s) => ret (String c s)
       | Some EmptyString | None =>
           log LogError "Could not find origin hip file!" ;; ret ""
       end) ;;
  let work_file_template := get_template E "work_file_template" in
  match work_file_template with
  | Some t =>
      if tpl_validate t work_file_path
      then ret (tpl_get_fields t work_file_path)
      else ret ∅
  | None => ret ∅
  end.

(** [type_parm.menuLabels()[type_parm.evalAsInt()]] for the parameter
    [types]: the type of output. *)
Definition output_extension (node : node_id) : M string :=
  type_parm <- the_parm node "types" ;;
  i <- lift (Parm_evalAsInt type_parm) ;;
  lift (getitem (p_menu_labels type_parm) i).

Definition parm_evalAsInt (node : node_id) (name : string) : M Z :=
  p <- the_parm node name ;; lift (Parm_evalAsInt p).

(** [template.apply_fields(fields)] for the template named [name]; the call
    is recorded. *)
Definition apply_fields (name : string) (t : template) (f : fields) : M string :=
  modify (with_applied (fun l => (l ++ [(name, f)])%list)) ;;
  lift (tpl_apply_fields t f).

(** The template named [name], with the fields of the context added to
    [f], applied. *)
Definition resolve (name : string) (f : fields) : M string :=
  match get_template_by_name E name with
  | None => raise AttributeError
  | Some output_cache_template =>
      (* fields.update(...): the fields of the context win *)
      let f := as_template_fields E output_cache_template ∪ f in
      path <- apply_fields name output_cache_template f ;;
      ret (replace (os_sep E) "/" path)
  end.

Definition work_file_name (work_file_fields : fields) : fval :=
  default FNone (work_file_fields !! "name").

(** [_compute_backup_output_path]: compute the output path based on the
    current work file and backup template. *)
Definition _compute_backup_output_path (node : node_id) : M string :=
  (* get relevant fields from the current file path *)
  work_file_fields <- _get_hipfile_fields ;;
  if decide (work_file_fields = ∅)
  then raise (TankError "This Houdini file is not a Shotgun Toolkit work file!")
  else
    (* get the type of output *)
    extension <- output_extension node ;;
    (* create fields dict with all the metadata *)
    n <- the_node node ;;
    node_name <- lift (_getNodeName n) ;;
    version <- parm_evalAsInt node "ver" ;;
    let fields : fields :=
      list_to_map [ ("name", work_file_name work_file_fields);
                    ("node", FStr node_name);
                    ("version", FInt version);
                    ("ext", FStr extension) ] in
    output_profile <- _get_output_profile node ;;
    resolve (pr_output_backup_template output_profile) fields.

(** The dictionary of fields [_compute_output_path] builds. *)
Definition output_fields (work_file_fields : fields) (node_name : string)
    (version : Z) (extension : string) (output_profile : profile) : fields :=
  list_to_map [ ("name", work_file_name work_file_fields);
                ("node", FStr node_name);
                ("version", FInt version);
                ("ext", FStr extension);
                ("SEQ", FStr "FORMAT: $F");
                ("output_profile", FProfile output_profile);
                ("hipfile", FStr (hipFile_path E)) ].

(** [_compute_output_path]: compute the output path based on the current
    work file and cache template.  The result is [None] when the cached path
    it returns was never stored. *)
Definition _compute_output_path (node : node_id) : M (option string) :=
  (* get relevant fields from the current file path *)
  work_file_fields <- _get_hipfile_fields ;;
  if decide (work_file_fields = ∅)
  then raise (TankError "This Houdini file is not a Shotgun Toolkit work file!")
  else
    (* get the type of output *)
    extension <- output_extension node ;;
    (* create fields dict with all the metadata *)
    n <- the_node node ;;
    node_name <- lift (_getNodeName n) ;;
    version <- parm_evalAsInt node "ver" ;;
    output_profile <- _get_output_profile node ;;
    let fields :=
      output_fields work_file_fields node_name version extension output_profile in
    (* cache fields to accelerate path creation *)
    n <- the_node node ;;
    let cachedFields := n_cached_fields n in
    if decide (cachedFields <> Some fields)
    then
      update_node node (with_cached_fields (Some fields)) ;;
      (* get template *)
      path <- resolve (pr_output_cache_template output_profile) fields ;;
      update_node node (with_cached_path (Some path)) ;;
      ret (Some path)
    else ret (n_cached_path n).

(** [os.path.exists] and [os.makedirs]. *)
Definition os_path_exists (p : string) : M bool :=
  fun w => (Ok (bool_decide (p ∈ w_paths w)), w).

Definition os_makedirs (p : string) : M unit :=
  modify (with_paths (fun s => {[p]} ∪ s)).

(** The loop of [auto_version]: the highest version among the paths, above
    [max_version]. *)
Fixpoint highest_version (t : template) (caches : list string) (max_version : Z)
    : result Z :=
  match caches with
  | [] => Ok max_version
  | c :: caches' =>
      match tpl_get_fields t c !! "version" with
      | Some (FInt v) =>
          highest_version t caches' (if max_version <? v then v else max_version)
      | Some _ => Raise TypeError
      | None => Raise (KeyError "version")
      end
  end.

(** The dictionary of fields [auto_version] scans the caches with. *)
Definition scan_fields (work_file_fields : fields) (node_name extension : string)
    : fields :=
  list_to_map [ ("name", work_file_name work_file_fields);
                ("node", FStr node_name);
                ("SEQ", FStr "FORMAT: $F");
                ("ext", FStr extension) ].

(** [auto_version]. *)
Definition auto_version (node : node_id) : M unit :=
  (* get relevant fields from the current file path *)
  work_file_fields <- _get_hipfile_fields ;;
  output_profile <- _get_output_profile node ;;
  let output_cache_template :=
    get_template_by_name E (pr_output_cache_template output_profile) in
  (* get the type of output *)
  extension <- output_extension node ;;
  n <- the_node node ;;
  node_name <- lift (_getNodeName n) ;;
  let fields := scan_fields work_file_fields node_name extension in
  match output_cache_template with
  | None => raise AttributeError
  | Some t =>
      (* fields.update(...): the fields of the context win *)
      let fields := as_template_fields E t ∪ fields in
      max_version <-
        lift (highest_version t (abstract_paths_from_template E t fields) 0) ;;
      parm_set node "ver" (VInt (max_version + 1)) ;;
      (* create folder to 'reserve' cache version *)
      path <- _compute_output_path node ;;
      match path with
      | None | Some EmptyString => ret tt
      | Some path =>
          let dir_path := dirname path in
          exists_ <- os_path_exists dir_path ;;
          if exists_ then ret tt else os_makedirs dir_path
      end
  end.

Definition green : color := (0, 8, 0).
Definition red : color := (8, 0, 0).

(** The status of the cache at [path]: the label and the colour [check_seq]
    gives the node. *)
Definition cache_status (path : string) : M (string * color) :=
  let node_color := green in
  if contains "$F4" path
  then
    let path := replace "$F4" "*" path in
    let sequences := get_sequences E path in
    match sequences with
    | [seq] =>
        if (0 <? seq_length seq)%nat
        then
          let return_str :=
            match seq_missing seq with
            | _ :: _ =>
                "[" +:+ seq_format seq "%s" +:+ "-" +:+ seq_format seq "%e"
                +:+ "], missing " +:+ seq_format seq "%M"
            | [] => seq_format seq "%R"
            end in
          ret (return_str, red)
        else ret ("Invalid Sequence Object!", node_color)
    | _ => ret ("No or multiple sequences detected!", node_color)
    end
  else if decide (last (split_on "." path) = Some "abc")
  then
    exists_ <- os_path_exists path ;;
    if exists_
    then
      let return_str :=
        match alembicTimeRange E path with
        | Some abcRange =>
            "[" +:+ pretty abcRange.1 +:+ "-" +:+ pretty abcRange.2 +:+ "] - ABC Archive"
        | None => "Single Abc"
        end in
      ret (return_str, red)
    else ret ("No Cache!", node_color)
  else
    exists_ <- os_path_exists path ;;
    if exists_ then ret ("Single Frame", red) else ret ("No Cache!", node_color).

(** [check_seq]. *)
Definition check_seq (node : node_id) : M unit :=
  path <- _compute_output_path node ;;
  match path with
  | None => raise TypeError
  | Some path =>
      status <- cache_status path ;;
      let return_str := status.1 in
      let node_color := status.2 in
      (* update shotgun files node as well *)
      n <- the_node node ;;
      for_each (n_dependents n) (fun file_node =>
        f <- the_node file_node ;;
        if negb (String.eqb (n_type f) "sgtk_file") then ret tt
        else
          mode <- the_parm file_node "mode" ;;
          if negb (String.eqb (Parm_evalAsString mode) "out") then ret tt
          else
            rop <- the_parm file_node "rop" ;;
            n <- the_node node ;;
            if negb (String.eqb (Parm_evalAsString rop) (node_path n)) then ret tt
            else
              overver <- parm_evalAsInt file_node "overver" ;;
              if negb (overver =? 0) then ret tt
              else parm_set file_node "seqlabel" (VStr return_str)) ;;
      Node_setColor node node_color ;;
      parm_set node "seqlabel" (VStr return_str)
  end.

(** [get_output_path_menu_items]: a list of menu items for the current node.
    The local variable [path] is bound on the first branch of the [try]
    only. *)
Definition get_output_path_menu_items : M (list (option string)) :=
  let current_node := pwd E in
  (* attempt to compute the output path and add it as an item in the menu *)
  locals <-
    try_except
      (path <- _compute_output_path current_node ;;
       ret (Some path, [path; path]))
      is_TankError
      (fun e =>
         n <- the_node current_node ;;
         let error_msg :=
           "Unable to construct the output path menu items: " +:+ n_name n
           +:+ " - " +:+ match e with TankError msg => msg | _ => "" end in
         log LogError error_msg ;;
         let menu_str := "ERROR: " +:+ error_msg in
         ret (None, [Some menu_str; Some menu_str])) ;;
  let path := locals.1 in
  let menu := locals.2 in
  (if isUIAvailable E
   then
     the_parm current_node "sopoutput_child" ;;
     match path with
     | None => raise (UnboundLocalError "path")
     | Some path =>
         parm_set current_node "sopoutput_child"
           (match path with Some s => VStr s | None => VNone end)
     end
   else ret tt) ;;
  ret menu.

(** The name of the published file type [auto_publish] gives a cache of type
    [cache_type]. *)
Definition file_type_name_of (cache_type : string) : string :=
  if String.eqb cache_type "bgeo.sc" then "Bgeo Cache"
  else if String.eqb cache_type "abc" then "Alembic Cache"
  else if String.eqb cache_type "exr" then "Texture"
  else title cache_type +:+ " Cache".

(** [sgtk.util.register_publish]. *)
Definition register_publish (p : publish) : M unit :=
  modify (with_publishes (fun l => (l ++ [p])%list)).

(** [parm.eval().replace("/", os.path.sep)] for the parameter [name] of node
    [n]. *)
Definition reference_path (n : node_id) (name : string) : M string :=
  p <- the_parm n name ;;
  match Parm_eval p with
  | VStr s => ret (replace "/" (os_sep E) s)
  | _ => raise AttributeError
  end.

(** [hou.node("/obj").allSubChildren(recurse_in_locked_nodes=False)]. *)
Definition obj_allSubChildren : M (list node_id) :=
  obj <- hou_node "/obj" ;;
  match obj with
  | None => raise AttributeError
  | Some _ =>
      fun w =>
        (Ok (fst <$> filter (fun jn => n_parent jn.2 = "/obj"
                                       \/ startswith "/obj/" (n_parent jn.2) = true)
                            (map_to_list (w_nodes w))), w)
  end.

(** The references [auto_publish] collects: caches in scene, same as in
    tk-multi-breakdown. *)
Definition scene_references : M (list string) :=
  children <- obj_allSubChildren ;;
  refs <- collect children (fun n =>
    nd <- the_node n ;;
    let node_type := n_type nd in
    if String.eqb node_type "alembicarchive" then reference_path n "fileName"
    else if String.eqb node_type "abc_cam" then reference_path n "abcFile"
    else if String.eqb node_type "sgtk_file"
    then
      mode <- the_parm n "mode" ;;
      if String.eqb (Parm_evalAsString mode) "file" then reference_path n "file"
      else ret ""
    else if String.eqb node_type "arnold_procedural" then reference_path n "ar_filename"
    else ret "") ;;
  ret (filter (fun hou_path => hou_path <> "") refs).

(** [auto_publish]. *)
Definition auto_publish (node : node_id) : M unit :=
  (* cache that we are publishing *)
  cache_path <- _compute_output_path node ;;
  (* check if it already exists *)
  let publishes := find_publish E cache_path in
  match publishes with
  | [] =>
      (* get caches in scene *)
      refs <- scene_references ;;
      (* get current version *)
      version <- parm_evalAsInt node "ver" ;;
      (* publish backup hip file *)
      backup_path <- _compute_backup_output_path node ;;
      n <- the_node node ;;
      node_name <- lift (_getNodeName n) ;;
      register_publish
        (Publish (Some backup_path) node_name "Backup File" version refs) ;;
      (* publish cache *)
      cache_type <- output_extension node ;;
      let file_type_name := file_type_name_of cache_type in
      match file_type_name with
      | String _ _ =>
          n <- the_node node ;;
          node_name <- lift (_getNodeName n) ;;
          register_publish
            (Publish cache_path node_name file_type_name version [backup_path])
      | EmptyString =>
          log LogError "Could not find the cache_type in auto_publish function!"
      end
  | _ :: _ => log LogInfo "Trying to register cache that already exists!"
  end.

End Handler.

(** ** Specifications of computations *)

(** [hoare P m Q]: run from a world that satisfies [P], the computation [m]
    ends with an outcome and a world that satisfy [Q]. *)
Definition hoare {A : Type} (P : world -> Prop) (m : M A)
    (Q : result A -> world -> Prop) : Prop :=
  forall w, P w -> Q (m w).1 (m w).2.

(** The postcondition that asks [R] of a result and [E] of a raise. *)
Definition post {A : Type} (R : A -> world -> Prop) (E : exn -> world -> Prop)
    (r : result A) (w : world) : Prop :=
  match r with
  | Ok a => R a w
  | Raise e => E e w
  end.

(** [preserves I m]: whatever its outcome, [m] leaves a world that satisfies
    [I] when it starts from one. *)
Definition preserves {A : Type} (I : world -> Prop) (m : M A) : Prop :=
  forall w, I w -> I (m w).2.

(** Node [j] is in the session and satisfies [φ]. *)
Definition node_has (j : node_id) (φ : node -> Prop) (w : world) : Prop :=
  exists n, w_nodes w !! j = Some n /\ φ n.

(** What [output_extension] returns for a node. *)
Definition extension_of (n : node) : result string :=
  match n_parms n !! "types" with
  | None => Raise AttributeError
  | Some type_parm =>
      result_bind (Parm_evalAsInt type_parm) (getitem (p_menu_labels type_parm))
  end.

(** What [parm_evalAsInt node "ver"] and [_get_output_profile node] return
    for a node. *)
Definition version_of (n : node) : result Z :=
  match n_parms n !! "ver" with
  | None => Raise AttributeError
  | Some p => Parm_evalAsInt p
  end.

Definition profile_of (E : env) (n : node) : result profile :=
  match n_parms n !! TK_OUTPUT_PROFILE_PARM with
  | None => Raise AttributeError
  | Some p =>
      result_bind (subscript (p_menu_labels p) (Parm_eval p)) (fun name =>
      match output_profiles E !! name with
      | Some output_profile => Ok output_profile
      | None => Raise (KeyError name)
      end)
  end.

(** What [_get_hipfile_fields] returns. *)
Definition hipfile_fields_of (E : env) : fields :=
  match get_template E "work_file_template" with
  | Some t =>
      if tpl_validate t (work_file_path_of E)
      then tpl_get_fields t (work_file_path_of E)
      else ∅
  | None => ∅
  end.

(** The dictionary of fields [_compute_output_path] computes for a node in
    an environment: name, node, version, ext, SEQ, output_profile and
    hipfile. *)
Definition computed_fields (E : env) (n : node) : result fields :=
  result_bind (extension_of n) (fun extension =>
  result_bind (_getNodeName n) (fun node_name =>
  result_bind (version_of n) (fun version =>
  result_bind (profile_of E n) (fun output_profile =>
  Ok (output_fields E (hipfile_fields_of E) node_name version extension
                    output_profile))))).








(** The input connections [l], made one after the other. *)
Definition connect_all (l : list (nat * node_id)) (m : gmap nat node_id) : gmap nat node_id :=
  foldl (fun m c => <[c.1 := c.2]> m) m l.

(** [φ] is kept when the connections, the user data, the colour, the name or
    the position of a node are written. *)
Definition frame_stable (φ : node -> Prop) : Prop :=
  forall n, φ n ->
    (forall g, φ (with_inputs g n)) /\ (forall g, φ (with_user g n)) /\
    (forall c, φ (with_color c n)) /\ (forall s, φ (with_name s n)) /\
    (forall p, φ (with_position p n)).

(** [φ] is kept when the parameters of a node are written. *)
Definition parm_stable (φ : node -> Prop) : Prop :=
  forall n g, φ n -> φ (with_parms g n).

(** ** A session, for the examples *)

(** *** Lawful stand-ins for [pickle], [zlib] and [base64] *)

(** A number in unary: [n] times ['1'], then ['0']. *)
Fixpoint dump_nat (n : nat) (rest : string) : string :=
  match n with
  | O => String "0" rest
  | S n' => String "1" (dump_nat n' rest)
  end.

Fixpoint load_nat (s : string) : option (nat * string) :=
  match s with
  | String "0" rest => Some (O, rest)
  | String "1" s' =>
      match load_nat s' with
      | Some (n, rest) => Some (S n, rest)
      | None => None
      end
  | _ => None
  end.

(** A string: ['1'] before each character, then ['0']. *)
Fixpoint dump_str (s rest : string) : string :=
  match s with
  | EmptyString => String "0" rest
  | String c s' => String "1" (String c (dump_str s' rest))
  end.

Fixpoint load_str (s : string) : option (string * string) :=
  match s with
  | String "0" rest => Some (EmptyString, rest)
  | String "1" (String c s') =>
      match load_str s' with
      | Some (x, rest) => Some (String c x, rest)
      | None => None
      end
  | _ => None
  end.

Fixpoint dump_records (d : list output_record) : string :=
  match d with
  | [] => EmptyString
  | r :: d' => dump_nat (or_input r) (dump_str (or_node r) (dump_records d'))
  end.

Fixpoint load_records (n : nat) (s : string) : option (list output_record) :=
  match n with
  | O => Some []
  | S n' =>
      match load_nat s with
      | Some (input, s1) =>
          match load_str s1 with
          | Some (path, s2) =>
              match load_records n' s2 with
              | Some d => Some (OutputRecord path input :: d)
              | None => None
              end
          | None => None
          end
      | None => None
      end
  end.

(** The number of records, then the records. *)
Definition ex_dumps (d : list output_record) : string :=
  dump_nat (length d) (dump_records d).

Definition ex_loads (s : string) : result (list output_record) :=
  match load_nat s with
  | Some (n, rest) =>
      match load_records n rest with
      | Some d => Ok d
      | None => Raise ValueError
      end
  | None => Raise ValueError
  end.

(** A header before the data. *)
Definition ex_wrap (header : ascii) (s : string) : string := String header s.

Definition ex_unwrap (header : ascii) (s : string) : result string :=
  match s with
  | String c s' => if Ascii.eqb c header then Ok s' else Raise ValueError
  | EmptyString => Raise ValueError
  end.

Definition ex_lib : codec_library :=
  CodecLibrary ex_dumps ex_loads (ex_wrap "x") (ex_unwrap "x")
               (ex_wrap "=") (ex_unwrap "=").

(** *** Node types and nodes *)

Definition ex_parm (t : parm_template) (v : value) : parm := Parm t v ∅ [] [].

Definition ex_menu (v : value) (items labels : list string) : parm :=
  Parm IntParmTemplate v ∅ items labels.

Definition ex_tk_parms : gmap string parm :=
  list_to_map
    [ ("sopoutput", ex_menu (VInt 0) ["sgtk"] ["/proj/cache/cacheOut/v1/cacheOut.$F4.bgeo.sc"]);
      ("sopoutput_child", ex_parm StringParmTemplate (VStr ""));
      ("output_profile", ex_menu (VInt 0) ["0"] ["Default"]);
      ("types", ex_menu (VInt 0) ["0"; "1"] ["bgeo.sc"; "abc"]);
      ("ver", ex_parm IntParmTemplate (VInt 1));
      ("seqlabel", ex_parm StringParmTemplate (VStr ""));
      ("folder0", ex_parm FolderSetParmTemplate (VInt 0));
      ("f1", ex_parm IntParmTemplate (VInt 1));
      ("soppath", ex_parm StringParmTemplate (VStr "")) ].

Definition ex_geo_parms : gmap string parm :=
  list_to_map
    [ ("sopoutput", ex_parm StringParmTemplate (VStr "$HIP/geo/$OS.bgeo.sc"));
      ("folder0", ex_parm FolderSetParmTemplate (VInt 0));
      ("f1", ex_parm IntParmTemplate (VInt 1));
      ("soppath", ex_parm StringParmTemplate (VStr "")) ].

Definition ex_tk_type : node_type := NodeType ex_tk_parms 1 (0, 8, 0).
Definition ex_geo_type : node_type := NodeType ex_geo_parms 1 (8, 8, 8).

Definition ex_types (c : category) (name : string) : option node_type :=
  if String.eqb name "sgtk_geometry" then Some ex_tk_type
  else if String.eqb name "rop_geometry" then Some ex_geo_type
  else if String.eqb name "geometry" then Some ex_geo_type
  else None.

(** A Toolkit node: its second folder is open, its start frame is animated,
    its object path is set; it is fed by a box and it feeds a file node. *)
Definition ex_f1 : parm :=
  Parm IntParmTemplate (VInt 1)
       {[ 1 := Keyframe 1 (Some "$FSTART"); 24 := Keyframe 48 None ]} [] [].

Definition ex_tk_node : node :=
  Node Sop "sgtk_geometry" "cache_out" "/obj/geo1"
       (<["folder0" := ex_parm FolderSetParmTemplate (VInt 1)]>
        (<["f1" := ex_f1]>
         (<["soppath" := ex_parm StringParmTemplate (VStr "/obj/geo1/OUT")]> ex_tk_parms)))
       {[ 0%nat := 1%nat ]} 1 ∅ None None (0, 8, 0) (3, 4) [].

Definition ex_box : node :=
  Node Sop "box" "box1" "/obj/geo1" ∅ ∅ 0 ∅ None None (8, 8, 8) (0, 0) [].

Definition ex_file : node :=
  Node Sop "file" "file1" "/obj/geo1" ∅ {[ 0%nat := 0%nat ]} 1 ∅ None None
       (8, 8, 8) (3, 8) [].

Definition ex_world : world :=
  World (list_to_map [(0%nat, ex_tk_node); (1%nat, ex_box); (3%nat, ex_file)])
        [] ∅ [] [].

(** The same Toolkit node in a session with the object network and an
    Alembic archive in it. *)
Definition ex_obj : node :=
  Node Rop "obj" "obj" "" ∅ ∅ 0 ∅ None None (8, 8, 8) (0, 0) [].

Definition ex_archive : node :=
  Node Sop "alembicarchive" "tree" "/obj"
       {[ "fileName" := ex_parm StringParmTemplate (VStr "/proj/assets/tree.abc") ]}
       ∅ 0 ∅ None None (8, 8, 8) (0, 0) [].

Definition ex_publish_world : world :=
  World (list_to_map [(0%nat, ex_tk_node); (2%nat, ex_obj); (7%nat, ex_archive)])
        [] ∅ [] [].

(** The session after the conversion to regular nodes, and after the
    conversion back. *)
Definition ex_world_regular : world :=
  (convert_to_regular_geometry_nodes ex_types ex_lib ex_world).2.




(** *** The toolkit *)

Definition ex_work_template : template :=
  Template (startswith "/proj/work/")
           (fun _ => list_to_map [("name", FStr "shot"); ("version", FInt 3)])
           (fun _ => Raise (TankError "not applied")).

Definition ex_version_of (path : string) : fields :=
  if String.eqb path "/proj/cache/cacheOut/v1" then {[ "version" := FInt 1 ]}
  else if String.eqb path "/proj/cache/cacheOut/v2" then {[ "version" := FInt 2 ]}
  else if String.eqb path "/proj/cache/cacheOut/v5" then {[ "version" := FInt 5 ]}
  else ∅.

Definition ex_cache_template : template :=
  Template (startswith "/proj/cache/") ex_version_of
           (fun f =>
              match f !! "node", f !! "version", f !! "ext" with
              | Some (FStr n), Some (FInt v), Some (FStr e) =>
                  Ok ("/proj/cache/" +:+ n +:+ "/v" +:+ pretty v +:+ "/" +:+ n
                      +:+ ".$F4." +:+ e)
              | _, _, _ => Raise (TankError "missing field")
              end).

Definition ex_backup_template : template :=
  Template (startswith "/proj/backup/") (fun _ => ∅)
           (fun f =>
              match f !! "node", f !! "version" with
              | Some (FStr n), Some (FInt v) =>
                  Ok ("/proj/backup/" +:+ n +:+ "_v" +:+ pretty v +:+ ".hip")
              | _, _ => Raise (TankError "missing field")
              end).

Definition ex_profile : profile := Profile "Default" ∅ None "cache_tpl" "backup_tpl".

Definition ex_sequence : sequence :=
  Sequence 10 []
           (fun directive => if String.eqb directive "%R" then "[1-10]" else "").

(** The environment: with or without a user interface, the path of the
    current file, and the variable [NOZ_HIPFILE]. *)
Definition ex_env_with (ui : bool) (hip : string) (noz : option string) : env :=
  Env ui hip 0%nat noz "/"
      (fun name => if String.eqb name "work_file_template"
                   then Some ex_work_template else None)
      (fun name => if String.eqb name "cache_tpl" then Some ex_cache_template
                   else if String.eqb name "backup_tpl" then Some ex_backup_template
                   else None)
      (fun _ => {[ "Shot" := FStr "sh010" ]})
      (fun _ _ => ["/proj/cache/cacheOut/v1"; "/proj/cache/cacheOut/v2";
                   "/proj/cache/cacheOut/v5"])
      (fun _ => [])
      {[ "Default" := ex_profile ]}
      (fun _ => [ex_sequence])
      (fun _ => None).

(** A work file is open in a session with a user interface. *)
Definition ex_env : env := ex_env_with true "/proj/work/shot_v003.hip" None.

(** A file that is not a work file is open. *)
Definition ex_env_untitled : env := ex_env_with true "/tmp/untitled.hip" None.

(** On the render farm: the backup file is open, and the variable names the
    work file it came from. *)
Definition ex_env_farm : env :=
  ex_env_with false "/proj/backup/cacheOut_v1.hip" (Some "/proj/work/shot_v003.hip").

(** ** More of the handler *)

(** *** The output profiles cached by [__init__] *)

(** The loop of [__init__] over the profiles of the setting
    [output_profiles], with the dictionary [_output_profiles] it fills. *)
Fixpoint cache_output_profiles (settings : list profile)
    (_output_profiles : gmap string profile) : M (gmap string profile) :=
  match settings with
  | [] => ret _output_profiles
  | output_profile :: settings' =>
      let output_profile_name := pr_name output_profile in
      if decide (is_Some (_output_profiles !! output_profile_name))
      then
        log LogWarning
          ("Found multiple output profiles named '" +:+ output_profile_name
           +:+ "' for the " +:+ "Tk Geometry node! Only the first one will be available.") ;;
        cache_output_profiles settings' _output_profiles
      else
        let _output_profiles := <[output_profile_name := output_profile]> _output_profiles in
        log LogDebug
          ("Caching geometry output profile: '" +:+ output_profile_name +:+ "'") ;;
        cache_output_profiles settings' _output_profiles
  end.

(** [__init__]: get and cache the list of profiles defined in the settings;
    [settings] is what [get_setting("output_profiles", [])] returns. *)
Definition __init__ (settings : list profile) : M (gmap string profile) :=
  cache_output_profiles settings ∅.



(** [get_all_tk_geometry_nodes]: a list of all tk-houdini-geometrynode
    instances in the current session. *)
Definition get_all_tk_geometry_nodes : M (list node_id) :=
  let tk_node_type := TK_GEOMETRY_NODE_TYPE in
  instances Rop tk_node_type.

(** [_get_render_path]: get the render path from current item in the output
    path parm menu. *)
Definition _get_render_path (node : node_id) : M string :=
  output_parm <- the_parm node NODE_OUTPUT_PATH_PARM ;;
  lift (subscript (p_menu_labels output_parm) (Parm_eval output_parm)).

Section Files.

Variable E : env.

(** [tank.paths_from_template(template, fields, skip_keys)]. *)
Variable paths_from_template : template -> fields -> list string -> list string.

(** [get_output_template]. *)
Definition get_output_template (node : node_id) : M (option template) :=
  output_profile <- _get_output_profile E node ;;
  ret (get_template_by_name E (pr_output_cache_template output_profile)).

(** [_get_rendered_files]: the files on disk associated with this node. *)
Definition _get_rendered_files (node : node_id) : M (list string) :=
  file_name <- _get_render_path node ;;
  output_profile <- _get_output_profile E node ;;
  (* get the output cache template for the current profile *)
  match get_template_by_name E (pr_output_cache_template output_profile) with
  | None => raise AttributeError
  | Some output_cache_template =>
      if negb (tpl_validate output_cache_template file_name)
      then
        n <- the_node node ;;
        log LogError
          ("Unable to validate files on disk for node " +:+ n_name n +:+ "."
           +:+ "The path '" +:+ file_name +:+ "' is not recognized by Shotgun.") ;;
        ret []
      else
        let fields := tpl_get_fields output_cache_template file_name in
        (* get the actual file paths based on the template; ignore any
           sequence or eye fields *)
        ret (paths_from_template output_cache_template fields ["SEQ"; "eye"])
  end.

(** [hou.hipFile.save(file_name=None)]: the current file is on disk
    afterwards.  [shutil.copy2(src, dst)], called for a source that was just
    saved and a destination whose directory exists: the destination is on
    disk afterwards. *)
Definition hipFile_save : M unit :=
  modify (with_paths (fun s => {[hipFile_path E]} ∪ s)).

Definition shutil_copy2 (src dst : string) : M unit :=
  modify (with_paths (fun s => {[dst]} ∪ s)).

(** [create_backup_file]: write backup file. *)
Definition create_backup_file (node : node_id) : M unit :=
  backup_path <- _compute_backup_output_path E node ;;
  (* create dir if it does not exist *)
  let backup_dir_path := dirname backup_path in
  exists_ <- os_path_exists backup_dir_path ;;
  (if exists_ then ret tt else os_makedirs backup_dir_path) ;;
  (* write backup hip *)
  hipFile_save ;;
  shutil_copy2 (hipFile_path E) backup_path ;;
  n <- the_node node ;;
  log LogDebug ("Created backup file for " +:+ n_name n).

(** [get_backup_file]: the backup path when the file exists, [None] and a
    warning otherwise. *)
Definition get_backup_file (node : node_id) : M (option string) :=
  backup_path <- _compute_backup_output_path E node ;;
  (* check if backup file exists *)
  exists_ <- os_path_exists backup_path ;;
  if exists_ then ret (Some backup_path)
  else
    n <- the_node node ;;
    log LogWarning ("Could not find backup hip file for " +:+ node_path n) ;;
    ret None.

End Files.

(** *** The file browser *)

(** The desktop of the user around the session: the messages displayed with
    [hou.ui.displayMessage] and the commands run with [os.system]. *)
Record desktop : Type := Desktop {
  d_world : world;
  d_messages : list string;
  d_commands : list string
}.

(** A computation on the desktop. *)
Definition D (A : Type) : Type := desktop -> result A * desktop.

Definition dret {A : Type} (a : A) : D A := fun d => (Ok a, d).

Definition draise {A : Type} (e : exn) : D A := fun d => (Raise e, d).

Definition dbind {A B : Type} (m : D A) (k : A -> D B) : D B :=
  fun d =>
    match m d with
    | (Ok a, d') => k a d'
    | (Raise e, d') => (Raise e, d')
    end.

Notation "x <~ c1 ;; c2" := (dbind c1 (fun x => c2))
  (at level 100, c1 at next level, right associativity).

(** A computation of the session, run on the desktop. *)
Definition in_world {A : Type} (m : M A) : D A :=
  fun d =>
    let rw := m (d_world d) in
    (rw.1, Desktop rw.2 (d_messages d) (d_commands d)).

(** [hou.ui.displayMessage(msg)]. *)
Definition displayMessage (msg : string) : D unit :=
  fun d => (Ok tt, Desktop (d_world d) (d_messages d ++ [msg])%list (d_commands d)).

Definition double_quote : string := String "034"%char EmptyString.
Definition new_line : string := String "010"%char EmptyString.

Section Browser.

Variable E : env.
Variable paths_from_template : template -> fields -> list string -> list string.

(** [sys.platform], [os.path.dirname] of the platform, and the exit code
    [os.system] returns for a command. *)
Variable platform : string.
Variable os_path_dirname : string -> string.
Variable exit_code_of : string -> Z.

(** [os.system(cmd)]. *)
Definition os_system (cmd : string) : D Z :=
  fun d =>
    (Ok (exit_code_of cmd),
     Desktop (d_world d) (d_messages d) (d_commands d ++ [cmd])%list).

(** [show_in_fs]: open a file browser showing the render path of the
    current node.  The local variable [cmd] is bound on the branches of the
    three platforms only. *)
Definition show_in_fs : D unit :=
  (* retrieve the calling node *)
  let current_node := pwd E in
  (* first, try to just use the current cached path *)
  render_path <~ in_world (_get_render_path current_node) ;;
  render_dir <~
    match render_path with
    | EmptyString => dret None
    | String _ _ =>
        (* the above method returns houdini style slashes, so ensure these
           are pointing correctly *)
        let render_path := replace "/" (os_sep E) render_path in
        let dir_name := os_path_dirname render_path in
        exists_ <~ in_world (os_path_exists dir_name) ;;
        dret (if exists_ then Some dir_name else None)
    end ;;
  (* [None] when the method has returned *)
  render_dir <~
    match render_dir with
    | Some (String c s) => dret (Some (String c s))
    | Some EmptyString | None =>
        (* render directory does not exist so try using location of
           rendered frames instead *)
        rendered_files <~
          in_world (_get_rendered_files E paths_from_template current_node) ;;
        match rendered_files with
        | [] =>
            n <~ in_world (the_node current_node) ;;
            let msg :=
              "Unable to find rendered files for node '" +:+ node_path n +:+ "'." in
            _ <~ in_world (log LogError msg) ;;
            _ <~ displayMessage msg ;;
            dret None
        | file :: _ => dret (Some (os_path_dirname file))
        end
    end ;;
  (* if we have a valid render path then show it *)
  match render_dir with
  | None | Some EmptyString => dret tt
  | Some render_dir =>
      let system := platform in
      cmd <~
        (if String.eqb system "linux2"
         then dret (Some ("xdg-open " +:+ double_quote +:+ render_dir +:+ double_quote))
         else if String.eqb system "darwin"
         then dret (Some ("open '" +:+ render_dir +:+ "'"))
         else if String.eqb system "win32"
         then dret (Some ("cmd.exe /C start " +:+ double_quote +:+ "Folder" +:+ double_quote
                          +:+ " " +:+ double_quote +:+ render_dir +:+ double_quote))
         else
           let msg := "Platform '" +:+ system +:+ "' is not supported." in
           _ <~ in_world (log LogError msg) ;;
           _ <~ displayMessage msg ;;
           dret None) ;;
      match cmd with
      | None => draise (UnboundLocalError "cmd")
      | Some cmd =>
          _ <~ in_world (log LogDebug
                 ("Executing command:" +:+ new_line +:+ " '" +:+ cmd +:+ "'")) ;;
          exit_code <~ os_system cmd ;;
          if negb (exit_code =? 0)
          then displayMessage ("Failed to launch '" +:+ cmd +:+ "'!")
          else dret tt
      end
  end.

End Browser.

(** ** More specification helpers *)

(** A cache is found at [path]: one sequence that is not empty when the path
    has the frame placeholder, the file itself otherwise. *)
Definition cache_found (E : env) (path : string) (w : world) : bool :=
  if contains "$F4" path
  then match get_sequences E (replace "$F4" "*" path) with
       | [seq] => (0 <? seq_length seq)%nat
       | _ => false
       end
  else bool_decide (path ∈ w_paths w).

(** The labels [check_seq] gives a node for which no cache is found. *)
Definition no_cache_labels : list string :=
  ["No Cache!"; "No or multiple sequences detected!"; "Invalid Sequence Object!"].

(** The file node [f] follows the cache node at [path]: it is a Toolkit file
    node in the mode [out] that reads the cache of this node and does not
    override its version. *)
Definition follows (path : string) (f : node) : bool :=
  String.eqb (n_type f) "sgtk_file" &&
  match n_parms f !! "mode", n_parms f !! "rop", n_parms f !! "overver" with
  | Some mode, Some rop, Some overver =>
      String.eqb (Parm_evalAsString mode) "out" &&
      String.eqb (Parm_evalAsString rop) path &&
      match Parm_evalAsInt overver with
      | Ok z => z =? 0
      | Raise _ => false
      end
  | _, _, _ => false
  end.

(** A dependent [check_seq] can pass: a node of another type, or a Toolkit
    file node with the parameters the loop reads and a label to write. *)
Definition file_node_ok (f : node) : Prop :=
  n_type f <> "sgtk_file" \/
  (exists mode rop overver z label,
     n_parms f !! "mode" = Some mode /\ n_parms f !! "rop" = Some rop /\
     n_parms f !! "overver" = Some overver /\ Parm_evalAsInt overver = Ok z /\
     n_parms f !! "seqlabel" = Some label /\ p_template label = StringParmTemplate).

(** The label [check_seq] writes on a file node, and what the loop of
    [check_seq] for the cache node at [path] makes of a dependent. *)
Definition relabel (label : string) (f : node) : node :=
  match n_parms f !! "seqlabel" with
  | Some q => with_parms <["seqlabel" := with_value (VStr label) q]> f
  | None => f
  end.

Definition labelled (path label : string) (f : node) : node :=
  if follows path f then relabel label f else f.




(** Every node of the type [name] in the session [w'] is a node of this type
    in the session [w]. *)
Definition no_new_instance (name : string) (w w' : world) : Prop :=
  forall j n',
    w_nodes w' !! j = Some n' -> n_type n' = name ->
    exists n, w_nodes w !! j = Some n /\ n_type n = name.

(** *** More examples *)

(** Settings with two profiles of the same name. *)
Definition ex_settings : list profile :=
  [ Profile "Default" ∅ None "cache_tpl" "backup_tpl";
    Profile "Alembic" ∅ (Some (0, 0, 8)) "abc_tpl" "backup_tpl";
    Profile "Default" ∅ None "other_tpl" "backup_tpl" ].

(** A file node that follows the Toolkit node of the example session. *)
Definition ex_follower : node :=
  Node Sop "sgtk_file" "file2" "/obj/geo1"
       (list_to_map
          [ ("mode", ex_parm StringParmTemplate (VStr "out"));
            ("rop", ex_parm StringParmTemplate (VStr "/obj/geo1/cache_out"));
            ("overver", ex_parm IntParmTemplate (VInt 0));
            ("seqlabel", ex_parm StringParmTemplate (VStr "")) ])
       ∅ 1 ∅ None None (8, 8, 8) (6, 8) [].

Definition ex_followed_world : world :=
  with_nodes (fun ns =>
    <[0%nat := Node Sop "sgtk_geometry" "cache_out" "/obj/geo1" (n_parms ex_tk_node)
                    (n_inputs ex_tk_node) 1 ∅ None None (0, 8, 0) (3, 4) [5%nat; 3%nat]]>
      (<[5%nat := ex_follower]> ns)) ex_world.

(** An environment where no sequence is found on disk. *)
Definition ex_env_empty_disk : env :=
  Env true "/proj/work/shot_v003.hip" 0%nat None "/"
      (get_template ex_env) (get_template_by_name ex_env) (as_template_fields ex_env)
      (abstract_paths_from_template ex_env) (find_publish ex_env) (output_profiles ex_env)
      (fun _ => []) (alembicTimeRange ex_env).

(** An environment where the cache is published already. *)
Definition ex_env_published : env :=
  Env true "/proj/work/shot_v003.hip" 0%nat None "/"
      (get_template ex_env) (get_template_by_name ex_env) (as_template_fields ex_env)
      (abstract_paths_from_template ex_env)
      (fun _ => ["/proj/cache/cacheOut/v1/cacheOut.$F4.bgeo.sc"]) (output_profiles ex_env)
      (get_sequences ex_env) (alembicTimeRange ex_env).

(** The desktop of the example session. *)
Definition ex_desktop : desktop := Desktop ex_world [] [].


(** * Properties *)

(** ** Rules for computations *)

Lemma bind_Ok_inv {A B : Type} (m : M A) (k : A -> M B) (w w' : world) (b : B) :
  bind m k w = (Ok b, w') ->
  exists a w1, m w = (Ok a, w1) /\ k a w1 = (Ok b, w').
Proof.
  unfold bind. destruct (m w) as [[a|e] w1]; intros H; [eauto | discriminate].
Qed.

Lemma bind_Ok {A B : Type} (m : M A) (k : A -> M B) (w w1 : world) (a : A) :
  m w = (Ok a, w1) -> bind m k w = k a w1.
Proof. unfold bind. by intros ->. Qed.

Lemma bind_Raise {A B : Type} (m : M A) (k : A -> M B) (w w1 : world) (e : exn) :
  m w = (Raise e, w1) -> bind m k w = (Raise e, w1).
Proof. unfold bind. by intros ->. Qed.

Lemma hoare_ret {A : Type} (a : A) (Q : result A -> world -> Prop) :
  hoare (Q (Ok a)) (ret a) Q.
Proof. by intros w. Qed.

Lemma hoare_raise {A : Type} (e : exn) (Q : result A -> world -> Prop) :
  hoare (Q (Raise e)) (raise e) Q.
Proof. by intros w. Qed.

Lemma hoare_lift {A : Type} (r : result A) (Q : result A -> world -> Prop) :
  hoare (Q r) (lift r) Q.
Proof. by intros w. Qed.

Lemma hoare_bind {A B : Type} (P : world -> Prop) (R : A -> world -> Prop)
    (m : M A) (k : A -> M B) (Q : result B -> world -> Prop) :
  hoare P m (post R (fun e => Q (Raise e))) ->
  (forall a, hoare (R a) (k a) Q) ->
  hoare P (bind m k) Q.
Proof.
  intros Hm Hk w HP. specialize (Hm w HP). unfold bind.
  destruct (m w) as [[a|e] w1]; simpl in *; [by apply Hk | done].
Qed.

Lemma hoare_weaken {A : Type} (P P' : world -> Prop) (m : M A)
    (Q Q' : result A -> world -> Prop) :
  hoare P' m Q' ->
  (forall w, P w -> P' w) ->
  (forall r w, Q' r w -> Q r w) ->
  hoare P m Q.
Proof. intros H HP HQ w Hw. apply HQ, H, HP, Hw. Qed.

Lemma hoare_for_each {A : Type} (I : world -> Prop) (E : exn -> world -> Prop)
    (l : list A) (body : A -> M unit) :
  (forall x, x ∈ l -> hoare I (body x) (post (fun _ => I) E)) ->
  hoare I (for_each l body) (post (fun _ => I) E).
Proof.
  induction l as [|x l IH]; intros Hbody; simpl.
  - by intros w.
  - eapply hoare_bind.
    + apply Hbody. by left.
    + intros u. apply IH. intros y Hy. apply Hbody. by right.
Qed.

Lemma hoare_try_except {A : Type} (P : world -> Prop) (m : M A)
    (catches : exn -> bool) (handler : exn -> M A)
    (H : exn -> world -> Prop) (Q : result A -> world -> Prop) :
  hoare P m (fun r w =>
    match r with
    | Ok a => Q (Ok a) w
    | Raise e => if catches e then H e w else Q (Raise e) w
    end) ->
  (forall e, catches e = true -> hoare (H e) (handler e) Q) ->
  hoare P (try_except m catches handler) Q.
Proof.
  intros Hm Hh w HP. specialize (Hm w HP). unfold try_except.
  destruct (m w) as [[a|e] w1]; simpl in *; [done|].
  destruct (catches e) eqn:Hc; [by apply Hh | done].
Qed.

(** ** Frame rules: what a computation leaves as it is *)

Lemma preserves_unchanged {A : Type} (I : world -> Prop) (m : M A) :
  (forall w, (m w).2 = w) -> preserves I m.
Proof. intros H w Hw. by rewrite H. Qed.

Lemma preserves_ret {A : Type} (I : world -> Prop) (a : A) : preserves I (ret a).
Proof. by apply preserves_unchanged. Qed.

Lemma preserves_raise {A : Type} (I : world -> Prop) (e : exn) : preserves I (@raise A e).
Proof. by apply preserves_unchanged. Qed.

Lemma preserves_lift {A : Type} (I : world -> Prop) (r : result A) : preserves I (lift r).
Proof. by apply preserves_unchanged. Qed.

Lemma preserves_bind {A B : Type} (I : world -> Prop) (m : M A) (k : A -> M B) :
  preserves I m -> (forall a, preserves I (k a)) -> preserves I (bind m k).
Proof.
  intros Hm Hk w Hw. specialize (Hm w Hw). unfold bind.
  destruct (m w) as [[a|e] w1]; simpl in *; [by apply Hk | done].
Qed.

Lemma preserves_for_each {A : Type} (I : world -> Prop) (l : list A) (body : A -> M unit) :
  (forall x, preserves I (body x)) -> preserves I (for_each l body).
Proof.
  intros Hb. induction l as [|x l IH]; simpl.
  - apply preserves_ret.
  - apply preserves_bind; [apply Hb | by intros _].
Qed.

Lemma preserves_collect {A B : Type} (I : world -> Prop) (l : list A) (f : A -> M B) :
  (forall x, preserves I (f x)) -> preserves I (collect l f).
Proof.
  intros Hf. induction l as [|x l IH]; simpl.
  - apply preserves_ret.
  - apply preserves_bind; [apply Hf | intros y].
    apply preserves_bind; [apply IH | intros ys; apply preserves_ret].
Qed.

Lemma preserves_try_except {A : Type} (I : world -> Prop) (m : M A)
    (catches : exn -> bool) (handler : exn -> M A) :
  preserves I m -> (forall e, preserves I (handler e)) ->
  preserves I (try_except m catches handler).
Proof.
  intros Hm Hh w Hw. specialize (Hm w Hw). unfold try_except.
  destruct (m w) as [[a|e] w1]; simpl in *; [done|].
  destruct (catches e); [by apply Hh | done].
Qed.

Lemma preserves_the_node (I : world -> Prop) (i : node_id) : preserves I (the_node i).
Proof. apply preserves_unchanged. intros w. unfold the_node. by destruct (w_nodes w !! i). Qed.

Lemma preserves_hou_node (I : world -> Prop) (p : string) : preserves I (hou_node p).
Proof. by apply preserves_unchanged. Qed.

Lemma preserves_instances (I : world -> Prop) (c : category) (s : string) :
  preserves I (instances c s).
Proof. by apply preserves_unchanged. Qed.

Lemma preserves_outputs_raw (I : world -> Prop) (i : node_id) :
  preserves I (fun w => (Ok (outputs_of i (w_nodes w)), w)).
Proof. by apply preserves_unchanged. Qed.

Lemma preserves_update_node (j k : node_id) (φ : node -> Prop) (f : node -> node) :
  k <> j \/ (forall n, φ n -> φ (f n)) ->
  preserves (node_has j φ) (update_node k f).
Proof.
  intros H w (n & Hn & Hφ). unfold update_node, modify, node_has. simpl.
  destruct (decide (k = j)) as [->|Hne].
  - destruct H as [H|H]; [done|]. exists (f n). rewrite lookup_alter_eq, Hn. auto.
  - exists n. by rewrite lookup_alter_ne.
Qed.

Lemma preserves_modify (I : world -> Prop) (f : world -> world) :
  (forall w, I w -> I (f w)) -> preserves I (modify f).
Proof. intros H w Hw. by apply H. Qed.

Lemma preserves_os_path_exists (I : world -> Prop) (p : string) :
  preserves I (os_path_exists p).
Proof. by apply preserves_unchanged. Qed.

Lemma preserves_destroy (i j : node_id) (φ : node -> Prop) :
  i <> j -> (forall g n, φ n -> φ (with_inputs g n)) ->
  preserves (node_has j φ) (Node_destroy i).
Proof.
  intros Hne Hφ. apply preserves_bind; [apply preserves_the_node|intros _].
  intros w (n & Hn & Hn'). unfold modify, node_has. simpl.
  rewrite lookup_fmap, lookup_delete_ne, Hn by done. simpl. eauto.
Qed.

Lemma preserves_createNode (types : category -> string -> option node_type)
    (i j : node_id) (φ : node -> Prop) (name : string) :
  preserves (node_has j φ) (createNode types i name).
Proof.
  apply preserves_bind; [apply preserves_the_node|intros n].
  destruct (types _ _); [|apply preserves_raise].
  intros w (m & Hm & Hm'). unfold node_has. simpl. exists m. split; [|done].
  rewrite lookup_insert_ne; [done|]. intros E.
  pose proof (is_fresh (dom (w_nodes w))) as Hf. rewrite E in Hf.
  apply Hf, elem_of_dom. eauto.
Qed.

Lemma preserves_and {A : Type} (I1 I2 : world -> Prop) (m : M A) :
  preserves I1 m -> preserves I2 m -> preserves (fun w => I1 w /\ I2 w) m.
Proof. intros H1 H2 w [? ?]. split; [by apply H1 | by apply H2]. Qed.

Ltac head_of t := lazymatch t with ?f _ => head_of f | _ => t end.

Ltac frame_step :=
  lazymatch goal with
  | |- preserves (fun w => _ /\ _) _ => apply preserves_and
  | |- preserves _ (bind _ _) => apply preserves_bind; [|intros ?]
  | |- preserves _ (ret _) => apply preserves_ret
  | |- preserves _ (raise _) => apply preserves_raise
  | |- preserves _ (lift _) => apply preserves_lift
  | |- preserves _ (for_each _ _) => apply preserves_for_each; intros ?
  | |- preserves _ (collect _ _) => apply preserves_collect; intros ?
  | |- preserves _ (try_except _ _ _) => apply preserves_try_except; [|intros ?]
  | |- preserves _ (the_node _) => apply preserves_the_node
  | |- preserves _ (hou_node _) => apply preserves_hou_node
  | |- preserves _ (instances _ _) => apply preserves_instances
  | |- preserves _ (fun w => (Ok (outputs_of _ (w_nodes w)), w)) => apply preserves_outputs_raw
  | |- preserves _ (os_path_exists _) => apply preserves_os_path_exists
  | |- preserves _ (fun w => (_, w)) => by apply preserves_unchanged
  | |- preserves _ (fun w => (_, _)) => intros ? ?; simpl; try done
  | |- preserves _ (modify _) => apply preserves_modify; try (by intros ? ?)
  | |- preserves _ (update_node _ _) => first [apply preserves_update_node | unfold update_node]
  | |- preserves _ (Node_destroy _) => first [apply preserves_destroy | unfold Node_destroy]
  | |- preserves _ (createNode _ _ _) => first [apply preserves_createNode | unfold createNode]
  | |- preserves _ (match ?x with _ => _ end) => destruct x
  | |- preserves _ (let _ := _ in _) => cbv zeta
  | |- preserves _ ?m => let h := head_of m in unfold h
  end.

Ltac frame := repeat frame_step.

Ltac frame_side :=
  match goal with
  | H : frame_stable ?φ |- _ \/ (forall n, ?φ n -> ?φ _) =>
      let n := fresh "n" in let Hn := fresh "Hn" in
      right; intros n Hn; destruct (H n Hn) as (?&?&?&?&?); done
  | H : _ <> _ \/ _ |- _ <> _ \/ _ =>
      destruct H as [H|H]; [by left | right; intros ? ?; by apply H]
  | H : _ <> _ |- _ <> _ \/ _ => by left
  end.

Lemma preserves_parm_set (j : node_id) (φ : node -> Prop) (i : node_id)
    (name : string) (v : value) :
  i <> j \/ parm_stable φ ->
  preserves (node_has j φ) (parm_set i name v).
Proof. intros H. frame; frame_side. Qed.

Lemma preserves_copy_parm_values (j : node_id) (φ : node -> Prop)
    (source target : node_id) (excludes : list string) :
  target <> j \/ parm_stable φ ->
  preserves (node_has j φ) (_copy_parm_values source target excludes).
Proof. intros H. frame; frame_side. Qed.

Lemma hoare_bind_preserves {A B : Type} (I : world -> Prop) (m : M A) (k : A -> M B)
    (Q : result B -> world -> Prop) :
  preserves I m ->
  (forall e w, I w -> Q (Raise e) w) ->
  (forall a, hoare I (k a) Q) ->
  hoare I (bind m k) Q.
Proof.
  intros Hm HQ Hk w Hw. specialize (Hm w Hw). unfold bind.
  destruct (m w) as [[a|e] w1]; simpl in *; [by apply Hk | by apply HQ].
Qed.

(** ** Input connections *)

Lemma with_inputs_id (n : node) : with_inputs (fun m => m) n = n.
Proof. by destruct n. Qed.

Lemma with_nodes_insert_id (w : world) (i : node_id) (n : node) :
  w_nodes w !! i = Some n -> with_nodes <[i := n]> w = w.
Proof. intros H. destruct w; unfold with_nodes; simpl in *. by rewrite insert_id. Qed.

Lemma for_each_setInput (target : node_id) (l : list (nat * node_id)) (w : world) (t : node) :
  w_nodes w !! target = Some t ->
  for_each l (fun c => Node_setInput target c.1 c.2) w
  = (Ok tt, with_nodes <[target := with_inputs (connect_all l) t]> w).
Proof.
  revert w t. induction l as [|c l IH]; intros w t Ht; simpl.
  - unfold connect_all; simpl. rewrite with_inputs_id, with_nodes_insert_id by done. done.
  - unfold bind at 1. unfold Node_setInput at 1, bind, the_node, update_node, modify.
    rewrite Ht.
    erewrite IH.
    2:{ simpl. rewrite lookup_alter_eq, Ht. simpl. reflexivity. }
    f_equal. destruct w, t; unfold with_nodes; simpl in *. f_equal.
    rewrite insert_alter_eq. reflexivity.
Qed.

Lemma connect_all_other (l : list (nat * node_id)) (m : gmap nat node_id) (k : nat) :
  k ∉ l.*1 -> connect_all l m !! k = m !! k.
Proof.
  revert m. induction l as [|c l IH]; intros m Hk; [done|].
  unfold connect_all in *. simpl. rewrite IH.
  - apply lookup_insert_ne. intros E. apply Hk. rewrite <- E. by left.
  - intros H. apply Hk. by right.
Qed.

Lemma connect_all_lookup (l : list (nat * node_id)) (m : gmap nat node_id)
    (k : nat) (x : node_id) :
  NoDup l.*1 -> (k, x) ∈ l -> connect_all l m !! k = Some x.
Proof.
  revert m. induction l as [|c l IH]; intros m Hnd Hin.
  - by apply elem_of_nil in Hin.
  - apply NoDup_cons in Hnd as [Hc Hnd]. apply elem_of_cons in Hin as [<-|Hin].
    + unfold connect_all. simpl. fold (connect_all l (<[k:=x]> m)).
      rewrite connect_all_other by done. apply lookup_insert_eq.
    + unfold connect_all. simpl. by apply IH.
Qed.

Theorem copy_inputs_guard (source_node target_node : node_id) (w : world)
    (source target : node) :
  w_nodes w !! source_node = Some source ->
  w_nodes w !! target_node = Some target ->
  if (n_connectors target <? size (n_inputs source))%nat
  then exists msg,
         _copy_inputs source_node target_node w = (Raise (InvalidInput msg), w)
  else exists w',
         _copy_inputs source_node target_node w = (Ok tt, w') /\
         forall slot input,
           n_inputs source !! slot = Some input ->
           exists target',
             w_nodes w' !! target_node = Some target' /\
             n_inputs target' !! slot = Some input.
Proof.
  intros Hs Ht. unfold _copy_inputs, Node_inputConnections, bind, the_node, ret.
  rewrite Hs, Ht. rewrite length_map_to_list.
  destruct (n_connectors target <? size (n_inputs source))%nat.
  - rewrite Hs. by eexists.
  - erewrite for_each_setInput by done. eexists; split; [done|].
    intros slot input Hin. eexists; split.
    + simpl. apply lookup_insert_eq.
    + destruct target; simpl. apply connect_all_lookup.
      * apply NoDup_fst_map_to_list.
      * by apply elem_of_map_to_list.
Qed.
Lemma createNode_Ok (types : category -> string -> option node_type) (i : node_id)
    (name : string) (w : world) (n : node) (t : node_type) :
  w_nodes w !! i = Some n ->
  types (n_category n) name = Some t ->
  createNode types i name w
  = (Ok (fresh (dom (w_nodes w))),
     with_nodes <[fresh (dom (w_nodes w)) :=
       Node (n_category n) name (name +:+ pretty (fresh (dom (w_nodes w)))) (n_parent n)
            (with_keyframes ∅ <$> t_parms t) ∅ (t_connectors t) ∅ None None
            (t_color t) (0, 0) [] ]> w).
Proof.
  intros Hn Ht. unfold createNode, bind, the_node. by rewrite Hn, Ht.
Qed.

Lemma fresh_node_ne (w : world) (i : node_id) (n : node) :
  w_nodes w !! i = Some n -> i <> fresh (dom (w_nodes w)).
Proof.
  intros Hn E. pose proof (is_fresh (dom (w_nodes w))) as Hf.
  rewrite <- E in Hf. apply Hf, elem_of_dom. eauto.
Qed.

Lemma copy_inputs_aborts {B : Type} (i j : node_id) (t : node) (c : nat)
    (rest : unit -> M B) :
  (c < size (n_inputs t))%nat ->
  hoare (fun w => node_has i (fun n => n = t) w /\ node_has j (fun n => n_connectors n = c) w)
        (bind (_copy_inputs i j) rest)
        (fun r w => (exists e, r = Raise e) /\
           node_has i (fun n => n = t) w /\ node_has j (fun n => n_connectors n = c) w).
Proof.
  intros Hc w [(n & Hn & Hnt) (m & Hm & Hmc)]. subst n.
  pose proof (copy_inputs_guard i j w t m Hn Hm) as H.
  destruct (Nat.ltb_spec (n_connectors m) (size (n_inputs t))) as [_|Hge]; [|lia].
  destruct H as [msg H]. rewrite (bind_Raise _ _ _ _ _ H). simpl.
  split; [eauto|]. split; [by exists t | by exists m].
Qed.
Lemma preserves_hoare {A : Type} (I : world -> Prop) (m : M A) :
  preserves I m -> hoare I m (fun _ w => I w).
Proof. intros H w Hw. by apply H. Qed.

Ltac frame_auto :=
  frame;
  first [ frame_side
        | left; congruence
        | right; intros [] ?; simpl in *; congruence ].

Ltac abort_step :=
  apply hoare_bind_preserves; [frame_auto | by eauto | intros ?].

Lemma convert_to_regular_node_aborts (types : category -> string -> option node_type)
    (L : codec_library) (i : node_id) (w : world) (t : node) (nt : node_type) :
  w_nodes w !! i = Some t ->
  n_type t = TK_GEOMETRY_NODE_TYPE ->
  types (n_category t)
        (match n_category t with
         | Sop => HOU_SOP_GEOMETRY_TYPE
         | Rop => HOU_ROP_GEOMETRY_TYPE
         end) = Some nt ->
  (t_connectors nt < size (n_inputs t))%nat ->
  exists e w',
    convert_to_regular_node types L i w = (Raise e, w') /\
    w_nodes w' !! i = Some t.
Proof.
  intros Hi Hty Hnt Hc.
  unfold convert_to_regular_node. cbv zeta.
  rewrite (bind_Ok _ _ w w t) by (unfold the_node; by rewrite Hi).
  set (op := match n_category t with Sop => HOU_SOP_GEOMETRY_TYPE | Rop => HOU_ROP_GEOMETRY_TYPE end) in *.
  assert ((if decide (n_category t = Sop /\ n_type t = TK_GEOMETRY_NODE_TYPE)
           then Some HOU_SOP_GEOMETRY_TYPE
           else if decide (n_category t = Rop /\ n_type t = TK_GEOMETRY_NODE_TYPE)
           then Some HOU_ROP_GEOMETRY_TYPE else None) = Some op) as ->.
  { subst op. destruct (n_category t).
    - by rewrite decide_True.
    - rewrite decide_False by (by intros [? ?]). by rewrite decide_True. }
  erewrite bind_Ok by (by eapply createNode_Ok).
  set (j := fresh (dom (w_nodes w))).
  match goal with |- context [ bind _ _ ?x ] => set (w1 := x) end.
  set (I := fun w => node_has i (fun n => n = t) w /\
                     node_has j (fun n => n_connectors n = t_connectors nt) w).
  assert (i <> j) as Hij by (by eapply fresh_node_ne).
  assert (I w1) as HI.
  { split.
    - exists t. split; [|done]. subst w1. simpl. by rewrite lookup_insert_ne.
    - eexists. split; [subst w1; simpl; apply lookup_insert_eq | done]. }
  match goal with |- context [ ?m w1 ] =>
    assert (hoare I m (fun r w => (exists e, r = Raise e) /\ I w)) as H end.
  { subst I. do 7 abort_step. by apply copy_inputs_aborts. }
  specialize (H w1 HI). destruct H as [[e He] [(n & Hn & ->) _]].
  exists e. eexists. split; [|exact Hn].
  rewrite <- He. apply surjective_pairing.
Qed.


Lemma convert_back_node_aborts (types : category -> string -> option node_type)
    (L : codec_library) (i : node_id) (w : world) (g : node) (nt : node_type)
    (profile_name : string) :
  w_nodes w !! i = Some g ->
  n_user g !! TK_OUTPUT_PROFILE_NAME_KEY = Some profile_name ->
  profile_name <> "" ->
  types (n_category g) TK_GEOMETRY_NODE_TYPE = Some nt ->
  (t_connectors nt < size (n_inputs g))%nat ->
  exists e w',
    convert_back_node types L i w = (Raise e, w') /\
    w_nodes w' !! i = Some g.
Proof.
  intros Hi Hu Hne Hnt Hc.
  unfold convert_back_node. cbv zeta.
  rewrite (bind_Ok _ _ w w g) by (unfold the_node; by rewrite Hi).
  rewrite Hu. destruct profile_name as [|c0 s0]; [done|].
  erewrite bind_Ok by (by eapply createNode_Ok).
  set (j := fresh (dom (w_nodes w))).
  match goal with |- context [ bind _ _ ?x ] => set (w1 := x) end.
  set (I := fun w => node_has i (fun n => n = g) w /\
                     node_has j (fun n => n_connectors n = t_connectors nt) w).
  assert (i <> j) as Hij by (by eapply fresh_node_ne).
  assert (I w1) as HI.
  { split.
    - exists g. split; [|done]. subst w1. simpl. by rewrite lookup_insert_ne.
    - eexists. split; [subst w1; simpl; apply lookup_insert_eq | done]. }
  match goal with |- context [ ?m w1 ] =>
    assert (hoare I m (fun r w => (exists e, r = Raise e) /\ I w)) as H end.
  { subst I. do 2 abort_step. by apply copy_inputs_aborts. }
  specialize (H w1 HI). destruct H as [[e He] [(n & Hn & ->) _]].
  exists e. eexists. split; [|exact Hn].
  rewrite <- He. apply surjective_pairing.
Qed.
(** ** The work file and the output path *)

Lemma get_hipfile_fields_spec (E : env) (w : world) :
  exists w',
    _get_hipfile_fields E w = (Ok (hipfile_fields_of E), w') /\
    w_nodes w' = w_nodes w /\ w_paths w' = w_paths w /\
    w_publishes w' = w_publishes w /\ w_applied w' = w_applied w.
Proof.
  unfold _get_hipfile_fields, hipfile_fields_of, work_file_path_of.
  destruct (isUIAvailable E); [|destruct (NOZ_HIPFILE E) as [[|c s]|]];
    unfold bind, ret, log, modify; simpl;
    destruct (get_template E "work_file_template") as [t|];
    try destruct (tpl_validate t _); eauto 10.
Qed.

Lemma not_a_work_file (E : env) (w : world) :
  (forall t, get_template E "work_file_template" = Some t ->
             tpl_validate t (work_file_path_of E) = false) ->
  exists w',
    _get_hipfile_fields E w = (Ok ∅, w') /\
    w_nodes w' = w_nodes w /\ w_paths w' = w_paths w /\
    w_publishes w' = w_publishes w /\ w_applied w' = w_applied w.
Proof.
  intros H. destruct (get_hipfile_fields_spec E w) as (w' & Hw & Hrest).
  exists w'. split; [|done]. rewrite Hw. unfold hipfile_fields_of.
  destruct (get_template E "work_file_template") as [t|]; [|done].
  by rewrite (H t eq_refl).
Qed.

(** C5, as amended.  When the path the handler takes for the work file does
    not validate against the work file template, [_compute_output_path] and
    [_compute_backup_output_path] raise a [TankError] and return no path; the
    nodes, the disk, the publishes and the templates applied are as before. *)
Theorem compute_output_path_not_a_work_file (E : env) (node : node_id) (w : world) :
  (forall t, get_template E "work_file_template" = Some t ->
             tpl_validate t (work_file_path_of E) = false) ->
  (exists msg w',
     _compute_output_path E node w = (Raise (TankError msg), w') /\
     w_nodes w' = w_nodes w /\ w_paths w' = w_paths w /\
     w_publishes w' = w_publishes w /\ w_applied w' = w_applied w) /\
  (exists msg w',
     _compute_backup_output_path E node w = (Raise (TankError msg), w') /\
     w_nodes w' = w_nodes w /\ w_paths w' = w_paths w /\
     w_publishes w' = w_publishes w /\ w_applied w' = w_applied w).
Proof.
  intros H. destruct (not_a_work_file E w H) as (w' & Hw & Hrest).
  split; eexists _, w'; (split; [|exact Hrest]).
  - unfold _compute_output_path. rewrite (bind_Ok _ _ _ _ _ Hw).
    by rewrite decide_True.
  - unfold _compute_backup_output_path. rewrite (bind_Ok _ _ _ _ _ Hw).
    by rewrite decide_True.
Qed.
Lemma try_except_Raise {A : Type} (m : M A) (catches : exn -> bool)
    (handler : exn -> M A) (w w1 : world) (e : exn) :
  m w = (Raise e, w1) -> catches e = true ->
  try_except m catches handler w = handler e w1.
Proof. unfold try_except. by intros -> ->. Qed.

Lemma try_except_Ok {A : Type} (m : M A) (catches : exn -> bool)
    (handler : exn -> M A) (w w1 : world) (a : A) :
  m w = (Ok a, w1) -> try_except m catches handler w = (Ok a, w1).
Proof. unfold try_except. by intros ->. Qed.

Lemma compute_output_path_keeps (E : env) (i j : node_id) (φ : node -> Prop) :
  (forall n c, φ n -> φ (with_cached_fields c n)) ->
  (forall n c, φ n -> φ (with_cached_path c n)) ->
  preserves (node_has j φ) (_compute_output_path E i).
Proof.
  intros H1 H2. frame; right; auto.
Qed.

(** C9.  When [_compute_output_path] raises a [TankError] for the current
    node: with the user interface the method raises the [NameError] of the
    unbound local variable [path], without it it returns the error menu. *)
Theorem menu_items_path_unbound (E : env) (w w1 : world) (n : node) (p : parm)
    (msg : string) :
  w_nodes w !! pwd E = Some n ->
  n_parms n !! "sopoutput_child" = Some p ->
  _compute_output_path E (pwd E) w = (Raise (TankError msg), w1) ->
  let menu_str :=
    "ERROR: Unable to construct the output path menu items: "
    +:+ n_name n +:+ " - " +:+ msg in
  if isUIAvailable E
  then exists e w',
         get_output_path_menu_items E w = (Raise e, w') /\
         e = UnboundLocalError "path" /\ is_NameError e = true
  else exists w',
         get_output_path_menu_items E w = (Ok [Some menu_str; Some menu_str], w').
Proof.
  intros Hn Hp Hc menu_str.
  assert (node_has (pwd E)
            (fun m => n_name m = n_name n /\ is_Some (n_parms m !! "sopoutput_child")) w1)
    as (m & Hm & Hname & [q Hq]).
  { change w1 with (Raise (TankError msg) : result (option string), w1).2.
    rewrite <- Hc. apply compute_output_path_keeps.
    - by intros [] ? ?.
    - by intros [] ? ?.
    - exists n. rewrite Hp. eauto. }
  unfold get_output_path_menu_items. cbv zeta.
  erewrite bind_Ok.
  2:{ erewrite try_except_Raise; [|by erewrite bind_Raise|done].
      erewrite bind_Ok by (unfold the_node; by rewrite Hm).
      erewrite bind_Ok by reflexivity. reflexivity. }
  simpl. destruct (isUIAvailable E).
  - exists (UnboundLocalError "path"). eexists. split; [|done].
    erewrite bind_Raise; [done|].
    erewrite bind_Ok; [done|].
    unfold the_parm, Node_parm. erewrite bind_Ok.
    2:{ erewrite bind_Ok by (unfold the_node; simpl; by rewrite Hm). reflexivity. }
    simpl. by rewrite Hq.
  - eexists. erewrite bind_Ok by reflexivity. subst menu_str. by rewrite Hname.
Qed.
(** ** Publishing *)

Lemma file_type_name_of_nonempty (cache_type : string) :
  file_type_name_of cache_type <> "".
Proof.
  unfold file_type_name_of.
  repeat (match goal with |- context [if ?b then _ else _] => destruct b end; [done|]).
  unfold title. destruct cache_type; simpl; done.
Qed.

Lemma output_extension_spec (node : node_id) (w : world) :
  output_extension node w
  = (match w_nodes w !! node with
     | None => Raise OperationFailed
     | Some n => extension_of n
     end, w).
Proof.
  unfold output_extension, the_parm, Node_parm, the_node, bind, ret, raise, lift, extension_of.
  destruct (w_nodes w !! node) as [n|]; [|done].
  destruct (n_parms n !! "types") as [p|]; [|done]. simpl.
  destruct (Parm_evalAsInt p); done.
Qed.

Lemma the_node_inv (i : node_id) (w w' : world) (n : node) :
  the_node i w = (Ok n, w') -> w' = w /\ w_nodes w !! i = Some n.
Proof.
  unfold the_node. destruct (w_nodes w !! i); intros [= <- <-]; auto.
Qed.

Lemma lift_inv {A : Type} (r : result A) (w w' : world) (a : A) :
  lift r w = (Ok a, w') -> w' = w /\ r = Ok a.
Proof. unfold lift. by intros [= -> ->]. Qed.

(** What a successful [_compute_output_path] tells about the node. *)
Lemma compute_output_path_Ok_inv (E : env) (node : node_id) (w w1 : world)
    (path : option string) :
  _compute_output_path E node w = (Ok path, w1) ->
  exists n ext name,
    w_nodes w !! node = Some n /\ extension_of n = Ok ext /\ _getNodeName n = Ok name.
Proof.
  unfold _compute_output_path. intros H.
  apply bind_Ok_inv in H as (wff & w0 & H0 & H).
  destruct (get_hipfile_fields_spec E w) as (w0' & H0' & Hn & _).
  rewrite H0' in H0. injection H0 as _ <-.
  case_decide; [discriminate|].
  apply bind_Ok_inv in H as (ext & w2 & Hext & H).
  rewrite output_extension_spec in Hext. injection Hext as Hext <-.
  apply bind_Ok_inv in H as (n & w3 & Hnode & H).
  apply the_node_inv in Hnode as [-> Hnode].
  apply bind_Ok_inv in H as (name & w4 & Hname & H).
  apply lift_inv in Hname as [-> Hname].
  rewrite Hnode in Hext. rewrite Hn in Hnode. eauto 10.
Qed.
Lemma not_in_drop_snoc {A : Type} (x y : A) (k : nat) (l : list A) :
  x ∉ drop k l -> x <> y -> x ∉ drop k (l ++ [y]).
Proof.
  intros Hl Hy. rewrite drop_app. intros [H|H]%elem_of_app; [done|].
  apply subseteq_drop, list_elem_of_singleton in H. done.
Qed.

Lemma register_after_backup (E : env) (node : node_id) (cache_path : option string)
    (version : Z) (backup : publish) (backup_path : string) (P0 : list publish)
    (ext name : string) (w : world) :
  w_publishes w = (P0 ++ [backup])%list ->
  node_has node (fun m => extension_of m = Ok ext /\ _getNodeName m = Ok name) w ->
  exists w',
    (cache_type <- output_extension node ;;
     match file_type_name_of cache_type with
     | String _ _ =>
         n <- the_node node ;;
         node_name <- lift (_getNodeName n) ;;
         register_publish
           (Publish cache_path node_name (file_type_name_of cache_type) version
                    [backup_path])
     | EmptyString =>
         log LogError "Could not find the cache_type in auto_publish function!"
     end) w = (Ok tt, w') /\
    w_publishes w'
    = (P0 ++ [backup;
              Publish cache_path name (file_type_name_of ext) version
                      [backup_path]])%list /\
    w_log w' = w_log w.
Proof.
  intros HP (m & Hm & Hext & Hname).
  erewrite bind_Ok by (rewrite output_extension_spec, Hm, Hext; reflexivity).
  pose proof (file_type_name_of_nonempty ext) as Hne.
  destruct (file_type_name_of ext) as [|c s] eqn:Hft; [done|].
  erewrite bind_Ok by (unfold the_node; rewrite Hm; reflexivity).
  erewrite bind_Ok by (unfold lift; rewrite Hname; reflexivity).
  eexists. split; [reflexivity|]. simpl. rewrite HP.
  split; [|done]. by rewrite <- app_assoc.
Qed.

(** C10.  The published file type of a cache is never empty, whatever the
    extension, so the branch that reports a missing cache type is never
    taken; and when the cache path has no publish yet, [auto_publish] either
    raises before it registers anything, or registers the backup file and,
    after it, the cache, and nothing else. *)
Theorem auto_publish_backup_then_cache (E : env) (node : node_id) (w w1 : world)
    (cache_path : option string) :
  _compute_output_path E node w = (Ok cache_path, w1) ->
  find_publish E cache_path = [] ->
  (forall cache_type, file_type_name_of cache_type <> "") /\
  exists r w',
    auto_publish E node w = (r, w') /\
    ((exists e, r = Raise e /\ w_publishes w' = w_publishes w) \/
     (exists backup cache backup_path,
        r = Ok tt /\
        w_publishes w' = (w_publishes w ++ [backup; cache])%list /\
        pub_type backup = "Backup File" /\
        pub_path backup = Some backup_path /\
        pub_path cache = cache_path /\
        pub_dependencies cache = [backup_path] /\
        pub_type cache <> "" /\
        (LogError, "Could not find the cache_type in auto_publish function!")
          ∉ drop (length (w_log w1)) (w_log w'))).
Proof.
  intros Hc Hfind. split; [apply file_type_name_of_nonempty|].
  destruct (compute_output_path_Ok_inv _ _ _ _ _ Hc) as (n & ext & name & Hn & Hext & Hname).
  set (φ := fun m => extension_of m = Ok ext /\ _getNodeName m = Ok name).
  assert (node_has node φ w1 /\ w_publishes w1 = w_publishes w) as [Hφ HP].
  { change w1 with (Ok cache_path, w1).2. rewrite <- Hc.
    apply (preserves_and (node_has node φ) (fun w' => w_publishes w' = w_publishes w)).
    - apply compute_output_path_keeps; by intros [] ? ?.
    - frame.
    - split; [by exists n | done]. }
  unfold auto_publish. rewrite (bind_Ok _ _ _ _ _ Hc), Hfind.
  set (MSG := (LogError, "Could not find the cache_type in auto_publish function!")).
  set (I := fun w' => (w_publishes w' = w_publishes w /\ node_has node φ w') /\
                      MSG ∉ drop (length (w_log w1)) (w_log w')).
  assert (I w1) as HI.
  { split; [done|]. rewrite drop_all. apply not_elem_of_nil. }
  match goal with |- exists r w', ?prog w1 = _ /\ @?Q r w' =>
    cut (hoare I prog Q);
    [ intros Hh; exists (prog w1).1, (prog w1).2; split;
      [apply surjective_pairing | apply (Hh w1 HI)] | ]
  end.
  subst I.
  do 5 (apply hoare_bind_preserves;
    [ frame; try (by intros [] ? ?);
      try (intros ? ?; simpl; apply not_in_drop_snoc; [done|discriminate])
    | intros ? ? [[? ?] ?]; left; eauto
    | intros ? ]).
  intros w2 [[HP2 Hφ2] Hlog2].
  set (backup := Publish (Some a1) a3 "Backup File" a0 a).
  erewrite bind_Ok by reflexivity.
  destruct (register_after_backup E node cache_path a0 backup a1 (w_publishes w)
              ext name (with_publishes (fun l => (l ++ [backup])%list) w2))
    as (w' & Hw' & HP' & Hlog').
  { simpl. by rewrite HP2. }
  { exact Hφ2. }
  rewrite Hw'. simpl. right. eexists backup, _, a1.
  split; [done|]. split; [exact HP'|]. simpl.
  repeat split; try done.
  - apply file_type_name_of_nonempty.
  - by rewrite Hlog'.
Qed.
(** ** The cache of the output path *)

Lemma parm_evalAsInt_ver_spec (node : node_id) (w : world) :
  parm_evalAsInt node "ver" w
  = (match w_nodes w !! node with
     | None => Raise OperationFailed
     | Some n => version_of n
     end, w).
Proof.
  unfold parm_evalAsInt, the_parm, Node_parm, the_node, bind, ret, raise, lift, version_of.
  destruct (w_nodes w !! node) as [n|]; [|done].
  by destruct (n_parms n !! "ver") as [p|].
Qed.

Lemma get_output_profile_spec (E : env) (node : node_id) (w : world) :
  _get_output_profile E node w
  = (match w_nodes w !! node with
     | None => Raise OperationFailed
     | Some n => profile_of E n
     end, w).
Proof.
  unfold _get_output_profile, the_parm, Node_parm, the_node, bind, ret, raise, lift,
    profile_of.
  destruct (w_nodes w !! node) as [n|]; [|done].
  destruct (n_parms n !! TK_OUTPUT_PROFILE_PARM) as [p|]; [|done]. simpl.
  destruct (subscript _ _) as [name|]; [|done]. simpl.
  by destruct (output_profiles E !! name).
Qed.

Lemma result_bind_Ok_inv {A B : Type} (r : result A) (k : A -> result B) (b : B) :
  result_bind r k = Ok b -> exists a, r = Ok a /\ k a = Ok b.
Proof. destruct r; simpl; [eauto | discriminate]. Qed.

Lemma compute_output_path_fields (E : env) (i : node_id) (w : world) (n : node)
    (F : fields) (pr : profile) :
  w_nodes w !! i = Some n ->
  hipfile_fields_of E <> ∅ ->
  computed_fields E n = Ok F ->
  profile_of E n = Ok pr ->
  exists w0,
    w_nodes w0 = w_nodes w /\ w_applied w0 = w_applied w /\
    _compute_output_path E i w
    = (if decide (n_cached_fields n <> Some F)
       then
         update_node i (with_cached_fields (Some F)) ;;
         path <- resolve E (pr_output_cache_template pr) F ;;
         update_node i (with_cached_path (Some path)) ;;
         ret (Some path)
       else ret (n_cached_path n)) w0.
Proof.
  intros Hn Hwff HF Hpr.
  destruct (get_hipfile_fields_spec E w) as (w0 & H0 & Hnodes & _ & _ & Happlied).
  exists w0. split; [done|]. split; [done|].
  unfold computed_fields in HF.
  apply result_bind_Ok_inv in HF as (ext & Hext & HF).
  apply result_bind_Ok_inv in HF as (name & Hname & HF).
  apply result_bind_Ok_inv in HF as (version & Hver & HF).
  apply result_bind_Ok_inv in HF as (pr' & Hpr' & HF).
  rewrite Hpr in Hpr'. injection Hpr' as <-. injection HF as <-.
  unfold _compute_output_path. rewrite (bind_Ok _ _ _ _ _ H0).
  rewrite decide_False by done.
  rewrite <- Hnodes in Hn.
  erewrite bind_Ok by (rewrite output_extension_spec, Hn, Hext; reflexivity).
  erewrite bind_Ok by (unfold the_node; rewrite Hn; reflexivity).
  erewrite bind_Ok by (unfold lift; rewrite Hname; reflexivity).
  erewrite bind_Ok by (rewrite parm_evalAsInt_ver_spec, Hn, Hver; reflexivity).
  erewrite bind_Ok by (rewrite get_output_profile_spec, Hn, Hpr; reflexivity).
  erewrite bind_Ok by (unfold the_node; rewrite Hn; reflexivity).
  reflexivity.
Qed.
Lemma resolve_spec (E : env) (name : string) (t : template) (F : fields) (w : world) :
  get_template_by_name E name = Some t ->
  resolve E name F w
  = (match tpl_apply_fields t (as_template_fields E t ∪ F) with
     | Ok path => Ok (replace (os_sep E) "/" path)
     | Raise e => Raise e
     end,
     with_applied (fun l => (l ++ [(name, as_template_fields E t ∪ F)])%list) w).
Proof.
  intros Ht. unfold resolve, apply_fields, bind, modify, lift, ret. rewrite Ht.
  by destruct (tpl_apply_fields t _).
Qed.

Lemma computed_fields_profile (E : env) (n : node) (F : fields) :
  computed_fields E n = Ok F -> exists pr, profile_of E n = Ok pr.
Proof.
  unfold computed_fields. intros HF.
  apply result_bind_Ok_inv in HF as (ext & Hext & HF).
  apply result_bind_Ok_inv in HF as (name & Hname & HF).
  apply result_bind_Ok_inv in HF as (version & Hver & HF).
  apply result_bind_Ok_inv in HF as (pr' & Hpr' & HF). eauto.
Qed.

Lemma compute_output_path_work_file (E : env) (i : node_id) (w w1 : world)
    (p : option string) :
  _compute_output_path E i w = (Ok p, w1) -> hipfile_fields_of E <> ∅.
Proof.
  intros H Hwff. unfold _compute_output_path in H.
  destruct (get_hipfile_fields_spec E w) as (w0 & H0 & _).
  rewrite (bind_Ok _ _ _ _ _ H0), Hwff in H. by rewrite decide_True in H.
Qed.

(** After a call that returns, the cache of the node holds the fields that
    were computed and the path that was returned. *)
Lemma compute_output_path_caches (E : env) (i : node_id) (w w1 : world) (n : node)
    (F : fields) (p : option string) :
  w_nodes w !! i = Some n ->
  computed_fields E n = Ok F ->
  _compute_output_path E i w = (Ok p, w1) ->
  exists n1,
    w_nodes w1 !! i = Some n1 /\ n_cached_fields n1 = Some F /\ n_cached_path n1 = p.
Proof.
  intros Hn HF Hc.
  pose proof (compute_output_path_work_file _ _ _ _ _ Hc) as Hwff.
  destruct (computed_fields_profile _ _ _ HF) as [pr Hpr].
  destruct (compute_output_path_fields E i w n F pr Hn Hwff HF Hpr)
    as (w0 & Hnodes & _ & Hrun).
  rewrite Hrun in Hc. clear Hrun. rewrite <- Hnodes in Hn.
  case_decide as Hcached.
  - apply bind_Ok_inv in Hc as ([] & wa & Ha & Hc).
    apply bind_Ok_inv in Hc as (path & wb & Hb & Hc).
    apply bind_Ok_inv in Hc as ([] & wc & Hc' & Hc).
    injection Ha as <-. injection Hc' as <-. injection Hc as <- <-.
    assert (w_nodes wb = w_nodes (with_nodes (alter (with_cached_fields (Some F)) i) w0))
      as Hwb.
    { unfold resolve in Hb. destruct (get_template_by_name E _); [|discriminate].
      apply bind_Ok_inv in Hb as (path' & wb' & Hb' & Hb). injection Hb as _ <-.
      unfold apply_fields in Hb'. apply bind_Ok_inv in Hb' as ([] & wm & Hm & Hb').
      injection Hm as <-. apply lift_inv in Hb' as [-> _]. done. }
    exists (with_cached_path (Some path) (with_cached_fields (Some F) n)).
    simpl. rewrite Hwb. simpl. rewrite !lookup_alter_eq, Hn. done.
  - injection Hc as <- <-. exists n. split; [done|]. split; [|done].
    by destruct (decide (n_cached_fields n = Some F)).
Qed.
(** C3.  After a call of [_compute_output_path] that returned, a second call
    on a node whose cache was not touched, for which the fields dictionary
    comes out the same, returns the cached path and applies no template; if
    the dictionary comes out different in any field, the cached fields are
    replaced and the template is applied to the new fields. *)
Theorem compute_output_path_memoized (E1 E2 : env) (i : node_id) (w w1 w2 : world)
    (n n1 n2 : node) (F1 F2 : fields) (p1 : option string) (pr2 : profile)
    (t2 : template) :
  (* the first call *)
  w_nodes w !! i = Some n ->
  computed_fields E1 n = Ok F1 ->
  _compute_output_path E1 i w = (Ok p1, w1) ->
  w_nodes w1 !! i = Some n1 ->
  (* the second call, on the cache the first one left *)
  w_nodes w2 !! i = Some n2 ->
  n_cached_fields n2 = n_cached_fields n1 ->
  n_cached_path n2 = n_cached_path n1 ->
  hipfile_fields_of E2 <> ∅ ->
  computed_fields E2 n2 = Ok F2 ->
  profile_of E2 n2 = Ok pr2 ->
  get_template_by_name E2 (pr_output_cache_template pr2) = Some t2 ->
  exists r w2',
    _compute_output_path E2 i w2 = (r, w2') /\
    if decide (F2 = F1)
    then r = Ok p1 /\ w_applied w2' = w_applied w2 /\ w_nodes w2' = w_nodes w2
    else
      let fields' := as_template_fields E2 t2 ∪ F2 in
      w_applied w2' = (w_applied w2 ++ [(pr_output_cache_template pr2, fields')])%list /\
      exists n2',
        w_nodes w2' !! i = Some n2' /\ n_cached_fields n2' = Some F2 /\
        match tpl_apply_fields t2 fields' with
        | Ok path =>
            r = Ok (Some (replace (os_sep E2) "/" path)) /\
            n_cached_path n2' = Some (replace (os_sep E2) "/" path)
        | Raise e => r = Raise e
        end.
Proof.
  intros Hn HF1 Hc1 Hn1 Hn2 Hcf Hcp Hwff HF2 Hpr2 Ht2.
  destruct (compute_output_path_caches _ _ _ _ _ _ _ Hn HF1 Hc1) as (n1' & Hn1' & Hf1 & Hp1).
  rewrite Hn1 in Hn1'. injection Hn1' as <-.
  rewrite Hf1 in Hcf. rewrite Hp1 in Hcp.
  destruct (compute_output_path_fields E2 i w2 n2 F2 pr2 Hn2 Hwff HF2 Hpr2)
    as (w0 & Hnodes & Happlied & Hrun).
  rewrite Hrun. clear Hrun. rewrite Hcf.
  destruct (decide (F2 = F1)) as [->|Hne].
  - rewrite decide_False by (by intros ?). exists (Ok p1), w0.
    rewrite Hcp. done.
  - rewrite decide_True by congruence.
    erewrite bind_Ok by reflexivity.
    rewrite <- Hnodes in Hn2.
    destruct (tpl_apply_fields t2 (as_template_fields E2 t2 ∪ F2)) as [path|e] eqn:Happly.
    + erewrite bind_Ok by (erewrite resolve_spec by done; rewrite Happly; reflexivity).
      erewrite bind_Ok by reflexivity.
      eexists _, _. split; [reflexivity|]. cbv zeta. simpl.
      rewrite Happlied. split; [done|].
      eexists. rewrite !lookup_alter_eq, Hn2. simpl. split; [done|].
      rewrite Happly. done.
    + erewrite bind_Raise by (erewrite resolve_spec by done; rewrite Happly; reflexivity).
      eexists _, _. split; [reflexivity|]. cbv zeta. simpl.
      rewrite Happlied. split; [done|].
      eexists. rewrite !lookup_alter_eq, Hn2. simpl. split; [done|].
      rewrite Happly. done.
Qed.
(** ** Versions *)

Lemma highest_version_spec (t : template) (caches : list string) (vs : list Z) (m : Z) :
  Forall2 (fun c v => tpl_get_fields t c !! "version" = Some (FInt v)) caches vs ->
  highest_version t caches m = Ok (foldl Z.max m vs).
Proof.
  intros H. revert m. induction H as [|c v caches vs Hc _ IH]; intros m; simpl; [done|].
  rewrite Hc, IH. do 2 f_equal.
  destruct (Z.ltb_spec m v); lia.
Qed.

Lemma foldl_max_foldr (vs : list Z) (m k : Z) :
  k <= m -> foldl Z.max m vs = Z.max m (foldr Z.max k vs).
Proof.
  revert m. induction vs as [|v vs IH]; intros m Hk; simpl; [lia|].
  rewrite IH by lia. lia.
Qed.

Lemma foldr_max_bound (vs : list Z) :
  (forall v, v ∈ vs -> v <= foldr Z.max 0 vs) /\
  0 <= foldr Z.max 0 vs /\
  (vs <> [] -> Forall (fun v => 0 <= v) vs -> foldr Z.max 0 vs ∈ vs).
Proof.
  induction vs as [|x vs (IH1 & IH2 & IH3)]; simpl.
  - split; [by intros ? ?%elem_of_nil|]. done.
  - split; [|split; [lia|]].
    + intros v [->|Hv]%elem_of_cons; [lia|]. specialize (IH1 v Hv). lia.
    + intros _ [Hx Hvs]%Forall_cons.
      destruct (Z.max_spec x (foldr Z.max 0 vs)) as [[Hlt ->]|[_ ->]]; [|by left].
      destruct vs as [|y vs]; [simpl in *; lia|].
      right. by apply IH3.
Qed.
Lemma parm_set_Ok (i : node_id) (name : string) (v : value) (w : world) (n : node)
    (p : parm) :
  w_nodes w !! i = Some n ->
  n_parms n !! name = Some p ->
  parm_accepts (p_template p) v = true ->
  parm_set i name v w
  = (Ok tt, with_nodes <[i := with_parms <[name := with_value v p]> n]> w).
Proof.
  intros Hn Hp Hacc.
  unfold parm_set, the_parm, Node_parm, the_node, bind, ret, lift, Parm_set,
    update_node, modify.
  rewrite Hn. simpl. rewrite Hp, Hacc. destruct w; unfold with_nodes; simpl in *.
  do 2 f_equal. apply map_eq. intros k. rewrite lookup_alter, lookup_insert.
  case_decide; [subst; by rewrite Hn | done].
Qed.

(** C4.  [auto_version] sets the parameter [ver] to one more than the highest
    version found among the cache paths of the template (to 1 when there is
    none), and then, when the output path is computed, creates its directory
    unless it exists. *)
Theorem auto_version_next (E : env) (i : node_id) (w : world) (n : node)
    (pr : profile) (t : template) (ext name : string) (pv : parm) (vs : list Z) :
  w_nodes w !! i = Some n ->
  profile_of E n = Ok pr ->
  get_template_by_name E (pr_output_cache_template pr) = Some t ->
  extension_of n = Ok ext ->
  _getNodeName n = Ok name ->
  n_parms n !! "ver" = Some pv ->
  p_template pv = IntParmTemplate ->
  Forall2 (fun c v => tpl_get_fields t c !! "version" = Some (FInt v))
          (abstract_paths_from_template E t
             (as_template_fields E t ∪ scan_fields (hipfile_fields_of E) name ext))
          vs ->
  Forall (fun v => 0 <= v) vs ->
  let next := 1 + foldr Z.max 0 vs in
  ((vs = [] -> next = 1) /\ (vs <> [] -> next - 1 ∈ vs) /\ (forall v, v ∈ vs -> v < next)) /\
  let w_mid :=
    with_nodes <[i := with_parms <["ver" := with_value (VInt next) pv]> n]>
               (_get_hipfile_fields E w).2 in
  exists r w',
    auto_version E i w = (r, w') /\
    (exists n', w_nodes w' !! i = Some n' /\
                n_parms n' !! "ver" = Some (with_value (VInt next) pv)) /\
    match _compute_output_path E i w_mid with
    | (Ok path, w3) =>
        r = Ok tt /\ w_nodes w' = w_nodes w3 /\
        w_paths w' = match path with
                     | Some (String c s) => {[dirname (String c s)]} ∪ w_paths w
                     | _ => w_paths w
                     end
    | (Raise e, w3) => r = Raise e /\ w' = w3
    end.
Proof.
  intros Hn Hpr Ht Hext Hname Hpv Hint Hvs Hpos next.
  split.
  { destruct (foldr_max_bound vs) as (Hb1 & Hb2 & Hb3). subst next.
    split; [by intros ->|]. split.
    - intros Hne. replace (1 + foldr Z.max 0 vs - 1) with (foldr Z.max 0 vs) by lia. auto.
    - intros v Hv. specialize (Hb1 v Hv). lia. }
  destruct (get_hipfile_fields_spec E w) as (w0 & H0 & Hnodes & Hpaths & _).
  rewrite <- Hnodes in Hn.
  replace (_get_hipfile_fields E w).2 with w0 by (by rewrite H0).
  set (w_mid := with_nodes <[i := with_parms <["ver" := with_value (VInt next) pv]> n]> w0).
  cbv zeta.
  assert (auto_version E i w =
    (path <- _compute_output_path E i ;;
      match path with
      | None | Some EmptyString => ret tt
      | Some path =>
          let dir_path := dirname path in
          exists_ <- os_path_exists dir_path ;;
          if exists_ then ret tt else os_makedirs dir_path
      end) w_mid) as ->.
  { unfold auto_version. rewrite (bind_Ok _ _ _ _ _ H0).
    erewrite bind_Ok by (rewrite get_output_profile_spec, Hn, Hpr; reflexivity).
    erewrite bind_Ok by (rewrite output_extension_spec, Hn, Hext; reflexivity).
    erewrite bind_Ok by (unfold the_node; rewrite Hn; reflexivity).
    erewrite bind_Ok by (unfold lift; rewrite Hname; reflexivity).
    cbv zeta. rewrite Ht.
    erewrite bind_Ok
      by (unfold lift; erewrite highest_version_spec by exact Hvs; reflexivity).
    rewrite (foldl_max_foldr vs 0 0) by lia.
    replace (Z.max 0 (foldr Z.max 0 vs) + 1) with next
      by (destruct (foldr_max_bound vs) as (_ & ? & _); subst next; lia).
    erewrite bind_Ok by (by apply (parm_set_Ok i "ver" _ w0 n pv); rewrite ?Hint).
    reflexivity. }
  assert (node_has i (fun m => n_parms m !! "ver" = Some (with_value (VInt next) pv)) w_mid)
    as Hver.
  { eexists. split; [apply lookup_insert_eq|]. simpl. apply lookup_insert_eq. }
  destruct (_compute_output_path E i w_mid) as [[path|e] w3] eqn:Hc.
  - assert (node_has i (fun m => n_parms m !! "ver" = Some (with_value (VInt next) pv)) w3
            /\ w_paths w3 = w_paths w) as [Hver3 Hpaths3].
    { change w3 with (Ok path, w3).2. rewrite <- Hc.
      apply (preserves_and (node_has i _) (fun w' => w_paths w' = w_paths w)).
      - apply compute_output_path_keeps; by intros [] ? ?.
      - frame.
      - split; [done|]. simpl. done. }
    rewrite (bind_Ok _ _ _ _ _ Hc).
    destruct path as [[|c s]|].
    + exists (Ok tt), w3. done.
    + cbv zeta. unfold bind, os_path_exists, os_makedirs, modify, ret.
      case_bool_decide as Hex.
      * exists (Ok tt), w3. repeat split; try done. rewrite Hpaths3 in *.
        symmetry. apply subseteq_union_1_L. by apply singleton_subseteq_l.
      * eexists (Ok tt), _. repeat split; try done. simpl. by rewrite Hpaths3.
    + exists (Ok tt), w3. done.
  - rewrite (bind_Raise _ _ _ _ _ Hc).
    exists (Raise e), w3. repeat split; try done.
    change w3 with (Raise e : result (option string), w3).2. rewrite <- Hc.
    apply compute_output_path_keeps; try (by intros [] ? ?). done.
Qed.

(** ** The status of the cache *)

(** The label of a sequence: its explicit range when no frame is missing,
    else its bounds and the ranges of the missing frames. *)
Lemma cache_status_one_sequence (E : env) (path : string) (seq : sequence) (w : world) :
  contains "$F4" path = true ->
  get_sequences E (replace "$F4" "*" path) = [seq] ->
  (0 < seq_length seq)%nat ->
  cache_status E path w
  = (Ok (match seq_missing seq with
         | [] => seq_format seq "%R"
         | _ :: _ =>
             "[" +:+ seq_format seq "%s" +:+ "-" +:+ seq_format seq "%e"
             +:+ "], missing " +:+ seq_format seq "%M"
         end, red), w).
Proof.
  intros HF Hseq Hlen. unfold cache_status. rewrite HF, Hseq.
  destruct (Nat.ltb_spec 0 (seq_length seq)); [|lia].
  by destruct (seq_missing seq).
Qed.

Lemma for_each_skip {A : Type} (l : list A) (body : A -> M unit) (w : world) :
  (forall x, x ∈ l -> body x w = (Ok tt, w)) ->
  for_each l body w = (Ok tt, w).
Proof.
  induction l as [|x l IH]; intros H; simpl; [done|].
  rewrite (bind_Ok _ _ _ _ _ (H x ltac:(by left))).
  apply IH. intros y Hy. apply H. by right.
Qed.

(** C8.  For an output path with the frame placeholder and exactly one
    sequence on disk, [check_seq] labels the node with the full range of the
    sequence when no frame is missing and with the ranges of the missing
    frames otherwise, and colours it red in both cases, never green. *)
Theorem check_seq_one_sequence (E : env) (i : node_id) (w w1 : world) (path : string)
    (seq : sequence) (n1 : node) (p : parm) :
  _compute_output_path E i w = (Ok (Some path), w1) ->
  contains "$F4" path = true ->
  get_sequences E (replace "$F4" "*" path) = [seq] ->
  (0 < seq_length seq)%nat ->
  w_nodes w1 !! i = Some n1 ->
  (forall d, d ∈ n_dependents n1 ->
     exists f, w_nodes w1 !! d = Some f /\ n_type f <> "sgtk_file") ->
  n_parms n1 !! "seqlabel" = Some p ->
  p_template p = StringParmTemplate ->
  let label :=
    match seq_missing seq with
    | [] => seq_format seq "%R"
    | _ :: _ =>
        "[" +:+ seq_format seq "%s" +:+ "-" +:+ seq_format seq "%e"
        +:+ "], missing " +:+ seq_format seq "%M"
    end in
  exists w' n',
    check_seq E i w = (Ok tt, w') /\
    w_nodes w' !! i = Some n' /\
    n_color n' = red /\ n_color n' <> green /\
    n_parms n' !! "seqlabel" = Some (with_value (VStr label) p).
Proof.
  intros Hc HF Hseq Hlen Hn1 Hdeps Hp Hstr label.
  unfold check_seq. rewrite (bind_Ok _ _ _ _ _ Hc).
  erewrite bind_Ok by (by apply cache_status_one_sequence).
  fold label. cbv zeta. simpl.
  erewrite bind_Ok by (unfold the_node; rewrite Hn1; reflexivity).
  erewrite bind_Ok.
  2:{ apply for_each_skip. intros d Hd. destruct (Hdeps d Hd) as (f & Hf & Hty).
      erewrite bind_Ok by (unfold the_node; rewrite Hf; reflexivity).
      apply String.eqb_neq in Hty. by rewrite Hty. }
  erewrite bind_Ok.
  2:{ unfold Node_setColor. erewrite bind_Ok by (unfold the_node; rewrite Hn1; reflexivity).
      reflexivity. }
  erewrite (parm_set_Ok i "seqlabel" _ _ (with_color red n1) p).
  - eexists _, _. split; [reflexivity|]. simpl. rewrite lookup_insert_eq.
    split; [reflexivity|]. simpl. rewrite lookup_insert_eq. done.
  - simpl. by rewrite lookup_alter_eq, Hn1.
  - done.
  - by rewrite Hstr.
Qed.
(** ** Output connections saved in the user data *)


Lemma substring_all (s : string) : String.substring 0 (String.length s) s = s.
Proof. induction s as [|c s IH]; simpl; [done | by rewrite IH]. Qed.










(** ** The end of a conversion *)

(** The steps that end both conversions: the new node [j] takes the colour,
    the name and the position of the original node [i], which is destroyed. *)
Lemma conversion_ends (i j : node_id) (w : world) (m k : node) (msg : node -> string) :
  i <> j ->
  w_nodes w !! i = Some m ->
  w_nodes w !! j = Some k ->
  exists w',
    (g' <- the_node i ;;
     Node_setColor j (n_color g') ;;
     Node_destroy i ;;
     Node_setName j (n_name g') ;;
     Node_setPosition j (n_position g') ;;
     log LogDebug (msg g')) w = (Ok tt, w') /\
    w_nodes w' !! i = None /\
    w_nodes w' !! j
    = Some (with_position (n_position m) (with_name (n_name m)
              (with_inputs (filter (fun c => c.2 <> i)) (with_color (n_color m) k)))) /\
    w_log w' = (w_log w ++ [(LogDebug, msg m)])%list.
Proof.
  intros Hij Hi Hj.
  erewrite bind_Ok by (unfold the_node; rewrite Hi; reflexivity).
  unfold Node_setColor.
  erewrite bind_Ok.
  2:{ erewrite bind_Ok by (unfold the_node; rewrite Hj; reflexivity). reflexivity. }
  unfold Node_destroy.
  erewrite bind_Ok.
  2:{ erewrite bind_Ok
        by (unfold the_node; simpl; rewrite lookup_alter_ne by done; rewrite Hi; reflexivity).
      reflexivity. }
  unfold Node_setName.
  erewrite bind_Ok.
  2:{ erewrite bind_Ok.
      2:{ unfold the_node; simpl.
          rewrite lookup_fmap, lookup_delete_ne, lookup_alter_eq, Hj by done.
          reflexivity. }
      reflexivity. }
  unfold Node_setPosition.
  erewrite bind_Ok.
  2:{ erewrite bind_Ok.
      2:{ unfold the_node; simpl.
          rewrite lookup_alter_eq, lookup_fmap, lookup_delete_ne, lookup_alter_eq, Hj by done.
          reflexivity. }
      reflexivity. }
  eexists. split; [reflexivity|]. simpl.
  split; [|split; [|done]].
  - rewrite !lookup_alter_ne, lookup_fmap, lookup_delete_eq by done. done.
  - rewrite !lookup_alter_eq, lookup_fmap, lookup_delete_ne, lookup_alter_eq, Hj by done.
    done.
Qed.
(** ** Conversion back to a Toolkit node *)


(** ** Parameter values *)








Lemma parm_set_Raise (i : node_id) (name : string) (v : value) (w : world) (n : node)
    (p : parm) :
  w_nodes w !! i = Some n ->
  n_parms n !! name = Some p ->
  parm_accepts (p_template p) v = false ->
  parm_set i name v w = (Raise TypeError, w).
Proof.
  intros Hn Hp Hacc.
  unfold parm_set, the_parm, Node_parm, the_node, bind, ret, lift, Parm_set.
  rewrite Hn. simpl. by rewrite Hp, Hacc.
Qed.




Lemma copy_parm_other (source target : node_id) (name name0 : string) (s : node)
    (X : option parm) :
  source <> target ->
  name <> name0 ->
  preserves (fun w => node_has source (fun m => m = s) w /\
                      node_has target (fun m => n_parms m !! name0 = X) w)
            (copy_parm source target name).
Proof.
  intros Hne Hname. frame;
    first [ left; congruence
          | right; intros [] ?; simpl in *;
            rewrite ?lookup_insert_ne, ?lookup_alter_ne by done; done ].
Qed.
Lemma preserves_for_each_in {A : Type} (I : world -> Prop) (l : list A)
    (body : A -> M unit) :
  (forall x, x ∈ l -> preserves I (body x)) -> preserves I (for_each l body).
Proof.
  induction l as [|x l IH]; intros Hb; simpl.
  - apply preserves_ret.
  - apply preserves_bind; [apply Hb; by left | intros _].
    apply IH. intros y Hy. apply Hb. by right.
Qed.



(** The parameters the copy skips keep what the target had: the excluded
    ones, the folders, and those the source does not have. *)
Lemma copy_parm_values_skips (source target : node_id) (excludes : list string)
    (name0 : string) (s : node) (X : option parm) :
  source <> target ->
  (name0 ∈ excludes \/
   (exists sp, n_parms s !! name0 = Some sp /\ p_template sp = FolderSetParmTemplate) \/
   n_parms s !! name0 = None) ->
  preserves (fun w => node_has source (fun m => m = s) w /\
                      node_has target (fun m => n_parms m !! name0 = X) w)
            (_copy_parm_values source target excludes).
Proof.
  intros Hne Hskip w [(s' & Hs & ->) Ht].
  unfold _copy_parm_values.
  erewrite bind_Ok by (unfold the_node; rewrite Hs; reflexivity).
  cbv zeta. apply preserves_for_each_in; [|split; [by exists s | done]].
  intros name [Hname Hin]%list_elem_of_filter.
  destruct (decide (name = name0)) as [->|Hn0]; [|by apply copy_parm_other].
  apply list_elem_of_fmap in Hin as ([name' sp] & -> & Hin).
  apply elem_of_map_to_list in Hin. simpl in *.
  destruct Hskip as [?|[(sp' & Hsp' & Hf)|Hnone]]; [done| |congruence].
  rewrite Hin in Hsp'. injection Hsp' as <-.
  intros w' [(s' & Hs' & ->) Ht'].
  unfold copy_parm.
  erewrite bind_Ok.
  2:{ unfold the_parm, Node_parm.
      erewrite bind_Ok.
      2:{ erewrite bind_Ok by (unfold the_node; rewrite Hs'; reflexivity). reflexivity. }
      simpl. rewrite Hin. reflexivity. }
  cbv zeta. rewrite decide_True by done. simpl. split; [by exists s | done].
Qed.

Lemma preserves_elim {A : Type} (I : world -> Prop) (m : M A) (w w' : world)
    (r : result A) :
  preserves I m -> I w -> m w = (r, w') -> I w'.
Proof. intros H HI E. specialize (H w HI). by rewrite E in H. Qed.

Lemma the_parm_inv (i : node_id) (name : string) (w w' : world) (p : parm) :
  the_parm i name w = (Ok p, w') ->
  w' = w /\ exists n, w_nodes w !! i = Some n /\ n_parms n !! name = Some p.
Proof.
  unfold the_parm, Node_parm, the_node, bind, ret, raise.
  destruct (w_nodes w !! i) as [n|]; [|discriminate].
  destruct (n_parms n !! name) as [q|] eqn:Hq; [|discriminate].
  intros [= <- <-]. eauto.
Qed.

Ltac parm_side :=
  cbv [TK_OUTPUT_CONNECTIONS_KEY TK_OUTPUT_PROFILE_NAME_KEY NODE_OUTPUT_PATH_PARM
       TK_OUTPUT_PROFILE_PARM] in *;
  first [ left; congruence
        | right; intros [] ?; simpl in *;
          rewrite ?lookup_insert_ne, ?lookup_alter_ne by congruence; done
        | right; intros [] ?; simpl in *; intuition congruence ].

(** The regular operator of a category. *)
Lemma regular_operator (t : node) :
  n_type t = TK_GEOMETRY_NODE_TYPE ->
  (if decide (n_category t = Sop /\ n_type t = TK_GEOMETRY_NODE_TYPE)
   then Some HOU_SOP_GEOMETRY_TYPE
   else if decide (n_category t = Rop /\ n_type t = TK_GEOMETRY_NODE_TYPE)
   then Some HOU_ROP_GEOMETRY_TYPE else None)
  = Some (match n_category t with
          | Sop => HOU_SOP_GEOMETRY_TYPE
          | Rop => HOU_ROP_GEOMETRY_TYPE
          end).
Proof.
  intros Hty. destruct (n_category t).
  - by rewrite decide_True.
  - rewrite decide_False by (by intros [? ?]). by rewrite decide_True.
Qed.



(** C7.  When the source node has more input connections than the target
    node has input connectors, [_copy_inputs] raises before it sets any
    input, and the conversion of the node stops there: it ends in a raise,
    with the original node as it was.  Otherwise [_copy_inputs] returns, and
    every input connection of the source is then on the same slot of the
    target. *)
Theorem copy_inputs_all_or_nothing (types : category -> string -> option node_type)
    (L : codec_library) (source_node target_node : node_id) (w : world)
    (source target : node) :
  w_nodes w !! source_node = Some source ->
  w_nodes w !! target_node = Some target ->
  (if (n_connectors target <? size (n_inputs source))%nat
   then exists msg,
          _copy_inputs source_node target_node w = (Raise (InvalidInput msg), w)
   else exists w',
          _copy_inputs source_node target_node w = (Ok tt, w') /\
          forall slot input,
            n_inputs source !! slot = Some input ->
            exists target',
              w_nodes w' !! target_node = Some target' /\
              n_inputs target' !! slot = Some input) /\
  (forall regular_type,
     n_type source = TK_GEOMETRY_NODE_TYPE ->
     types (n_category source)
           (match n_category source with
            | Sop => HOU_SOP_GEOMETRY_TYPE
            | Rop => HOU_ROP_GEOMETRY_TYPE
            end) = Some regular_type ->
     (t_connectors regular_type < size (n_inputs source))%nat ->
     exists e w',
       convert_to_regular_node types L source_node w = (Raise e, w') /\
       w_nodes w' !! source_node = Some source) /\
  (forall tk_type profile_name,
     n_user source !! TK_OUTPUT_PROFILE_NAME_KEY = Some profile_name ->
     profile_name <> "" ->
     types (n_category source) TK_GEOMETRY_NODE_TYPE = Some tk_type ->
     (t_connectors tk_type < size (n_inputs source))%nat ->
     exists e w',
       convert_back_node types L source_node w = (Raise e, w') /\
       w_nodes w' !! source_node = Some source).
Proof.
  intros Hs Ht. split; [by apply copy_inputs_guard|]. split.
  - intros nt Hty Hnt Hc. by eapply convert_to_regular_node_aborts.
  - intros nt name Hu Hne Hnt Hc. by eapply convert_back_node_aborts.
Qed.

(** ** The examples *)




(** Closed goals, settled by evaluation in the virtual machine. *)
Ltac by_computation :=
  lazymatch goal with
  | |- @eq (result _ * world) _ _ =>
      apply (bool_decide_unpack _); vm_cast_no_check I
  | |- ?a = ?b => vm_cast_no_check (@eq_refl _ b)
  | |- Is_true _ => vm_cast_no_check I
  | |- _ <> _ => let H := fresh in intros H; vm_compute in H; discriminate H
  end.


(** In the example session a second call returns the path the first call
    cached, and applies no template. *)
Lemma compute_output_path_memoized_witness :
  exists w1 w2,
    _compute_output_path ex_env 0%nat ex_world
    = (Ok (Some "/proj/cache/cacheOut/v1/cacheOut.$F4.bgeo.sc"), w1) /\
    _compute_output_path ex_env 0%nat w1
    = (Ok (Some "/proj/cache/cacheOut/v1/cacheOut.$F4.bgeo.sc"), w2) /\
    w_applied w2 = w_applied w1.
Proof.
  set (w1 := (_compute_output_path ex_env 0%nat ex_world).2).
  set (n1 := default ex_tk_node (w_nodes w1 !! 0%nat)).
  set (F := output_fields ex_env (hipfile_fields_of ex_env) "cacheOut" 1 "bgeo.sc"
                          ex_profile).
  destruct (compute_output_path_memoized ex_env ex_env 0%nat ex_world w1 w1
              ex_tk_node n1 n1 F F
              (Some "/proj/cache/cacheOut/v1/cacheOut.$F4.bgeo.sc")
              ex_profile ex_cache_template)
    as (r & w2 & Hrun & Hhit); [by_computation.. |].
  rewrite decide_True in Hhit by reflexivity. destruct Hhit as (-> & Happlied & _).
  exists w1, w2. split; [by_computation|]. split; [exact Hrun | exact Happlied].
Defined.

(** In the example session the caches have the versions 1, 2 and 5:
    [auto_version] sets the version 6 and creates the directory of the
    output path. *)
Lemma auto_version_next_witness :
  exists w',
    auto_version ex_env 0%nat ex_world = (Ok tt, w') /\
    (exists n' p', w_nodes w' !! 0%nat = Some n' /\ n_parms n' !! "ver" = Some p' /\
                   p_value p' = VInt 6) /\
    w_paths w' = {[ "/proj/cache/cacheOut/v6" ]} ∪ w_paths ex_world.
Proof.
  destruct (auto_version_next ex_env 0%nat ex_world ex_tk_node ex_profile
              ex_cache_template "bgeo.sc" "cacheOut"
              (ex_parm IntParmTemplate (VInt 1)) [1; 2; 5])
    as (_ & r & w' & Hrun & (n' & Hn' & Hver) & _).
  1-7: by_computation.
  - repeat constructor; by_computation.
  - repeat constructor; lia.
  - assert (r = Ok tt) as ->.
    { change r with (r, w').1. rewrite <- Hrun. by_computation. }
    exists w'. split; [exact Hrun|]. split.
    + exists n'. eexists. split; [exact Hn'|]. split; [exact Hver|]. reflexivity.
    + change w' with (Ok tt : result unit, w').2. rewrite <- Hrun. by_computation.
Defined.

(** With a file open that is not a work file, neither path is computed. *)
Lemma compute_output_path_not_a_work_file_witness :
  (exists msg w',
     _compute_output_path ex_env_untitled 0%nat ex_world = (Raise (TankError msg), w') /\
     w_nodes w' = w_nodes ex_world /\ w_paths w' = w_paths ex_world /\
     w_publishes w' = w_publishes ex_world /\ w_applied w' = w_applied ex_world) /\
  (exists msg w',
     _compute_backup_output_path ex_env_untitled 0%nat ex_world
     = (Raise (TankError msg), w') /\
     w_nodes w' = w_nodes ex_world /\ w_paths w' = w_paths ex_world /\
     w_publishes w' = w_publishes ex_world /\ w_applied w' = w_applied ex_world).
Proof.
  apply (compute_output_path_not_a_work_file ex_env_untitled 0%nat ex_world).
  intros t Ht. vm_compute in Ht. injection Ht as <-. reflexivity.
Defined.

(** On the render farm the file that is open is the backup file, which is
    not of the work file template, and both paths are computed all the same,
    from the work file the variable [NOZ_HIPFILE] names. *)
Lemma farm_file_is_not_a_work_file :
  isUIAvailable ex_env_farm = false /\
  get_template ex_env_farm "work_file_template" = Some ex_work_template /\
  tpl_validate ex_work_template (hipFile_path ex_env_farm) = false /\
  (_compute_output_path ex_env_farm 0%nat ex_world).1
  = Ok (Some "/proj/cache/cacheOut/v1/cacheOut.$F4.bgeo.sc") /\
  (_compute_backup_output_path ex_env_farm 0%nat ex_world).1
  = Ok "/proj/backup/cacheOut_v1.hip".
Proof. repeat split; by_computation. Qed.



(** The box has no input connector, so the input of the Toolkit node is not
    copied to it; the file node has one, and gets the input. *)
Lemma copy_inputs_all_or_nothing_witness :
  (exists msg, _copy_inputs 0%nat 1%nat ex_world = (Raise (InvalidInput msg), ex_world)) /\
  (exists w',
     _copy_inputs 0%nat 3%nat ex_world = (Ok tt, w') /\
     forall slot input,
       n_inputs ex_tk_node !! slot = Some input ->
       exists target',
         w_nodes w' !! 3%nat = Some target' /\ n_inputs target' !! slot = Some input).
Proof.
  split.
  - apply (copy_inputs_all_or_nothing ex_types ex_lib 0%nat 1%nat ex_world
             ex_tk_node ex_box); by_computation.
  - apply (copy_inputs_all_or_nothing ex_types ex_lib 0%nat 3%nat ex_world
             ex_tk_node ex_file); by_computation.
Defined.

(** The ten frames of the example sequence are on disk: the label is the
    range and the node is red. *)
Lemma check_seq_one_sequence_witness :
  exists w' n',
    check_seq ex_env 0%nat ex_world = (Ok tt, w') /\
    w_nodes w' !! 0%nat = Some n' /\
    n_color n' = red /\ n_color n' <> green /\
    n_parms n' !! "seqlabel"
    = Some (with_value (VStr "[1-10]") (ex_parm StringParmTemplate (VStr ""))).
Proof.
  set (w1 := (_compute_output_path ex_env 0%nat ex_world).2).
  set (n1 := default ex_tk_node (w_nodes w1 !! 0%nat)).
  apply (check_seq_one_sequence ex_env 0%nat ex_world w1
           "/proj/cache/cacheOut/v1/cacheOut.$F4.bgeo.sc" ex_sequence n1
           (ex_parm StringParmTemplate (VStr ""))).
  - by_computation.
  - by_computation.
  - by_computation.
  - vm_compute. lia.
  - by_computation.
  - intros d Hd. vm_compute in Hd. by apply elem_of_nil in Hd.
  - by_computation.
  - by_computation.
Defined.

(** With a file open that is not a work file: the unbound variable with the
    user interface, the error menu without it. *)
Lemma menu_items_path_unbound_witness :
  (exists e w',
     get_output_path_menu_items ex_env_untitled ex_world = (Raise e, w') /\
     e = UnboundLocalError "path" /\ is_NameError e = true) /\
  (exists w',
     get_output_path_menu_items (ex_env_with false "/tmp/untitled.hip" None) ex_world
     = (Ok [Some ("ERROR: Unable to construct the output path menu items: "
                  +:+ n_name ex_tk_node +:+ " - "
                  +:+ "This Houdini file is not a Shotgun Toolkit work file!");
            Some ("ERROR: Unable to construct the output path menu items: "
                  +:+ n_name ex_tk_node +:+ " - "
                  +:+ "This Houdini file is not a Shotgun Toolkit work file!")], w')).
Proof.
  split.
  - apply (menu_items_path_unbound ex_env_untitled ex_world
             (_compute_output_path ex_env_untitled 0%nat ex_world).2 ex_tk_node
             (ex_parm StringParmTemplate (VStr ""))
             "This Houdini file is not a Shotgun Toolkit work file!"); by_computation.
  - apply (menu_items_path_unbound (ex_env_with false "/tmp/untitled.hip" None) ex_world
             (_compute_output_path (ex_env_with false "/tmp/untitled.hip" None)
                                   0%nat ex_world).2 ex_tk_node
             (ex_parm StringParmTemplate (VStr ""))
             "This Houdini file is not a Shotgun Toolkit work file!"); by_computation.
Defined.

(** In the example session the cache has no publish yet: the backup file is
    registered, then the cache, which depends on it. *)
Lemma auto_publish_backup_then_cache_witness :
  exists w',
    auto_publish ex_env 0%nat ex_publish_world = (Ok tt, w') /\
    pub_type <$> w_publishes w' = ["Backup File"; "Bgeo Cache"] /\
    pub_path <$> w_publishes w'
    = [Some "/proj/backup/cacheOut_v1.hip";
       Some "/proj/cache/cacheOut/v1/cacheOut.$F4.bgeo.sc"] /\
    pub_dependencies <$> w_publishes w'
    = [["/proj/assets/tree.abc"]; ["/proj/backup/cacheOut_v1.hip"]].
Proof.
  destruct (auto_publish_backup_then_cache ex_env 0%nat ex_publish_world
              (_compute_output_path ex_env 0%nat ex_publish_world).2
              (Some "/proj/cache/cacheOut/v1/cacheOut.$F4.bgeo.sc"))
    as (_ & r & w' & Hrun & _); [by_computation.. |].
  assert (r = Ok tt) as ->.
  { change r with (r, w').1. rewrite <- Hrun. by_computation. }
  exists w'. split; [exact Hrun|].
  change w' with (Ok tt : result unit, w').2. rewrite <- Hrun.
  repeat split; by_computation.
Defined.



(** * More properties of the handler *)

(** ** Output connections *)



Lemma find_separator (name payload : string) :
  contains ":" name = false ->
  find ":" (name +:+ ":" +:+ payload) = Z.of_nat (String.length name).
Proof.
  induction name as [|c name IH]; intros Hc; [reflexivity|].
  simpl in Hc. apply orb_false_elim in Hc as [Hc1 Hc2].
  change (String c name +:+ ":" +:+ payload) with (String c (name +:+ ":" +:+ payload)).
  cbn [find]. 
  assert (startswith ":" (String c (name +:+ ":" +:+ payload)) = false) as ->.
  { simpl in *. by destruct (Ascii.eqb ":" c). }
  rewrite (IH Hc2).
  assert ((Z.of_nat (String.length name) <? 0) = false) as -> by (apply Z.ltb_ge; lia).
  cbn [String.length]. lia.
Qed.

Lemma substring_prefix (name rest : string) :
  String.substring 0 (String.length name) (name +:+ rest) = name.
Proof. induction name as [|c name IH]; simpl; [by destruct rest | by rewrite IH]. Qed.

Lemma substring_drop (name rest : string) (n m : nat) :
  String.substring (String.length name + n) m (name +:+ rest) = String.substring n m rest.
Proof. induction name as [|c name IH]; simpl; done. Qed.

Lemma length_append (s1 s2 : string) :
  String.length (s1 +:+ s2) = (String.length s1 + String.length s2)%nat.
Proof. induction s1 as [|c s1 IH]; simpl; [done | by rewrite IH]. Qed.

Lemma parse_codec_name (name payload : string) :
  contains ":" name = false ->
  let data_str := name +:+ ":" +:+ payload in
  slice_to data_str (find ":" data_str) = name /\
  slice_from data_str (find ":" data_str + 1) = payload.
Proof.
  intros Hc data_str. subst data_str. rewrite (find_separator _ _ Hc).
  unfold slice_to, slice_from, slice_bound.
  rewrite !length_append. cbn [String.length].
  assert ((Z.of_nat (String.length name) <? 0) = false) as -> by (apply Z.ltb_ge; lia).
  assert ((Z.of_nat (String.length name) + 1 <? 0) = false) as -> by (apply Z.ltb_ge; lia).
  split.
  - rewrite Nat2Z.id, Nat.min_r by lia. apply substring_prefix.
  - replace (Z.to_nat (Z.of_nat (String.length name) + 1))
      with (String.length name + 1)%nat by lia.
    rewrite Nat.min_r by lia.
    rewrite substring_drop. simpl. change ("" +:+ payload) with payload.
    match goal with |- String.substring 0 ?k _ = _ =>
      replace k with (String.length payload) by lia end.
    apply substring_all.
Qed.

(** X2.  [_restore_outputs_from_user_data] does nothing when the source node
    has no saved connections or an empty string of them; and when the name
    before the separator is not a codec of the handler, it raises the
    [KeyError] of this name before it makes any connection. *)
Theorem restore_outputs_edge_cases (L : codec_library) (source target : node_id)
    (w : world) (s : node) :
  w_nodes w !! source = Some s ->
  (n_user s !! TK_OUTPUT_CONNECTIONS_KEY = None \/
   n_user s !! TK_OUTPUT_CONNECTIONS_KEY = Some "" ->
   _restore_outputs_from_user_data L source target w = (Ok tt, w)) /\
  (forall name payload,
     contains ":" name = false ->
     name <> TK_OUTPUT_CONNECTION_CODEC ->
     n_user s !! TK_OUTPUT_CONNECTIONS_KEY = Some (name +:+ ":" +:+ payload) ->
     _restore_outputs_from_user_data L source target w = (Raise (KeyError name), w)).
Proof.
  intros Hs. split.
  - intros Hu. unfold _restore_outputs_from_user_data, Node_userData.
    erewrite bind_Ok.
    2:{ erewrite bind_Ok by (unfold the_node; rewrite Hs; reflexivity). reflexivity. }
    by destruct Hu as [-> | ->].
  - intros name payload Hc Hname Hu.
    unfold _restore_outputs_from_user_data, Node_userData.
    erewrite bind_Ok.
    2:{ erewrite bind_Ok by (unfold the_node; rewrite Hs; reflexivity). reflexivity. }
    rewrite Hu.
    destruct (parse_codec_name name payload Hc) as [Hto Hfrom]. cbv zeta in Hto, Hfrom.
    destruct (name +:+ ":" +:+ payload) as [|c0 d] eqn:Hd.
    { destruct name; discriminate. }
    cbv zeta. rewrite Hto.
    erewrite bind_Raise; [reflexivity|].
    unfold lift, TK_OUTPUT_CONNECTION_CODECS, dict_get.
    assert (("sgtk-01" =? name)%string = false) as ->; [|done].
    apply String.eqb_neq. intros E. apply Hname. by rewrite <- E.
Qed.

(** A node with connections saved by a later version of the handler. *)
Lemma restore_outputs_edge_cases_witness :
  _restore_outputs_from_user_data ex_lib 1%nat 0%nat ex_world = (Ok tt, ex_world) /\
  let w := with_nodes (alter (with_user <[TK_OUTPUT_CONNECTIONS_KEY := "sgtk-02:data"]>)
                             1%nat) ex_world in
  _restore_outputs_from_user_data ex_lib 1%nat 0%nat w = (Raise (KeyError "sgtk-02"), w).
Proof.
  split.
  - apply (restore_outputs_edge_cases ex_lib 1%nat 0%nat ex_world ex_box).
    + by_computation.
    + left. by_computation.
  - cbv zeta.
    set (w := with_nodes (alter (with_user <[TK_OUTPUT_CONNECTIONS_KEY := "sgtk-02:data"]>)
                                1%nat) ex_world).
    destruct (restore_outputs_edge_cases ex_lib 1%nat 0%nat w
                (with_user <[TK_OUTPUT_CONNECTIONS_KEY := "sgtk-02:data"]> ex_box))
      as [_ H].
    + by_computation.
    + apply (H "sgtk-02" "data"); by_computation.
Defined.

(** ** Parameter values *)

Lemma getitem_value_map (z : Z) :
  getitem ["hscript"; "python"] z
  = if decide (z = 0 \/ z = -2) then Ok "hscript"
    else if decide (z = 1 \/ z = -1) then Ok "python"
    else Raise IndexError.
Proof.
  unfold getitem. simpl length.
  destruct (decide (z = 0 \/ z = -2)) as [[->| ->]|H0]; [done..|].
  destruct (decide (z = 1 \/ z = -1)) as [[->| ->]|H1]; [done..|].
  destruct (z <? 0) eqn:Hz.
  - apply Z.ltb_lt in Hz.
    assert ((z + Z.of_nat 2 <? 0) = true) as -> by (apply Z.ltb_lt; lia). done.
  - apply Z.ltb_ge in Hz. rewrite (proj2 (Z.ltb_ge z 0)) by done.
    assert (2 <= Z.to_nat z)%nat as Hge by lia.
    destruct (Z.to_nat z) as [|[|k]]; [lia..|]. done.
Qed.

(** X3.  The fallback of [_copy_parm_values] for a number that a string
    parameter of the target refuses: under a name that starts with [lpre] or
    [lpost] the target is set to the keyword the number stands for, [hscript]
    for 0 and [python] for 1 (and, Python counting from the end, for -2 and
    -1), and any other number raises [IndexError]; under any other name the
    [TypeError] is raised again.  A raise leaves the target as it was. *)
Theorem copy_parm_legacy_fallback (source target : node_id) (name : string) (w : world)
    (s t : node) (sp tp : parm) (z : Z) :
  w_nodes w !! source = Some s ->
  w_nodes w !! target = Some t ->
  n_parms s !! name = Some sp ->
  n_parms t !! name = Some tp ->
  p_template sp = IntParmTemplate ->
  p_keyframes sp = ∅ ->
  p_value sp = VInt z ->
  p_template tp = StringParmTemplate ->
  let set keyword :=
    (Ok tt, with_nodes <[target := with_parms <[name := with_value (VStr keyword) tp]> t]> w) in
  copy_parm source target name w
  = if startswith "lpre" name || startswith "lpost" name
    then if decide (z = 0 \/ z = -2) then set "hscript"
         else if decide (z = 1 \/ z = -1) then set "python"
         else (Raise IndexError, w)
    else (Raise TypeError, w).
Proof.
  intros Hs Ht Hsp Htp Hint Hkeys Hval Hstr set.
  unfold copy_parm.
  erewrite bind_Ok.
  2:{ unfold the_parm, Node_parm.
      erewrite bind_Ok.
      2:{ erewrite bind_Ok by (unfold the_node; rewrite Hs; reflexivity). reflexivity. }
      simpl. rewrite Hsp. reflexivity. }
  cbv zeta. rewrite Hint. rewrite decide_False by done.
  erewrite bind_Ok.
  2:{ unfold Node_parm.
      erewrite bind_Ok by (unfold the_node; rewrite Ht; reflexivity). reflexivity. }
  rewrite Htp. unfold Parm_keyframes. rewrite Hkeys, map_to_list_empty.
  rewrite decide_False by done.
  unfold Parm_eval. rewrite Hval.
  rewrite (try_except_Raise _ _ _ w w TypeError); [| |done].
  2:{ apply (parm_set_Raise target name _ w t tp); [done..|]. by rewrite Hstr. }
  destruct (startswith "lpre" name || startswith "lpost" name); [|done].
  unfold subscript. rewrite getitem_value_map.
  destruct (decide (z = 0 \/ z = -2)).
  - erewrite bind_Ok by reflexivity.
    subst set. apply parm_set_Ok; [done..|]. by rewrite Hstr.
  - destruct (decide (z = 1 \/ z = -1)).
    + erewrite bind_Ok by reflexivity.
      subst set. apply parm_set_Ok; [done..|]. by rewrite Hstr.
    + by erewrite bind_Raise by reflexivity.
Qed.

(** A Toolkit node whose pre-render script is in Python (the second item of
    its menu), and a regular node that wants the name of the language. *)
Lemma copy_parm_legacy_fallback_witness :
  let s := with_parms <["lprerender" := ex_parm IntParmTemplate (VInt 1)]> ex_tk_node in
  let t := with_parms <["lprerender" := ex_parm StringParmTemplate (VStr "hscript")]> ex_file in
  let w := with_nodes (fun ns => <[0%nat := s]> (<[3%nat := t]> ns)) ex_world in
  copy_parm 0%nat 3%nat "lprerender" w
  = (Ok tt,
     with_nodes <[3%nat := with_parms
                    <["lprerender" := ex_parm StringParmTemplate (VStr "python")]> t]> w).
Proof.
  intros s t w.
  rewrite (copy_parm_legacy_fallback 0%nat 3%nat "lprerender" w s t
             (ex_parm IntParmTemplate (VInt 1))
             (ex_parm StringParmTemplate (VStr "hscript")) 1);
    [reflexivity | by_computation..].
Defined.

(** ** The conversions *)

Lemma elem_of_instances (c : category) (name : string) (w w' : world)
    (l : list node_id) (i : node_id) :
  instances c name w = (Ok l, w') ->
  i ∈ l ->
  exists n, w_nodes w !! i = Some n /\ n_category n = c /\ n_type n = name.
Proof.
  unfold instances. intros [= <- <-]. rewrite list_elem_of_fmap.
  intros ([i' n] & -> & Hin). apply list_elem_of_filter in Hin as [[Hc Ht] Hin].
  apply elem_of_map_to_list in Hin. eauto.
Qed.

Lemma with_log_app (l1 l2 : list (log_level * string)) (w : world) :
  with_log (fun l => (l ++ l2)%list) (with_log (fun l => (l ++ l1)%list) w)
  = with_log (fun l => (l ++ l1 ++ l2)%list) w.
Proof. destruct w. unfold with_log. simpl. by rewrite app_assoc. Qed.

Lemma for_each_convert_back_skip (types : category -> string -> option node_type)
    (L : codec_library) (l : list node_id) (w : world) :
  (forall i, i ∈ l ->
     exists g, w_nodes w !! i = Some g /\
               (n_user g !! TK_OUTPUT_PROFILE_NAME_KEY = None \/
                n_user g !! TK_OUTPUT_PROFILE_NAME_KEY = Some "")) ->
  exists msgs,
    for_each l (convert_back_node types L) w
    = (Ok tt, with_log (fun x => (x ++ msgs)%list) w) /\
    length msgs = length l /\
    Forall (fun m => m.1 = LogWarning) msgs.
Proof.
  revert w. induction l as [|i l IH]; intros w Hl.
  - exists []. split; [|done]. simpl. unfold ret. destruct w. unfold with_log. simpl.
    by rewrite app_nil_r.
  - destruct (Hl i ltac:(by left)) as (g & Hg & Hu).
    set (m := (LogWarning,
               "Geometry node '" +:+ n_name g +:+ "' does not have an output profile name. "
               +:+ "Can't convert to Tk Geometry node. Continuing.")).
    assert (convert_back_node types L i w
            = (Ok tt, with_log (fun x => (x ++ [m])%list) w)) as Hstep.
    { unfold convert_back_node. cbv zeta.
      erewrite bind_Ok by (unfold the_node; rewrite Hg; reflexivity).
      by destruct Hu as [-> | ->]. }
    destruct (IH (with_log (fun x => (x ++ [m])%list) w)) as (msgs & Hrun & Hlen & Hall).
    { intros j Hj. apply Hl. by right. }
    exists (m :: msgs). simpl. rewrite (bind_Ok _ _ _ _ _ Hstep), Hrun.
    split; [by rewrite with_log_app|]. split; [by rewrite Hlen|].
    by constructor.
Qed.

(** X4.  [convert_back_to_tk_geometry_nodes] only converts nodes that had
    been Toolkit nodes: in a session where no regular Geometry node carries
    the name of an output profile, it returns with every node as it was and
    nothing created; it only adds to the log, either the debug message that
    there is no Geometry node or warnings, at least one. *)
Theorem convert_back_leaves_plain_nodes (types : category -> string -> option node_type)
    (L : codec_library) (w : world) :
  (forall i g,
     w_nodes w !! i = Some g ->
     (n_category g = Sop /\ n_type g = HOU_SOP_GEOMETRY_TYPE) \/
     (n_category g = Rop /\ n_type g = HOU_ROP_GEOMETRY_TYPE) ->
     n_user g !! TK_OUTPUT_PROFILE_NAME_KEY = None \/
     n_user g !! TK_OUTPUT_PROFILE_NAME_KEY = Some "") ->
  exists msgs,
    convert_back_to_tk_geometry_nodes types L w
    = (Ok tt, with_log (fun l => (l ++ msgs)%list) w) /\
    (msgs = [(LogDebug, "No Geometry Nodes found for conversion.")] \/
     (msgs <> [] /\ Forall (fun m => m.1 = LogWarning) msgs)).
Proof.
  intros Hplain. unfold convert_back_to_tk_geometry_nodes.
  destruct (instances Sop HOU_SOP_GEOMETRY_TYPE w) as [[sops|?] w1] eqn:Hsops;
    [|discriminate Hsops].
  assert (w1 = w) as -> by (by injection Hsops).
  rewrite (bind_Ok _ _ _ _ _ Hsops).
  destruct (instances Rop HOU_ROP_GEOMETRY_TYPE w) as [[rops|?] w1] eqn:Hrops;
    [|discriminate Hrops].
  assert (w1 = w) as -> by (by injection Hrops).
  rewrite (bind_Ok _ _ _ _ _ Hrops).
  cbv zeta.
  assert (forall i, i ∈ (sops ++ rops)%list ->
            exists g, w_nodes w !! i = Some g /\
                      (n_user g !! TK_OUTPUT_PROFILE_NAME_KEY = None \/
                       n_user g !! TK_OUTPUT_PROFILE_NAME_KEY = Some "")) as Hl.
  { intros i [Hi|Hi]%elem_of_app.
    - destruct (elem_of_instances _ _ _ _ _ _ Hsops Hi) as (g & Hg & Hc & Ht).
      exists g. split; [done|]. apply (Hplain i g Hg). by left.
    - destruct (elem_of_instances _ _ _ _ _ _ Hrops Hi) as (g & Hg & Hc & Ht).
      exists g. split; [done|]. apply (Hplain i g Hg). by right. }
  destruct (sops ++ rops)%list as [|i l] eqn:Hnodes.
  - eexists. split; [reflexivity|]. by left.
  - destruct (for_each_convert_back_skip types L (i :: l) w Hl) as (msgs & Hrun & Hlen & Hall).
    exists msgs. split; [exact Hrun|]. right. split; [|done].
    intros ->. discriminate Hlen.
Qed.

(** The session with the box and the file node only, and a Geometry node
    that never was a Toolkit node. *)
Lemma convert_back_leaves_plain_nodes_witness :
  let plain :=
    Node Sop "rop_geometry" "rop_geometry1" "/obj/geo1" ex_geo_parms ∅ 1 ∅ None None
         (8, 8, 8) (0, 0) [] in
  let w := with_nodes <[0%nat := plain]> ex_world in
  exists msg,
    convert_back_to_tk_geometry_nodes ex_types ex_lib w
    = (Ok tt, with_log (fun l => (l ++ [(LogWarning, msg)])%list) w).
Proof.
  intros plain w.
  destruct (convert_back_leaves_plain_nodes ex_types ex_lib w) as (msgs & Hrun & Hmsgs).
  - intros i g Hg _.
    assert (Forall (fun jn => n_user jn.2 = ∅) (map_to_list (w_nodes w))) as Hall
      by (apply (bool_decide_unpack _); by_computation).
    apply elem_of_map_to_list in Hg.
    rewrite Forall_forall in Hall. pose proof (Hall (i, g) Hg) as Hu. simpl in Hu.
    rewrite Hu. by left.
  - destruct Hmsgs as [->|[Hne Hall]].
    + exfalso.
      assert ((convert_back_to_tk_geometry_nodes ex_types ex_lib w).2
              <> with_log (fun l => (l ++ [(LogDebug, "No Geometry Nodes found for conversion.")])%list) w)
        as Hw by by_computation.
      apply Hw. by rewrite Hrun.
    + assert (length (w_log (convert_back_to_tk_geometry_nodes ex_types ex_lib w).2) = 1%nat)
        as Hlen by by_computation.
      rewrite Hrun in Hlen. simpl in Hlen. rewrite ?length_app in Hlen.
      destruct msgs as [|[lvl msg] [|m msgs]]; [done| |simpl in Hlen; lia].
      apply Forall_cons in Hall as [Hlvl _]. simpl in Hlvl. subst lvl.
      exists msg. exact Hrun.
Defined.

(** ** The work file and the paths *)

(** X5.  [_get_hipfile_fields] never raises and changes nothing but the log:
    it logs an error exactly when there is no user interface and the variable
    [NOZ_HIPFILE] is unset or empty, and then looks for the fields of the
    empty path; it returns no field when there is no work file template or
    when the template does not validate the path. *)
Theorem get_hipfile_fields_total (E : env) (w : world) :
  let missing :=
    negb (isUIAvailable E) &&
    match NOZ_HIPFILE E with Some (String _ _) => false | _ => true end in
  let work_file_path :=
    if isUIAvailable E then hipFile_path E
    else if missing then "" else default "" (NOZ_HIPFILE E) in
  exists w',
    _get_hipfile_fields E w
    = (Ok (match get_template E "work_file_template" with
           | Some t =>
               if tpl_validate t work_file_path then tpl_get_fields t work_file_path else ∅
           | None => ∅
           end), w') /\
    w_nodes w' = w_nodes w /\ w_paths w' = w_paths w /\
    w_publishes w' = w_publishes w /\ w_applied w' = w_applied w /\
    w_log w' = (w_log w ++ if missing then [(LogError, "Could not find origin hip file!")]
                           else [])%list.
Proof.
  unfold _get_hipfile_fields.
  destruct (isUIAvailable E); [|destruct (NOZ_HIPFILE E) as [[|c s]|]];
    unfold bind, ret, log, modify; simpl;
    destruct (get_template E "work_file_template") as [t|];
    try destruct (tpl_validate t _); eexists; (split; [reflexivity|]);
    simpl; rewrite ?app_nil_r; done.
Qed.

(** X6.  [_compute_backup_output_path] keeps no cache: whatever its outcome
    it leaves the nodes, the disk and the publishes as they were, and each
    call that returns a path has applied the backup template of the profile
    of the node once more. *)
Theorem compute_backup_output_path_not_cached (E : env) (i : node_id) (w : world) :
  let r := (_compute_backup_output_path E i w).1 in
  let w' := (_compute_backup_output_path E i w).2 in
  w_nodes w' = w_nodes w /\ w_paths w' = w_paths w /\ w_publishes w' = w_publishes w /\
  forall path, r = Ok path ->
    exists n pr t F raw,
      w_nodes w !! i = Some n /\
      profile_of E n = Ok pr /\
      get_template_by_name E (pr_output_backup_template pr) = Some t /\
      w_applied w' = (w_applied w ++ [(pr_output_backup_template pr, F)])%list /\
      tpl_apply_fields t F = Ok raw /\
      path = replace (os_sep E) "/" raw.
Proof.
  cbv zeta.
  split; [|split; [|split]].
  - assert (preserves (fun w' => w_nodes w' = w_nodes w) (_compute_backup_output_path E i))
      as H by frame.
    by apply H.
  - assert (preserves (fun w' => w_paths w' = w_paths w) (_compute_backup_output_path E i))
      as H by frame.
    by apply H.
  - assert (preserves (fun w' => w_publishes w' = w_publishes w)
                      (_compute_backup_output_path E i)) as H by frame.
    by apply H.
  - destruct (_compute_backup_output_path E i w) as [r w'] eqn:Hrun. simpl.
    intros path ->. unfold _compute_backup_output_path in Hrun.
    destruct (get_hipfile_fields_spec E w) as (w0 & H0 & Hn & _ & _ & Happ).
    rewrite (bind_Ok _ _ _ _ _ H0) in Hrun. case_decide; [discriminate|].
    apply bind_Ok_inv in Hrun as (ext & w2 & Hext & Hrun).
    rewrite output_extension_spec in Hext. injection Hext as Hext <-.
    apply bind_Ok_inv in Hrun as (n & w2 & Hnode & Hrun).
    apply the_node_inv in Hnode as [-> Hnode].
    apply bind_Ok_inv in Hrun as (name & w2 & Hname & Hrun).
    apply lift_inv in Hname as [-> Hname].
    apply bind_Ok_inv in Hrun as (version & w2 & Hver & Hrun).
    rewrite parm_evalAsInt_ver_spec in Hver. injection Hver as Hver <-.
    apply bind_Ok_inv in Hrun as (pr & w2 & Hpr & Hrun).
    rewrite get_output_profile_spec, Hnode in Hpr. injection Hpr as Hpr <-.
    destruct (get_template_by_name E (pr_output_backup_template pr)) as [t|] eqn:Ht.
    2:{ unfold resolve in Hrun. rewrite Ht in Hrun. discriminate. }
    rewrite (resolve_spec _ _ _ _ _ Ht) in Hrun.
    destruct (tpl_apply_fields t _) as [raw|] eqn:Hraw; [|discriminate].
    injection Hrun as <- <-.
    rewrite Hn in Hnode.
    exists n, pr, t. eexists. exists raw. repeat split; try done.
    simpl. by rewrite Happ.
Qed.

(** In the example session the backup path is computed twice: the nodes are
    as they were and the backup template was applied twice. *)
Lemma compute_backup_output_path_not_cached_witness :
  let w1 := (_compute_backup_output_path ex_env 0%nat ex_world).2 in
  let w2 := (_compute_backup_output_path ex_env 0%nat w1).2 in
  (_compute_backup_output_path ex_env 0%nat w1).1 = Ok "/proj/backup/cacheOut_v1.hip" /\
  w_nodes w2 = w_nodes ex_world /\
  exists F1 F2, w_applied w2 = [("backup_tpl", F1); ("backup_tpl", F2)].
Proof.
  intros w1 w2.
  destruct (compute_backup_output_path_not_cached ex_env 0%nat ex_world)
    as (Hn1 & _ & _ & H1).
  destruct (compute_backup_output_path_not_cached ex_env 0%nat w1)
    as (Hn2 & _ & _ & H2).
  cbv zeta in *. fold w1 in Hn1, H1. fold w2 in Hn2, H2.
  split; [by_computation|]. split; [by rewrite Hn2|].
  destruct (H1 "/proj/backup/cacheOut_v1.hip" ltac:(by_computation))
    as (n1 & pr1 & t1 & F1 & raw1 & Hnode1 & Hpr1 & _ & Happ1 & _).
  destruct (H2 "/proj/backup/cacheOut_v1.hip" ltac:(by_computation))
    as (n2 & pr2 & t2 & F2 & raw2 & Hnode2 & Hpr2 & _ & Happ2 & _).
  assert (pr1 = ex_profile) as ->.
  { assert (Some n1 = Some ex_tk_node) as [= ->] by (rewrite <- Hnode1; by_computation).
    assert (Ok pr1 = Ok ex_profile) as [= ->]; [|done].
    rewrite <- Hpr1. by_computation. }
  assert (pr2 = ex_profile) as ->.
  { rewrite Hn1 in Hnode2.
    assert (Some n2 = Some ex_tk_node) as [= ->] by (rewrite <- Hnode2; by_computation).
    assert (Ok pr2 = Ok ex_profile) as [= ->]; [|done].
    rewrite <- Hpr2. by_computation. }
  exists F1, F2. rewrite Happ2, Happ1. reflexivity.
Defined.

(** ** The status of the cache, again *)

Lemma cache_status_found (E : env) (path : string) (w : world) :
  exists label,
    cache_status E path w
    = (Ok (label, if cache_found E path w then red else green), w) /\
    (cache_found E path w = false -> label ∈ no_cache_labels).
Proof.
  unfold cache_status, cache_found, no_cache_labels.
  destruct (contains "$F4" path).
  - destruct (get_sequences E _) as [|seq [|seq' l]].
    + eexists. split; [reflexivity|]. intros _. set_solver.
    + destruct (0 <? seq_length seq)%nat.
      * eexists. split; [reflexivity|]. done.
      * eexists. split; [reflexivity|]. intros _. set_solver.
    + eexists. split; [reflexivity|]. intros _. set_solver.
  - unfold bind, os_path_exists, ret.
    destruct (decide (last (split_on "." path) = Some "abc"));
      destruct (bool_decide (path ∈ w_paths w)); simpl;
      eexists; (split; [reflexivity|]); try done; intros _; set_solver.
Qed.

(** What [check_seq] does once the path is computed and the status known,
    when no dependent is a Toolkit file node. *)
Lemma check_seq_status (E : env) (i : node_id) (w w1 : world) (path label : string)
    (c : color) (n1 : node) (p : parm) :
  _compute_output_path E i w = (Ok (Some path), w1) ->
  cache_status E path w1 = (Ok (label, c), w1) ->
  w_nodes w1 !! i = Some n1 ->
  (forall d, d ∈ n_dependents n1 ->
     exists f, w_nodes w1 !! d = Some f /\ n_type f <> "sgtk_file") ->
  n_parms n1 !! "seqlabel" = Some p ->
  p_template p = StringParmTemplate ->
  check_seq E i w
  = (Ok tt,
     with_nodes <[i := with_parms <["seqlabel" := with_value (VStr label) p]>
                         (with_color c n1)]> w1).
Proof.
  intros Hc Hs Hn1 Hdeps Hp Hstr.
  unfold check_seq. rewrite (bind_Ok _ _ _ _ _ Hc).
  rewrite (bind_Ok _ _ _ _ _ Hs). cbv zeta. simpl.
  erewrite bind_Ok by (unfold the_node; rewrite Hn1; reflexivity).
  erewrite bind_Ok.
  2:{ apply for_each_skip. intros d Hd. destruct (Hdeps d Hd) as (f & Hf & Hty).
      erewrite bind_Ok by (unfold the_node; rewrite Hf; reflexivity).
      apply String.eqb_neq in Hty. by rewrite Hty. }
  erewrite bind_Ok.
  2:{ unfold Node_setColor. erewrite bind_Ok by (unfold the_node; rewrite Hn1; reflexivity).
      reflexivity. }
  erewrite (parm_set_Ok i "seqlabel" _ _ (with_color c n1) p).
  - f_equal. destruct w1. unfold with_nodes. simpl. f_equal.
    by rewrite insert_alter_eq.
  - simpl. by rewrite lookup_alter_eq, Hn1.
  - done.
  - by rewrite Hstr.
Qed.

(** X7.  [check_seq] colours the node red exactly when a cache is found: one
    sequence that is not empty for a path with the frame placeholder, the
    file on disk for any other path.  Otherwise the node is green and its
    label says that there is no cache, no or several sequences, or an
    invalid sequence. *)
Theorem check_seq_red_iff_cache_found (E : env) (i : node_id) (w w1 : world)
    (path : string) (n1 : node) (p : parm) :
  _compute_output_path E i w = (Ok (Some path), w1) ->
  w_nodes w1 !! i = Some n1 ->
  (forall d, d ∈ n_dependents n1 ->
     exists f, w_nodes w1 !! d = Some f /\ n_type f <> "sgtk_file") ->
  n_parms n1 !! "seqlabel" = Some p ->
  p_template p = StringParmTemplate ->
  exists w' n' label,
    check_seq E i w = (Ok tt, w') /\
    w_nodes w' !! i = Some n' /\
    n_parms n' !! "seqlabel" = Some (with_value (VStr label) p) /\
    (n_color n' = red <-> cache_found E path w1 = true) /\
    (cache_found E path w1 = false -> n_color n' = green /\ label ∈ no_cache_labels).
Proof.
  intros Hc Hn1 Hdeps Hp Hstr.
  destruct (cache_status_found E path w1) as (label & Hs & Hlabel).
  rewrite (check_seq_status E i w w1 path label _ n1 p Hc Hs Hn1 Hdeps Hp Hstr).
  eexists _, _, label. split; [reflexivity|]. simpl. rewrite lookup_insert_eq.
  split; [reflexivity|]. simpl. rewrite lookup_insert_eq. split; [done|].
  destruct (cache_found E path w1); simpl.
  - split; [done|]. intros [=].
  - split; [|auto]. split; intros [=].
Qed.

(** In the example session with no sequence on disk the node turns green. *)
Lemma check_seq_red_iff_cache_found_witness :
  exists w' n' label,
    check_seq ex_env_empty_disk 0%nat ex_world = (Ok tt, w') /\
    w_nodes w' !! 0%nat = Some n' /\
    n_color n' = green /\
    n_parms n' !! "seqlabel"
    = Some (with_value (VStr label) (ex_parm StringParmTemplate (VStr ""))) /\
    label ∈ no_cache_labels.
Proof.
  set (w1 := (_compute_output_path ex_env_empty_disk 0%nat ex_world).2).
  set (n1 := default ex_tk_node (w_nodes w1 !! 0%nat)).
  destruct (check_seq_red_iff_cache_found ex_env_empty_disk 0%nat ex_world w1
              "/proj/cache/cacheOut/v1/cacheOut.$F4.bgeo.sc" n1
              (ex_parm StringParmTemplate (VStr "")))
    as (w' & n' & label & Hrun & Hn' & Hlabel & _ & Hgreen).
  - by_computation.
  - by_computation.
  - intros d Hd. vm_compute in Hd. by apply elem_of_nil in Hd.
  - by_computation.
  - by_computation.
  - destruct (Hgreen ltac:(by_computation)) as [Hcol Hin].
    exists w', n', label. done.
Defined.

Lemma follows_relabel (path label : string) (f : node) :
  follows path (relabel label f) = follows path f.
Proof.
  unfold relabel. destruct (n_parms f !! "seqlabel") as [q|]; [|done].
  unfold follows. destruct f; simpl. by rewrite !lookup_insert_ne.
Qed.

Lemma relabel_relabel (label : string) (f : node) :
  relabel label (relabel label f) = relabel label f.
Proof.
  unfold relabel. destruct (n_parms f !! "seqlabel") as [q|] eqn:Hq; [|by rewrite Hq].
  destruct f; simpl in *. rewrite lookup_insert_eq. unfold with_parms. simpl.
  by rewrite insert_insert_eq.
Qed.

Lemma labelled_labelled (path label : string) (f : node) :
  labelled path label (labelled path label f) = labelled path label f.
Proof.
  unfold labelled. destruct (follows path f) eqn:Hf; [|by rewrite Hf].
  by rewrite follows_relabel, Hf, relabel_relabel.
Qed.

Lemma file_node_ok_labelled (path label : string) (f : node) :
  file_node_ok f -> file_node_ok (labelled path label f).
Proof.
  unfold labelled. destruct (follows path f); [|done].
  unfold relabel. destruct (n_parms f !! "seqlabel") as [q|] eqn:Hq; [|done].
  intros [Hty|(mode & rop & overver & z & lbl & Hm & Hr & Ho & Hz & Hl & Ht)].
  - left. by destruct f.
  - right. exists mode, rop, overver, z, (with_value (VStr label) q).
    destruct f; simpl in *. rewrite !lookup_insert_ne by done. rewrite lookup_insert_eq.
    rewrite Hq in Hl. injection Hl as ->. done.
Qed.

Lemma node_path_labelled (path label : string) (f : node) :
  node_path (labelled path label f) = node_path f.
Proof.
  unfold labelled, relabel. destruct (follows path f); [|done].
  destruct (n_parms f !! "seqlabel"); by destruct f.
Qed.

Lemma foldl_alter_lookup {V : Type} (U : V -> V) (l : list node_id) (ns : gmap node_id V)
    (d : node_id) :
  (forall x, U (U x) = U x) ->
  foldl (fun ns d => alter U d ns) ns l !! d
  = if decide (d ∈ l) then U <$> ns !! d else ns !! d.
Proof.
  intros HU. revert ns. induction l as [|d' l IH]; intros ns; cbn [foldl].
  - case_decide as H; [by apply elem_of_nil in H | done].
  - rewrite IH, lookup_alter.
    destruct (decide (d ∈ d' :: l)) as [Hin'|Hout'];
      destruct (decide (d ∈ l)) as [Hin|Hout];
      destruct (decide (d' = d)) as [->|Hne]; try done.
    + destruct (ns !! d); simpl; [by rewrite HU | done].
    + apply elem_of_cons in Hin' as [->|?]; done.
    + exfalso. apply Hout'. by right.
    + exfalso. apply Hout'. by right.
    + exfalso. apply Hout'. by left.
Qed.

(** The body of the loop of [check_seq] over the dependents. *)
Lemma check_seq_dependent (i d : node_id) (label : string) (w : world) (n f : node) :
  w_nodes w !! i = Some n ->
  w_nodes w !! d = Some f ->
  file_node_ok f ->
  (f0 <- the_node d ;;
   if negb (String.eqb (n_type f0) "sgtk_file") then ret tt
   else
     mode <- the_parm d "mode" ;;
     if negb (String.eqb (Parm_evalAsString mode) "out") then ret tt
     else
       rop <- the_parm d "rop" ;;
       n0 <- the_node i ;;
       if negb (String.eqb (Parm_evalAsString rop) (node_path n0)) then ret tt
       else
         overver <- parm_evalAsInt d "overver" ;;
         if negb (overver =? 0) then ret tt
         else parm_set d "seqlabel" (VStr label)) w
  = (Ok tt, with_nodes (alter (labelled (node_path n) label) d) w).
Proof.
  intros Hn Hf Hok.
  assert (forall U : node -> node, U f = f ->
            (Ok tt, w) = (Ok tt, with_nodes (alter U d) w)) as Hid.
  { intros U HU. f_equal. destruct w. unfold with_nodes. simpl in *. f_equal.
    symmetry. apply alter_id. intros x Hx. rewrite Hf in Hx. by injection Hx as <-. }
  erewrite bind_Ok by (unfold the_node; rewrite Hf; reflexivity).
  unfold labelled, follows.
  destruct (String.eqb (n_type f) "sgtk_file") eqn:Hty; simpl.
  2:{ apply Hid. by rewrite Hty. }
  destruct Hok as [Hne|(mode & rop & overver & z & lbl & Hm & Hr & Ho & Hz & Hl & Ht)].
  { by apply String.eqb_neq in Hne; rewrite Hne in Hty. }
  assert (forall name q, n_parms f !! name = Some q -> the_parm d name w = (Ok q, w)) as Hparm.
  { intros name q Hq. unfold the_parm, Node_parm.
    erewrite bind_Ok.
    2:{ erewrite bind_Ok by (unfold the_node; rewrite Hf; reflexivity). reflexivity. }
    simpl. by rewrite Hq. }
  rewrite (bind_Ok _ _ _ _ _ (Hparm _ _ Hm)).
  destruct (String.eqb (Parm_evalAsString mode) "out") eqn:Hmode; simpl.
  2:{ apply Hid. by rewrite Hty, Hm, Hr, Ho, Hmode. }
  rewrite (bind_Ok _ _ _ _ _ (Hparm _ _ Hr)).
  erewrite bind_Ok by (unfold the_node; rewrite Hn; reflexivity).
  destruct (String.eqb (Parm_evalAsString rop) (node_path n)) eqn:Hrop; simpl.
  2:{ apply Hid. by rewrite Hty, Hm, Hr, Ho, Hmode, Hrop. }
  erewrite bind_Ok.
  2:{ unfold parm_evalAsInt. rewrite (bind_Ok _ _ _ _ _ (Hparm _ _ Ho)).
      unfold lift. rewrite Hz. reflexivity. }
  destruct (z =? 0) eqn:Hz0; simpl.
  2:{ apply Hid. by rewrite Hty, Hm, Hr, Ho, Hmode, Hrop, Hz, Hz0. }
  erewrite (parm_set_Ok d "seqlabel" _ w f lbl); [|done..|by rewrite Ht].
  f_equal. destruct w. unfold with_nodes. simpl in *. f_equal.
  apply map_eq. intros k. rewrite lookup_alter, lookup_insert.
  case_decide as Hk; [subst k|done].
  rewrite Hf. simpl. rewrite Hty, Hm, Hr, Ho, Hmode, Hrop, Hz, Hz0. simpl.
  unfold relabel. by rewrite Hl.
Qed.

Lemma check_seq_dependents (i : node_id) (label path : string) (l : list node_id)
    (w : world) :
  (exists n, w_nodes w !! i = Some n /\ node_path n = path) ->
  (forall d, d ∈ l -> exists f, w_nodes w !! d = Some f /\ file_node_ok f) ->
  for_each l (fun file_node =>
    f <- the_node file_node ;;
    if negb (String.eqb (n_type f) "sgtk_file") then ret tt
    else
      mode <- the_parm file_node "mode" ;;
      if negb (String.eqb (Parm_evalAsString mode) "out") then ret tt
      else
        rop <- the_parm file_node "rop" ;;
        n <- the_node i ;;
        if negb (String.eqb (Parm_evalAsString rop) (node_path n)) then ret tt
        else
          overver <- parm_evalAsInt file_node "overver" ;;
          if negb (overver =? 0) then ret tt
          else parm_set file_node "seqlabel" (VStr label)) w
  = (Ok tt,
     with_nodes (fun ns => foldl (fun ns d => alter (labelled path label) d ns) ns l) w).
Proof.
  revert w. induction l as [|d l IH]; intros w Hi Hl.
  - simpl. unfold ret. by destruct w.
  - destruct Hi as (n & Hn & Hp). destruct (Hl d ltac:(by left)) as (f & Hf & Hok).
    cbn [for_each].
    rewrite (bind_Ok _ _ _ _ _ (check_seq_dependent i d label w n f Hn Hf Hok)).
    rewrite Hp. rewrite IH.
    + by destruct w.
    + simpl. rewrite lookup_alter. case_decide as Hd.
      * subst d. rewrite Hn. simpl. eexists. split; [done|].
        by rewrite node_path_labelled.
      * eauto.
    + intros d' Hd'. destruct (Hl d' ltac:(by right)) as (f' & Hf' & Hok').
      simpl. rewrite lookup_alter. case_decide as Hd.
      * subst d'. rewrite Hf'. simpl. eexists. split; [done|].
        by apply file_node_ok_labelled.
      * eauto.
Qed.

Lemma check_seq_tail (i : node_id) (c : color) (label : string) (w : world) (n : node)
    (p : parm) :
  w_nodes w !! i = Some n ->
  n_parms n !! "seqlabel" = Some p ->
  p_template p = StringParmTemplate ->
  (Node_setColor i c ;; parm_set i "seqlabel" (VStr label)) w
  = (Ok tt,
     with_nodes <[i := with_parms <["seqlabel" := with_value (VStr label) p]>
                         (with_color c n)]> w).
Proof.
  intros Hn Hp Hstr.
  erewrite bind_Ok.
  2:{ unfold Node_setColor. erewrite bind_Ok by (unfold the_node; rewrite Hn; reflexivity).
      reflexivity. }
  erewrite (parm_set_Ok i "seqlabel" _ _ (with_color c n) p).
  - f_equal. destruct w. unfold with_nodes. simpl. f_equal.
    by rewrite insert_alter_eq.
  - simpl. by rewrite lookup_alter_eq, Hn.
  - done.
  - by rewrite Hstr.
Qed.

(** X8.  [check_seq] passes its label on to the file nodes that follow the
    node: each dependent that is a Toolkit file node in the mode [out], reads
    the cache of this node and does not override its version gets the label;
    every other node but the cache node itself is as it was. *)
Theorem check_seq_labels_followers (E : env) (i : node_id) (w w1 : world)
    (path : string) (n1 : node) (p : parm) :
  _compute_output_path E i w = (Ok (Some path), w1) ->
  w_nodes w1 !! i = Some n1 ->
  i ∉ n_dependents n1 ->
  (forall d, d ∈ n_dependents n1 ->
     exists f, w_nodes w1 !! d = Some f /\ file_node_ok f) ->
  n_parms n1 !! "seqlabel" = Some p ->
  p_template p = StringParmTemplate ->
  exists w' label c,
    cache_status E path w1 = (Ok (label, c), w1) /\
    check_seq E i w = (Ok tt, w') /\
    w_nodes w' !! i
    = Some (with_parms <["seqlabel" := with_value (VStr label) p]> (with_color c n1)) /\
    (forall d f,
       d ∈ n_dependents n1 -> w_nodes w1 !! d = Some f ->
       w_nodes w' !! d
       = Some (if follows (node_path n1) f then relabel label f else f)) /\
    (forall d, d ∉ n_dependents n1 -> d <> i -> w_nodes w' !! d = w_nodes w1 !! d).
Proof.
  intros Hc Hn1 Hi Hdeps Hp Hstr.
  destruct (cache_status_found E path w1) as (label & Hs & _).
  set (c := if cache_found E path w1 then red else green) in *.
  set (U := labelled (node_path n1) label).
  set (w2 := with_nodes (fun ns => foldl (fun ns d => alter U d ns) ns (n_dependents n1)) w1).
  assert (forall d, w_nodes w2 !! d
                    = if decide (d ∈ n_dependents n1) then U <$> w_nodes w1 !! d
                      else w_nodes w1 !! d) as Hw2.
  { intros d. apply foldl_alter_lookup. intros x. apply labelled_labelled. }
  assert (w_nodes w2 !! i = Some n1) as Hn2.
  { rewrite Hw2. by rewrite decide_False. }
  exists (with_nodes <[i := with_parms <["seqlabel" := with_value (VStr label) p]>
                              (with_color c n1)]> w2), label, c.
  split; [exact Hs|]. split; [|split; [|split]].
  - unfold check_seq. rewrite (bind_Ok _ _ _ _ _ Hc).
    rewrite (bind_Ok _ _ _ _ _ Hs). cbv zeta. simpl.
    erewrite bind_Ok by (unfold the_node; rewrite Hn1; reflexivity).
    erewrite bind_Ok.
    2:{ apply (check_seq_dependents i label (node_path n1)); [eauto | exact Hdeps]. }
    fold U. fold w2.
    by apply check_seq_tail.
  - simpl. apply lookup_insert_eq.
  - intros d f Hd Hf. simpl. rewrite lookup_insert_ne by (by intros ->).
    rewrite Hw2, decide_True, Hf by done. done.
  - intros d Hd Hne. simpl. rewrite lookup_insert_ne by done.
    by rewrite Hw2, decide_False.
Qed.

(** In a session where a file node follows the Toolkit node and another
    does not, the first gets the label of the sequence. *)
Lemma check_seq_labels_followers_witness :
  exists w' f,
    check_seq ex_env 0%nat ex_followed_world = (Ok tt, w') /\
    w_nodes w' !! 5%nat = Some f /\
    n_parms f !! "seqlabel" = Some (ex_parm StringParmTemplate (VStr "[1-10]")) /\
    w_nodes w' !! 3%nat = Some ex_file.
Proof.
  set (w1 := (_compute_output_path ex_env 0%nat ex_followed_world).2).
  set (n1 := default ex_tk_node (w_nodes w1 !! 0%nat)).
  destruct (check_seq_labels_followers ex_env 0%nat ex_followed_world w1
              "/proj/cache/cacheOut/v1/cacheOut.$F4.bgeo.sc" n1
              (ex_parm StringParmTemplate (VStr "")))
    as (w' & label & c & Hs & Hrun & _ & Hdeps & _).
  - by_computation.
  - by_computation.
  - apply (bool_decide_unpack _). by_computation.
  - intros d Hd.
    assert (d = 5%nat \/ d = 3%nat) as [-> | ->].
    { vm_compute in Hd. apply elem_of_cons in Hd as [->|Hd]; [by left|].
      apply list_elem_of_singleton in Hd as ->. by right. }
    + exists ex_follower. split; [by_computation|]. right.
      exists (ex_parm StringParmTemplate (VStr "out")),
             (ex_parm StringParmTemplate (VStr "/obj/geo1/cache_out")),
             (ex_parm IntParmTemplate (VInt 0)), 0,
             (ex_parm StringParmTemplate (VStr "")).
      repeat split; by_computation.
    + exists ex_file. split; [by_computation|]. left. by_computation.
  - by_computation.
  - by_computation.
  - assert (label = "[1-10]") as ->.
    { assert (Ok (label, c) = (cache_status ex_env "/proj/cache/cacheOut/v1/cacheOut.$F4.bgeo.sc" w1).1)
        as Hl by (by rewrite Hs).
      assert ((cache_status ex_env "/proj/cache/cacheOut/v1/cacheOut.$F4.bgeo.sc" w1).1
              = Ok ("[1-10]", red)) as Hl' by by_computation.
      rewrite Hl' in Hl. by injection Hl as -> _. }
    exists w'. eexists. split; [exact Hrun|]. split.
    + apply (Hdeps 5%nat ex_follower).
      * apply (bool_decide_unpack _). by_computation.
      * by_computation.
    + split; [by_computation|].
      etransitivity.
      * apply (Hdeps 3%nat ex_file); [apply (bool_decide_unpack _)|]; by_computation.
      * by_computation.
Defined.

(** ** The output profiles *)

Lemma list_to_map_first (settings : list profile) (name : string) :
  (list_to_map ((fun p => (pr_name p, p)) <$> settings) : gmap string profile) !! name
  = head (filter (fun p => pr_name p = name) settings).
Proof.
  induction settings as [|p settings IH]; [done|].
  cbn [fmap list_fmap list_to_map foldr]. simpl.
  rewrite filter_cons. destruct (decide (pr_name p = name)) as [<-|Hne].
  - by rewrite lookup_insert_eq.
  - by rewrite lookup_insert_ne.
Qed.

Lemma cache_output_profiles_spec (settings : list profile) (acc : gmap string profile)
    (w : world) :
  exists msgs,
    cache_output_profiles settings acc w
    = (Ok (acc ∪ list_to_map ((fun p => (pr_name p, p)) <$> settings)),
       with_log (fun l => (l ++ msgs)%list) w) /\
    length msgs = length settings /\
    Forall (fun m => m.1 = LogWarning \/ m.1 = LogDebug) msgs /\
    (length (filter (fun m => m.1 = LogWarning) msgs)
     + size (acc ∪ list_to_map ((fun p => (pr_name p, p)) <$> settings))
     = length settings + size acc)%nat.
Proof.
  revert acc w. induction settings as [|p settings IH]; intros acc w.
  - exists [].
    assert (acc ∪ list_to_map ((fun p => (pr_name p, p)) <$> []) = acc) as ->.
    { apply map_eq. intros k. rewrite lookup_union. simpl. rewrite lookup_empty.
      by destruct (acc !! k). }
    split; [|done].
    simpl. unfold ret. f_equal. destruct w. unfold with_log. simpl. by rewrite app_nil_r.
  - cbn [cache_output_profiles]. cbv zeta.
    cbn [fmap list_fmap list_to_map foldr]. simpl fst. simpl snd.
    destruct (decide (is_Some (acc !! pr_name p))) as [[q Hq]|Hnone].
    + destruct (IH acc (with_log (fun l => (l ++ [(LogWarning,
          "Found multiple output profiles named '" +:+ pr_name p
          +:+ "' for the " +:+ "Tk Geometry node! Only the first one will be available.")])%list) w))
        as (msgs & Hrun & Hlen & Hall & Hcount).
      eexists (_ :: msgs). unfold log at 1.
      erewrite bind_Ok by reflexivity. rewrite Hrun.
      assert (acc ∪ <[pr_name p := p]> (list_to_map ((fun p => (pr_name p, p)) <$> settings))
              = acc ∪ list_to_map ((fun p => (pr_name p, p)) <$> settings)) as ->.
      { apply map_eq. intros k. rewrite !lookup_union.
        destruct (decide (k = pr_name p)) as [->|Hk].
        - rewrite Hq. by rewrite !union_Some_l.
        - by rewrite lookup_insert_ne. }
      split; [by rewrite with_log_app|]. split; [simpl; by rewrite Hlen|].
      split; [constructor; [by left | done]|].
      rewrite filter_cons_True by done. simpl. lia.
    + apply eq_None_not_Some in Hnone.
      destruct (IH (<[pr_name p := p]> acc)
                   (with_log (fun l => (l ++ [(LogDebug,
          "Caching geometry output profile: '" +:+ pr_name p +:+ "'")])%list) w))
        as (msgs & Hrun & Hlen & Hall & Hcount).
      eexists (_ :: msgs). unfold log at 1.
      erewrite bind_Ok by reflexivity. rewrite Hrun.
      assert (<[pr_name p := p]> acc ∪ list_to_map ((fun p => (pr_name p, p)) <$> settings)
              = acc ∪ <[pr_name p := p]> (list_to_map ((fun p => (pr_name p, p)) <$> settings)))
        as E.
      { rewrite <- insert_union_l. by rewrite insert_union_r. }
      rewrite <- E.
      split; [by rewrite with_log_app|]. split; [simpl; by rewrite Hlen|].
      split; [constructor; [by right | done]|].
      rewrite filter_cons_False by done.
      rewrite map_size_insert_None in Hcount by done. cbn [length]. lia.
Qed.

(** X9.  [__init__] caches the output profiles of the settings under their
    names: of several profiles with one name the first is kept.  It logs one
    message for each profile of the settings, a warning for each profile
    that is left out, and changes nothing else. *)
Theorem init_keeps_first_profile (settings : list profile) (w : world) :
  exists _output_profiles msgs,
    __init__ settings w = (Ok _output_profiles, with_log (fun l => (l ++ msgs)%list) w) /\
    (forall name,
       _output_profiles !! name = head (filter (fun p => pr_name p = name) settings)) /\
    length msgs = length settings /\
    Forall (fun m => m.1 = LogWarning \/ m.1 = LogDebug) msgs /\
    (length (filter (fun m => m.1 = LogWarning) msgs) + size _output_profiles
     = length settings)%nat.
Proof.
  destruct (cache_output_profiles_spec settings ∅ w) as (msgs & Hrun & Hlen & Hall & Hcount).
  rewrite map_empty_union in Hrun, Hcount. rewrite map_size_empty in Hcount.
  eexists _, msgs. split; [exact Hrun|].
  split; [intros name; apply list_to_map_first|]. split; [done|]. split; [done|]. lia.
Qed.




(** ** The backup file *)

Lemma compute_backup_output_path_nodes (E : env) (i : node_id) (wa wb : world) :
  w_nodes wa = w_nodes wb ->
  (_compute_backup_output_path E i wa).1 = (_compute_backup_output_path E i wb).1.
Proof.
  intros Hn. unfold _compute_backup_output_path.
  destruct (get_hipfile_fields_spec E wa) as (wa0 & Ha & Hna & _).
  destruct (get_hipfile_fields_spec E wb) as (wb0 & Hb & Hnb & _).
  rewrite (bind_Ok _ _ _ _ _ Ha), (bind_Ok _ _ _ _ _ Hb).
  case_decide; [done|].
  assert (w_nodes wa0 = w_nodes wb0) as Hn0 by congruence.
  unfold bind.
  rewrite !output_extension_spec, Hn0.
  destruct (w_nodes wb0 !! i) as [n|] eqn:Hi; [|done].
  destruct (extension_of n) as [ext|]; [|done].
  unfold the_node. rewrite Hn0, Hi. unfold lift.
  destruct (_getNodeName n) as [name|]; [|done].
  rewrite !parm_evalAsInt_ver_spec, Hn0, Hi.
  destruct (version_of n) as [version|]; [|done].
  rewrite !get_output_profile_spec, Hn0, Hi.
  destruct (profile_of E n) as [pr|]; [|done].
  destruct (get_template_by_name E (pr_output_backup_template pr)) as [t|] eqn:Ht.
  - rewrite !(resolve_spec _ _ _ _ _ Ht). done.
  - unfold resolve. by rewrite Ht.
Qed.

Lemma compute_backup_output_path_frame (E : env) (i : node_id) (w : world) :
  w_nodes (_compute_backup_output_path E i w).2 = w_nodes w /\
  w_paths (_compute_backup_output_path E i w).2 = w_paths w.
Proof.
  split.
  - assert (preserves (fun w' => w_nodes w' = w_nodes w) (_compute_backup_output_path E i))
      as H by frame.
    by apply H.
  - assert (preserves (fun w' => w_paths w' = w_paths w) (_compute_backup_output_path E i))
      as H by frame.
    by apply H.
Qed.

(** X11.  [get_backup_file] changes neither the nodes nor the disk.  It
    returns the backup path only when the file is on disk; when it is not,
    it returns [None] after the warning that names the node. *)
Theorem get_backup_file_found_or_warned (E : env) (i : node_id) (w : world) :
  let r := (get_backup_file E i w).1 in
  let w' := (get_backup_file E i w).2 in
  w_nodes w' = w_nodes w /\ w_paths w' = w_paths w /\
  (forall path,
     r = Ok (Some path) ->
     path ∈ w_paths w /\ (_compute_backup_output_path E i w).1 = Ok path) /\
  (r = Ok None ->
   exists path n,
     (_compute_backup_output_path E i w).1 = Ok path /\ (path ∉ w_paths w) /\
     w_nodes w !! i = Some n /\
     last (w_log w')
     = Some (LogWarning, "Could not find backup hip file for " +:+ node_path n)).
Proof.
  cbv zeta.
  destruct (compute_backup_output_path_frame E i w) as [Hn Hp].
  destruct (_compute_backup_output_path E i w) as [[path|e] w1] eqn:Hrun; simpl in *.
  2:{ assert (get_backup_file E i w = (Raise e, w1)) as ->.
      { unfold get_backup_file. by rewrite (bind_Raise _ _ _ _ _ Hrun). }
      simpl. split; [done|]. split; [done|]. split; [intros ? [=] | intros [=]]. }
  destruct (decide (path ∈ w_paths w)) as [Hex|Hex].
  - assert (get_backup_file E i w = (Ok (Some path), w1)) as ->.
    { unfold get_backup_file. rewrite (bind_Ok _ _ _ _ _ Hrun).
      unfold os_path_exists. erewrite bind_Ok by reflexivity.
      rewrite Hp. by rewrite bool_decide_eq_true_2. }
    simpl. split; [done|]. split; [done|]. split; [|intros [=]].
    intros path' [= <-]. done.
  - destruct (w_nodes w1 !! i) as [n|] eqn:Hi.
    + assert (get_backup_file E i w
              = (Ok None,
                 with_log (fun l => (l ++ [(LogWarning,
                   "Could not find backup hip file for " +:+ node_path n)])%list) w1)) as ->.
      { unfold get_backup_file. rewrite (bind_Ok _ _ _ _ _ Hrun).
        unfold os_path_exists. erewrite bind_Ok by reflexivity.
        rewrite Hp. rewrite bool_decide_eq_false_2 by done.
        erewrite bind_Ok by (unfold the_node; rewrite Hi; reflexivity).
        unfold log. erewrite bind_Ok by reflexivity. done. }
      simpl. split; [done|]. split; [done|]. split; [intros ? [=]|].
      intros _. exists path, n.
      split; [done|]. split; [done|]. split; [congruence|]. by rewrite last_snoc.
    + assert (get_backup_file E i w = (Raise OperationFailed, w1)) as ->.
      { unfold get_backup_file. rewrite (bind_Ok _ _ _ _ _ Hrun).
        unfold os_path_exists. erewrite bind_Ok by reflexivity.
        rewrite Hp. rewrite bool_decide_eq_false_2 by done.
        erewrite bind_Raise by (unfold the_node; rewrite Hi; reflexivity). done. }
      simpl. split; [done|]. split; [done|]. split; [intros ? [=] | intros [=]].
Qed.

(** X12.  After [create_backup_file] has returned, the backup file, its
    directory and the saved scene are on disk, the nodes are as they were,
    and [get_backup_file] returns the path of the backup. *)
Theorem backup_file_created_is_found (E : env) (i : node_id) (w w1 : world) :
  create_backup_file E i w = (Ok tt, w1) ->
  exists path w2,
    get_backup_file E i w1 = (Ok (Some path), w2) /\
    (_compute_backup_output_path E i w).1 = Ok path /\
    path ∈ w_paths w1 /\
    (dirname path ∈ w_paths w1) /\
    (hipFile_path E ∈ w_paths w1) /\
    w_nodes w1 = w_nodes w.
Proof.
  intros Hc. unfold create_backup_file in Hc.
  destruct (compute_backup_output_path_frame E i w) as [Hn Hp].
  apply bind_Ok_inv in Hc as (path & wa & Ha & Hc).
  rewrite Ha in Hn, Hp. simpl in Hn, Hp. cbv zeta in Hc.
  unfold os_path_exists at 1 in Hc. erewrite bind_Ok in Hc by reflexivity.
  apply bind_Ok_inv in Hc as ([] & wb & Hb & Hc).
  assert (w_nodes wb = w_nodes wa /\ (dirname path ∈ w_paths wb)) as [Hnb Hdir].
  { case_bool_decide as Hex.
    - injection Hb as <-. done.
    - injection Hb as <-. split; [done|]. simpl.
      apply elem_of_union. left. by apply elem_of_singleton. }
  unfold hipFile_save, shutil_copy2 in Hc.
  erewrite bind_Ok in Hc by reflexivity. erewrite bind_Ok in Hc by reflexivity.
  apply bind_Ok_inv in Hc as (n & wc & Hnode & Hc).
  apply the_node_inv in Hnode as [-> Hnode].
  injection Hc as <-.
  set (w1 := with_log _ _).
  assert (w_nodes w1 = w_nodes w) as Hn1 by (subst w1; simpl; congruence).
  assert (path ∈ w_paths w1) as Hpath.
  { subst w1. simpl. apply elem_of_union. left. by apply elem_of_singleton. }
  destruct (compute_backup_output_path_frame E i w1) as [Hn2 Hp2].
  assert ((_compute_backup_output_path E i w1).1 = Ok path) as Hsame.
  { rewrite (compute_backup_output_path_nodes E i w1 w Hn1). by rewrite Ha. }
  destruct (_compute_backup_output_path E i w1) as [r w2] eqn:Hrun.
  simpl in Hsame, Hn2, Hp2. subst r.
  exists path, w2. split.
  - unfold get_backup_file. rewrite (bind_Ok _ _ _ _ _ Hrun).
    unfold os_path_exists. erewrite bind_Ok by reflexivity.
    rewrite Hp2. by rewrite bool_decide_eq_true_2.
  - split; [by rewrite Ha|]. split; [done|].
    split; [|split; [|done]]; subst w1; simpl.
    + apply elem_of_union. right. apply elem_of_union. by right.
    + apply elem_of_union. right. apply elem_of_union. left. by apply elem_of_singleton.
Qed.

(** In the example session the backup file is written and found again. *)
Lemma backup_file_created_is_found_witness :
  exists w1 w2,
    create_backup_file ex_env 0%nat ex_world = (Ok tt, w1) /\
    get_backup_file ex_env 0%nat w1 = (Ok (Some "/proj/backup/cacheOut_v1.hip"), w2).
Proof.
  set (w1 := (create_backup_file ex_env 0%nat ex_world).2).
  destruct (backup_file_created_is_found ex_env 0%nat ex_world w1)
    as (path & w2 & Hget & Hpath & _).
  - by_computation.
  - exists w1, w2. split; [by_computation|].
    assert (Ok path = Ok "/proj/backup/cacheOut_v1.hip") as [= ->]; [|exact Hget].
    rewrite <- Hpath. by_computation.
Defined.

(** ** The file browser *)

Lemma dbind_Ok {A B : Type} (m : D A) (k : A -> D B) (d d1 : desktop) (a : A) :
  m d = (Ok a, d1) -> dbind m k d = k a d1.
Proof. unfold dbind. by intros ->. Qed.

Lemma dbind_Raise {A B : Type} (m : D A) (k : A -> D B) (d d1 : desktop) (e : exn) :
  m d = (Raise e, d1) -> dbind m k d = (Raise e, d1).
Proof. unfold dbind. by intros ->. Qed.

Lemma in_world_run {A : Type} (m : M A) (d : desktop) (r : result A) (w' : world) :
  m (d_world d) = (r, w') ->
  in_world m d = (r, Desktop w' (d_messages d) (d_commands d)).
Proof. unfold in_world. by intros ->. Qed.

Lemma desktop_eta (d : desktop) :
  Desktop (d_world d) (d_messages d) (d_commands d) = d.
Proof. by destruct d. Qed.

(** X13.  On a platform that is none of [linux2], [darwin] and [win32],
    [show_in_fs] does not end with the message that the platform is not
    supported: once the directory of the render path is found on disk, it
    logs the error, displays the message, and then raises the
    [UnboundLocalError] (a [NameError]) of the variable [cmd], which no
    branch has bound.  No command is run. *)
Theorem show_in_fs_unsupported_platform (E : env)
    (paths_from_template : template -> fields -> list string -> list string)
    (platform : string) (os_path_dirname : string -> string) (exit_code_of : string -> Z)
    (d : desktop) (render_path : string) :
  platform ∉ ["linux2"; "darwin"; "win32"] ->
  _get_render_path (pwd E) (d_world d) = (Ok render_path, d_world d) ->
  render_path <> "" ->
  let dir_name := os_path_dirname (replace "/" (os_sep E) render_path) in
  dir_name <> "" ->
  dir_name ∈ w_paths (d_world d) ->
  let msg := "Platform '" +:+ platform +:+ "' is not supported." in
  show_in_fs E paths_from_template platform os_path_dirname exit_code_of d
  = (Raise (UnboundLocalError "cmd"),
     Desktop (with_log (fun l => (l ++ [(LogError, msg)])%list) (d_world d))
             (d_messages d ++ [msg])%list (d_commands d)) /\
  is_NameError (UnboundLocalError "cmd") = true.
Proof.
  intros Hplatform Hpath Hne dir_name Hdir Hex msg. split; [|done].
  unfold show_in_fs. cbv zeta.
  erewrite dbind_Ok by (by apply in_world_run).
  rewrite desktop_eta.
  destruct render_path as [|c0 s0]; [done|].
  erewrite dbind_Ok.
  2:{ erewrite dbind_Ok by (apply in_world_run; reflexivity).
      rewrite desktop_eta. fold dir_name.
      rewrite bool_decide_eq_true_2 by done. reflexivity. }
  fold dir_name. destruct dir_name as [|c1 s1] eqn:Hd; [done|].
  erewrite dbind_Ok by reflexivity.
  assert ((platform =? "linux2")%string = false) as ->.
  { apply String.eqb_neq. intros ->. apply Hplatform. set_solver. }
  assert ((platform =? "darwin")%string = false) as ->.
  { apply String.eqb_neq. intros ->. apply Hplatform. set_solver. }
  assert ((platform =? "win32")%string = false) as ->.
  { apply String.eqb_neq. intros ->. apply Hplatform. set_solver. }
  erewrite dbind_Ok.
  2:{ erewrite dbind_Ok by (apply in_world_run; reflexivity).
      erewrite dbind_Ok by reflexivity. reflexivity. }
  reflexivity.
Qed.

(** On a platform of its own the file browser is not opened for the example
    session. *)
Lemma show_in_fs_unsupported_platform_witness :
  let d := Desktop (with_paths (fun s => {["/proj/cache/cacheOut/v1"]} ∪ s) ex_world) [] [] in
  exists d',
    show_in_fs ex_env (fun _ _ _ => []) "freebsd" dirname (fun _ => 0) d
    = (Raise (UnboundLocalError "cmd"), d') /\
    d_messages d' = ["Platform 'freebsd' is not supported."] /\
    d_commands d' = [].
Proof.
  intros d.
  destruct (show_in_fs_unsupported_platform ex_env (fun _ _ _ => []) "freebsd" dirname
              (fun _ => 0) d "/proj/cache/cacheOut/v1/cacheOut.$F4.bgeo.sc") as [Hrun _].
  - intros Hin. vm_compute in Hin.
    repeat (apply elem_of_cons in Hin as [Hin|Hin]; [discriminate Hin|]).
    by apply elem_of_nil in Hin.
  - by_computation.
  - by_computation.
  - by_computation.
  - apply (bool_decide_unpack _). by_computation.
  - eexists. split; [exact Hrun|]. split; reflexivity.
Defined.


Lemma get_render_path_frame (i : node_id) (w : world) :
  (_get_render_path i w).2 = w.
Proof.
  unfold _get_render_path, the_parm, Node_parm, the_node, bind, ret, raise, lift.
  destruct (w_nodes w !! i) as [n|]; [|done].
  by destruct (n_parms n !! NODE_OUTPUT_PATH_PARM).
Qed.

Lemma get_rendered_files_frame (E : env)
    (paths_from_template : template -> fields -> list string -> list string)
    (i : node_id) (w : world) :
  w_nodes (_get_rendered_files E paths_from_template i w).2 = w_nodes w /\
  w_paths (_get_rendered_files E paths_from_template i w).2 = w_paths w.
Proof.
  split.
  - assert (preserves (fun w' => w_nodes w' = w_nodes w)
                      (_get_rendered_files E paths_from_template i)) as H by frame.
    by apply H.
  - assert (preserves (fun w' => w_paths w' = w_paths w)
                      (_get_rendered_files E paths_from_template i)) as H by frame.
    by apply H.
Qed.

Ltac nothing_run := simpl; split; [done|]; split; [done|]; by left.

(** X14.  [show_in_fs] changes neither the nodes nor the disk, and runs at
    most one command, on one of the three platforms it knows: [xdg-open],
    [open] or [cmd.exe /C start] with the directory it found.  When the
    command ends with another exit code than 0, the last message displayed
    says that the launch failed. *)
Theorem show_in_fs_runs_one_command (E : env)
    (paths_from_template : template -> fields -> list string -> list string)
    (platform : string) (os_path_dirname : string -> string) (exit_code_of : string -> Z)
    (d : desktop) :
  let d' := (show_in_fs E paths_from_template platform os_path_dirname exit_code_of d).2 in
  w_nodes (d_world d') = w_nodes (d_world d) /\
  w_paths (d_world d') = w_paths (d_world d) /\
  (d_commands d' = d_commands d \/
   exists render_dir cmd,
     d_commands d' = (d_commands d ++ [cmd])%list /\
     (platform = "linux2" /\
      cmd = "xdg-open " +:+ double_quote +:+ render_dir +:+ double_quote \/
      platform = "darwin" /\ cmd = "open '" +:+ render_dir +:+ "'" \/
      platform = "win32" /\
      cmd = "cmd.exe /C start " +:+ double_quote +:+ "Folder" +:+ double_quote
            +:+ " " +:+ double_quote +:+ render_dir +:+ double_quote) /\
     (exit_code_of cmd <> 0 ->
      last (d_messages d') = Some ("Failed to launch '" +:+ cmd +:+ "'!"))).
Proof.
  cbv zeta.
  destruct (show_in_fs E paths_from_template platform os_path_dirname exit_code_of d)
    as [res d'] eqn:Hrun.
  simpl. unfold show_in_fs in Hrun. cbv zeta in Hrun.
  unfold dbind at 1 in Hrun. unfold in_world at 1 in Hrun.
  pose proof (get_render_path_frame (pwd E) (d_world d)) as Hrp.
  destruct (_get_render_path (pwd E) (d_world d)) as [[render_path|e] w0]; simpl in Hrp;
    subst w0; simpl in Hrun; rewrite desktop_eta in Hrun.
  2:{ injection Hrun as <- <-. nothing_run. }
  (* the directory of the render path *)
  match type of Hrun with dbind ?m _ _ = _ => set (first_dir := m) in Hrun end.
  assert (exists o, first_dir d = (Ok o, d)) as [o Ho].
  { subst first_dir. destruct render_path; [by eexists|].
    unfold dbind, in_world, os_path_exists, dret. simpl. rewrite desktop_eta. by eexists. }
  rewrite (dbind_Ok _ _ _ _ _ Ho) in Hrun. clear Ho first_dir.
  (* the directory of the rendered files *)
  match type of Hrun with dbind ?m _ _ = _ => set (second_dir := m) in Hrun end.
  assert (exists r d1, second_dir d = (r, d1) /\
            w_nodes (d_world d1) = w_nodes (d_world d) /\
            w_paths (d_world d1) = w_paths (d_world d) /\
            d_commands d1 = d_commands d) as (r & d1 & H1 & Hn1 & Hp1 & Hc1).
  { subst second_dir.
    destruct (get_rendered_files_frame E paths_from_template (pwd E) (d_world d)) as [Hn Hp].
    assert (exists r d1,
      (rendered_files <~ in_world (_get_rendered_files E paths_from_template (pwd E)) ;;
       match rendered_files with
       | [] =>
           n <~ in_world (the_node (pwd E)) ;;
           let msg := "Unable to find rendered files for node '" +:+ node_path n +:+ "'." in
           _ <~ in_world (log LogError msg) ;;
           _ <~ displayMessage msg ;;
           dret None
       | file :: _ => dret (Some (os_path_dirname file))
       end) d = (r, d1) /\
      w_nodes (d_world d1) = w_nodes (d_world d) /\
      w_paths (d_world d1) = w_paths (d_world d) /\
      d_commands d1 = d_commands d) as Hfiles.
    { unfold dbind at 1. unfold in_world at 1.
      destruct (_get_rendered_files E paths_from_template (pwd E) (d_world d))
        as [[[|file files]|e] w1]; simpl in *.
      - unfold dbind, in_world, the_node, log, modify, displayMessage, dret. simpl.
        destruct (w_nodes w1 !! pwd E); simpl; eauto 10.
      - unfold dret. simpl. eauto 10.
      - eauto 10. }
    destruct o as [[|c s]|]; [exact Hfiles | | exact Hfiles].
    unfold dret. eauto 10. }
  rewrite <- Hn1, <- Hp1, <- Hc1.
  destruct r as [render_dir|e].
  2:{ rewrite (dbind_Raise _ _ _ _ _ H1) in Hrun. injection Hrun as <- <-. nothing_run. }
  rewrite (dbind_Ok _ _ _ _ _ H1) in Hrun. clear H1 second_dir Hn1 Hp1 Hc1.
  destruct render_dir as [[|c s]|];
    [injection Hrun as <- <-; nothing_run | | injection Hrun as <- <-; nothing_run].
  set (render_dir := String c s) in *.
  unfold dbind, in_world, dret, draise, displayMessage, os_system, log, modify in Hrun.
  destruct (String.eqb_spec platform "linux2") as [->|_]; simpl in Hrun.
  { destruct (exit_code_of _ =? 0) eqn:Hz; simpl in Hrun; injection Hrun as <- <-; simpl;
      (split; [done|]); (split; [done|]); right; eexists render_dir, _;
      (split; [done|]); (split; [by left|]).
    - intros Hne. by apply Z.eqb_eq in Hz.
    - intros _. by rewrite last_snoc. }
  destruct (String.eqb_spec platform "darwin") as [->|_]; simpl in Hrun.
  { destruct (exit_code_of _ =? 0) eqn:Hz; simpl in Hrun; injection Hrun as <- <-; simpl;
      (split; [done|]); (split; [done|]); right; eexists render_dir, _;
      (split; [done|]); (split; [right; by left|]).
    - intros Hne. by apply Z.eqb_eq in Hz.
    - intros _. by rewrite last_snoc. }
  destruct (String.eqb_spec platform "win32") as [->|_]; simpl in Hrun.
  { destruct (exit_code_of _ =? 0) eqn:Hz; simpl in Hrun; injection Hrun as <- <-; simpl;
      (split; [done|]); (split; [done|]); right; eexists render_dir, _;
      (split; [done|]); (split; [right; by right|]).
    - intros Hne. by apply Z.eqb_eq in Hz.
    - intros _. by rewrite last_snoc. }
  injection Hrun as <- <-. nothing_run.
Qed.

(** ** Publishing and versions, again *)

Lemma compute_output_path_publishes (E : env) (i : node_id) (w : world) :
  w_publishes (_compute_output_path E i w).2 = w_publishes w /\
  w_paths (_compute_output_path E i w).2 = w_paths w.
Proof.
  split.
  - assert (preserves (fun w' => w_publishes w' = w_publishes w) (_compute_output_path E i))
      as H by frame.
    by apply H.
  - assert (preserves (fun w' => w_paths w' = w_paths w) (_compute_output_path E i))
      as H by frame.
    by apply H.
Qed.

(** X15.  When the cache path has a publish already, [auto_publish]
    registers nothing: it logs that the cache exists and returns. *)
Theorem auto_publish_already_published (E : env) (i : node_id) (w w1 : world)
    (cache_path : option string) :
  _compute_output_path E i w = (Ok cache_path, w1) ->
  find_publish E cache_path <> [] ->
  auto_publish E i w
  = (Ok tt,
     with_log (fun l => (l ++ [(LogInfo, "Trying to register cache that already exists!")])%list)
              w1) /\
  w_publishes w1 = w_publishes w.
Proof.
  intros Hc Hfound. split.
  - unfold auto_publish. rewrite (bind_Ok _ _ _ _ _ Hc).
    by destruct (find_publish E cache_path).
  - destruct (compute_output_path_publishes E i w) as [H _]. by rewrite Hc in H.
Qed.

(** The cache of the example session is published already. *)
Lemma auto_publish_already_published_witness :
  exists w',
    auto_publish ex_env_published 0%nat ex_publish_world = (Ok tt, w') /\
    w_publishes w' = [] /\
    w_log w' = [(LogInfo, "Trying to register cache that already exists!")].
Proof.
  destruct (auto_publish_already_published ex_env_published 0%nat ex_publish_world
              (_compute_output_path ex_env_published 0%nat ex_publish_world).2
              (Some "/proj/cache/cacheOut/v1/cacheOut.$F4.bgeo.sc")) as [Hrun Hpub].
  - by_computation.
  - by_computation.
  - eexists. split; [exact Hrun|]. split; [|by_computation].
    simpl. rewrite Hpub. reflexivity.
Defined.

(** X16.  When the output path is computed, [get_output_path_menu_items]
    returns it twice, as the item and as the label of the menu; in a session
    with a user interface it also sets the parameter [sopoutput_child] of
    the node to the path, and without one it changes no parameter. *)
Theorem menu_items_path_twice (E : env) (w w1 : world) (path : string) (n : node)
    (p : parm) :
  _compute_output_path E (pwd E) w = (Ok (Some path), w1) ->
  w_nodes w1 !! pwd E = Some n ->
  n_parms n !! "sopoutput_child" = Some p ->
  p_template p = StringParmTemplate ->
  get_output_path_menu_items E w
  = (Ok [Some path; Some path],
     if isUIAvailable E
     then with_nodes <[pwd E := with_parms <["sopoutput_child" := with_value (VStr path) p]> n]>
                     w1
     else w1).
Proof.
  intros Hc Hn Hp Hstr. unfold get_output_path_menu_items. cbv zeta.
  erewrite bind_Ok.
  2:{ erewrite try_except_Ok; [reflexivity|].
      erewrite bind_Ok by exact Hc. reflexivity. }
  simpl. destruct (isUIAvailable E).
  - erewrite bind_Ok; [reflexivity|].
    erewrite bind_Ok.
    2:{ unfold the_parm, Node_parm.
        erewrite bind_Ok.
        2:{ erewrite bind_Ok by (unfold the_node; rewrite Hn; reflexivity). reflexivity. }
        simpl. rewrite Hp. reflexivity. }
    apply parm_set_Ok; [done..|]. by rewrite Hstr.
  - by erewrite bind_Ok by reflexivity.
Qed.

(** The menu of the Toolkit node of the example session. *)
Lemma menu_items_path_twice_witness :
  exists w',
    get_output_path_menu_items ex_env ex_world
    = (Ok [Some "/proj/cache/cacheOut/v1/cacheOut.$F4.bgeo.sc";
           Some "/proj/cache/cacheOut/v1/cacheOut.$F4.bgeo.sc"], w') /\
    (w_nodes w' !! 0%nat) ≫= (fun n => n_parms n !! "sopoutput_child")
    = Some (ex_parm StringParmTemplate
              (VStr "/proj/cache/cacheOut/v1/cacheOut.$F4.bgeo.sc")).
Proof.
  set (w1 := (_compute_output_path ex_env 0%nat ex_world).2).
  set (n1 := default ex_tk_node (w_nodes w1 !! 0%nat)).
  eexists. split.
  - apply (menu_items_path_twice ex_env ex_world w1 _ n1
             (ex_parm StringParmTemplate (VStr ""))); by_computation.
  - by_computation.
Defined.

Lemma highest_version_unversioned (t : template) (pre post : list string) (c : string)
    (m : Z) :
  Forall (fun c' => exists v, tpl_get_fields t c' !! "version" = Some (FInt v)) pre ->
  tpl_get_fields t c !! "version" = None ->
  highest_version t (pre ++ c :: post) m = Raise (KeyError "version").
Proof.
  revert m. induction pre as [|c' pre IH]; intros m Hpre Hc; simpl.
  - by rewrite Hc.
  - apply Forall_cons in Hpre as [[v Hv] Hpre]. rewrite Hv. by apply IH.
Qed.

(** X17.  When one of the cache paths the toolkit finds has no [version]
    field, [auto_version] raises the [KeyError] of this field before it sets
    the version: the parameters of the node and the disk are as they were. *)
Theorem auto_version_unversioned_cache (E : env) (i : node_id) (w : world) (n : node)
    (pr : profile) (t : template) (ext name : string) (pre post : list string)
    (c : string) :
  w_nodes w !! i = Some n ->
  profile_of E n = Ok pr ->
  get_template_by_name E (pr_output_cache_template pr) = Some t ->
  extension_of n = Ok ext ->
  _getNodeName n = Ok name ->
  abstract_paths_from_template E t
    (as_template_fields E t ∪ scan_fields (hipfile_fields_of E) name ext)
  = (pre ++ c :: post)%list ->
  Forall (fun c' => exists v, tpl_get_fields t c' !! "version" = Some (FInt v)) pre ->
  tpl_get_fields t c !! "version" = None ->
  exists w',
    auto_version E i w = (Raise (KeyError "version"), w') /\
    w_nodes w' = w_nodes w /\ w_paths w' = w_paths w.
Proof.
  intros Hn Hpr Ht Hext Hname Hpaths Hpre Hc.
  destruct (get_hipfile_fields_spec E w) as (w0 & H0 & Hnodes & Hp & _).
  exists w0. split; [|done].
  rewrite <- Hnodes in Hn.
  unfold auto_version. rewrite (bind_Ok _ _ _ _ _ H0).
  erewrite bind_Ok by (rewrite get_output_profile_spec, Hn, Hpr; reflexivity).
  erewrite bind_Ok by (rewrite output_extension_spec, Hn, Hext; reflexivity).
  erewrite bind_Ok by (unfold the_node; rewrite Hn; reflexivity).
  erewrite bind_Ok by (unfold lift; rewrite Hname; reflexivity).
  cbv zeta. rewrite Ht, Hpaths.
  erewrite bind_Raise; [reflexivity|].
  unfold lift. by rewrite (highest_version_unversioned t pre post c 0 Hpre Hc).
Qed.

(** The example session in an environment where a directory that is no
    version of the cache is found among the caches. *)
Lemma auto_version_unversioned_cache_witness :
  let E :=
    Env true "/proj/work/shot_v003.hip" 0%nat None "/"
        (get_template ex_env) (get_template_by_name ex_env) (as_template_fields ex_env)
        (fun _ _ => ["/proj/cache/cacheOut/v1"; "/proj/cache/cacheOut/tmp";
                     "/proj/cache/cacheOut/v5"])
        (find_publish ex_env) (output_profiles ex_env) (get_sequences ex_env)
        (alembicTimeRange ex_env) in
  exists w',
    auto_version E 0%nat ex_world = (Raise (KeyError "version"), w') /\
    w_nodes w' = w_nodes ex_world /\ w_paths w' = w_paths ex_world.
Proof.
  intros E.
  apply (auto_version_unversioned_cache E 0%nat ex_world ex_tk_node ex_profile
           ex_cache_template "bgeo.sc" "cacheOut" ["/proj/cache/cacheOut/v1"]
           ["/proj/cache/cacheOut/v5"] "/proj/cache/cacheOut/tmp"); try by_computation.
  repeat constructor. exists 1. by_computation.
Defined.

(** ** The node a conversion leaves *)

Lemma parm_set_Ok_inv (i : node_id) (name : string) (v : value) (w w' : world) :
  parm_set i name v w = (Ok tt, w') ->
  exists n p,
    w_nodes w !! i = Some n /\ n_parms n !! name = Some p /\
    w' = with_nodes <[i := with_parms <[name := with_value v p]> n]> w.
Proof.
  intros H. pose proof H as H'. unfold parm_set in H'.
  apply bind_Ok_inv in H' as (p & wa & Ha & H').
  apply the_parm_inv in Ha as [-> (n & Hn & Hp)].
  exists n, p. split; [done|]. split; [done|].
  destruct (parm_accepts (p_template p) v) eqn:Hacc.
  - rewrite (parm_set_Ok i name v w n p Hn Hp Hacc) in H. congruence.
  - rewrite (parm_set_Raise i name v w n p Hn Hp Hacc) in H. discriminate.
Qed.

(** X18.  When the conversion of a Toolkit node to a regular node returns,
    the Toolkit node is gone and the node created for it, of the built-in
    type of the same category, has its name, its position and its colour;
    it keeps the label of the output profile in its user data, and its
    parameter [sopoutput] holds the label of the output path menu of the
    Toolkit node as a string. *)
Theorem convert_to_regular_node_result (types : category -> string -> option node_type)
    (L : codec_library) (i : node_id) (w w1 : world) (t : node) :
  let op := match n_category t with
            | Sop => HOU_SOP_GEOMETRY_TYPE
            | Rop => HOU_ROP_GEOMETRY_TYPE
            end in
  let j := fresh (dom (w_nodes w)) in
  w_nodes w !! i = Some t ->
  n_type t = TK_GEOMETRY_NODE_TYPE ->
  convert_to_regular_node types L i w = (Ok tt, w1) ->
  w_nodes w1 !! i = None /\
  exists g output_parm filename output_profile_parm profile_name p,
    w_nodes w1 !! j = Some g /\
    n_category g = n_category t /\ n_type g = op /\
    n_name g = n_name t /\ n_position g = n_position t /\ n_color g = n_color t /\
    n_parms t !! TK_OUTPUT_PROFILE_PARM = Some output_profile_parm /\
    subscript (p_menu_labels output_profile_parm) (Parm_eval output_profile_parm)
    = Ok profile_name /\
    n_user g !! TK_OUTPUT_PROFILE_NAME_KEY = Some profile_name /\
    n_parms t !! NODE_OUTPUT_PATH_PARM = Some output_parm /\
    _get_output_menu_label output_parm = Ok filename /\
    n_parms g !! NODE_OUTPUT_PATH_PARM = Some p /\ p_value p = VStr filename.
Proof.
  intros op j Hi Hty Hconv.
  unfold convert_to_regular_node in Hconv. cbv zeta in Hconv.
  rewrite (bind_Ok _ _ w w t) in Hconv by (unfold the_node; by rewrite Hi).
  rewrite regular_operator in Hconv by done. fold op in Hconv.
  apply bind_Ok_inv in Hconv as (j' & w0 & Hcreate & Hconv).
  assert (exists nt, types (n_category t) op = Some nt) as [nt Hnt].
  { unfold createNode in Hcreate.
    rewrite (bind_Ok _ _ w w t) in Hcreate by (unfold the_node; by rewrite Hi).
    destruct (types (n_category t) op); [eauto | discriminate]. }
  rewrite (createNode_Ok types i op w t nt Hi Hnt) in Hcreate.
  injection Hcreate as <- <-. fold j in Hconv.
  match type of Hconv with context [ bind _ _ ?x ] => set (w0 := x) in Hconv end.
  assert (i <> j) as Hij by (by eapply fresh_node_ne).
  set (Ikind := node_has j (fun m => n_category m = n_category t /\ n_type m = op)).
  assert (node_has i (fun m => m = t) w0) as H0.
  { exists t. split; [|done]. subst w0. simpl. by rewrite lookup_insert_ne. }
  assert (Ikind w0) as Hkind.
  { eexists. split; [subst w0; simpl; apply lookup_insert_eq|]. done. }
  (* the output path *)
  apply bind_Ok_inv in Hconv as (output_parm & wa & Ha & Hconv).
  apply the_parm_inv in Ha as [-> (t0 & Ht0 & Hout)].
  destruct H0 as (t0' & Ht0' & ->). rewrite Ht0' in Ht0. injection Ht0 as <-.
  apply bind_Ok_inv in Hconv as (filename & wa & Ha & Hconv).
  apply lift_inv in Ha as [-> Hfile].
  apply bind_Ok_inv in Hconv as ([] & wa & Ha & Hconv).
  assert (Ikind wa) as Hkind_a.
  { eapply (preserves_elim Ikind); [|exact Hkind|exact Ha]. subst Ikind. frame; parm_side. }
  apply parm_set_Ok_inv in Ha as (g0 & p0 & Hg0 & Hp0 & ->).
  set (p := with_value (VStr filename) p0).
  set (I0 := fun w => node_has i (fun m => m = t) w /\
                      node_has j (fun m => n_parms m !! NODE_OUTPUT_PATH_PARM = Some p) w).
  match type of Hconv with context [ bind _ _ ?x ] => set (wa := x) in * end.
  assert (I0 wa) as H0_a.
  { split.
    - exists t. split; [|done]. subst wa w0. simpl. by rewrite !lookup_insert_ne.
    - eexists. split; [subst wa; simpl; apply lookup_insert_eq|].
      simpl. apply lookup_insert_eq. }
  (* the parameter values *)
  apply bind_Ok_inv in Hconv as ([] & wb & Hb & Hconv).
  assert (Ikind wb) as Hkind_b.
  { eapply (preserves_elim Ikind); [|exact Hkind_a|exact Hb]. subst Ikind. frame; parm_side. }
  assert (I0 wb) as [Hi_b Hj_b].
  { eapply (preserves_elim I0); [|exact H0_a|exact Hb]. subst I0.
    apply copy_parm_values_skips; [done|]. left. apply list_elem_of_singleton. done. }
  clear Hb.
  (* the name of the output profile *)
  apply bind_Ok_inv in Hconv as (opp & wc & Hc & Hconv).
  apply the_parm_inv in Hc as [-> (t' & Ht' & Hopp)].
  destruct Hi_b as (t'' & Ht'' & ->). rewrite Ht'' in Ht'. injection Ht' as <-.
  apply bind_Ok_inv in Hconv as (profile_name & wc & Hc & Hconv).
  apply lift_inv in Hc as [-> Hlabel].
  apply bind_Ok_inv in Hconv as ([] & wd & Hd & Hconv).
  set (φ := fun g : node =>
    (n_category g = n_category t /\ n_type g = op) /\
    n_user g !! TK_OUTPUT_PROFILE_NAME_KEY = Some profile_name /\
    n_parms g !! NODE_OUTPUT_PATH_PARM = Some p).
  set (ψ := fun m : node =>
    n_name m = n_name t /\ n_position m = n_position t /\ n_color m = n_color t).
  assert (node_has i ψ wd /\ node_has j φ wd) as [Hi_d Hj_d].
  { destruct Hj_b as (g & Hg & Hgp). destruct Hkind_b as (g' & Hg' & Hgc).
    rewrite Hg in Hg'. injection Hg' as <-.
    unfold Node_setUserData in Hd.
    erewrite bind_Ok in Hd by (unfold the_node; rewrite Hg; reflexivity).
    injection Hd as <-. split.
    - exists t. split; [|done]. simpl. by rewrite lookup_alter_ne.
    - eexists. split; [simpl; rewrite lookup_alter_eq, Hg; reflexivity|].
      destruct g; subst φ; simpl in *. by rewrite lookup_insert_eq. }
  clear Hd.
  apply bind_Ok_inv in Hconv as ([] & we & He & Hconv).
  apply bind_Ok_inv in Hconv as ([] & wf & Hf & Hconv).
  set (I1 := fun w => node_has i ψ w /\ node_has j φ w).
  assert (I1 we) as H1e.
  { eapply (preserves_elim I1); [|split; [exact Hi_d|exact Hj_d]|exact He].
    subst I1 φ ψ. frame; parm_side. }
  assert (I1 wf) as [(m & Hm & Hmn & Hmp & Hmc) (k & Hk & [Hkc Hkt] & Hku & Hkp)].
  { eapply (preserves_elim I1); [|exact H1e|exact Hf].
    subst I1 φ ψ. destruct (op =? _)%string; [|destruct (op =? _)%string];
      frame; parm_side. }
  destruct (conversion_ends i j wf m k
              (fun t' => "Converted: Tk Geometry node '" +:+ n_name t'
                         +:+ "' to Geometry node.") Hij Hm Hk)
    as (w' & Hrun & Hgone & Hnew & _).
  rewrite Hrun in Hconv. injection Hconv as <-.
  split; [exact Hgone|].
  exists (with_position (n_position m) (with_name (n_name m)
            (with_inputs (filter (fun c => c.2 <> i)) (with_color (n_color m) k)))),
         output_parm, filename, opp, profile_name, p.
  split; [exact Hnew|].
  destruct k; simpl in *. repeat split; done.
Qed.

(** The Toolkit node of the example session becomes a regular node. *)
Lemma convert_to_regular_node_result_witness :
  let w1 := (convert_to_regular_node ex_types ex_lib 0%nat ex_world).2 in
  w_nodes w1 !! 0%nat = None /\
  exists g output_parm filename output_profile_parm profile_name p,
    w_nodes w1 !! fresh (dom (w_nodes ex_world)) = Some g /\
    n_category g = Sop /\ n_type g = "rop_geometry" /\
    n_name g = "cache_out" /\ n_position g = (3, 4) /\ n_color g = (0, 8, 0) /\
    n_parms ex_tk_node !! TK_OUTPUT_PROFILE_PARM = Some output_profile_parm /\
    subscript (p_menu_labels output_profile_parm) (Parm_eval output_profile_parm)
    = Ok profile_name /\
    n_user g !! TK_OUTPUT_PROFILE_NAME_KEY = Some profile_name /\
    n_parms ex_tk_node !! NODE_OUTPUT_PATH_PARM = Some output_parm /\
    _get_output_menu_label output_parm = Ok filename /\
    n_parms g !! NODE_OUTPUT_PATH_PARM = Some p /\ p_value p = VStr filename.
Proof.
  intros w1.
  apply (convert_to_regular_node_result ex_types ex_lib 0%nat ex_world w1 ex_tk_node);
    by_computation.
Defined.

(** ** The name of a node in a path *)



Lemma split_on_cons (sep : ascii) (s : string) :
  exists w ws, split_on sep s = w :: ws.
Proof.
  destruct s as [|c s]; simpl; [eauto|].
  destruct (Ascii.eqb c sep); [eauto|].
  destruct (split_on sep s); eauto.
Qed.











(** ** No Toolkit node after the conversion *)

Lemma no_new_instance_alter (name : string) (w w' : world) (k : node_id)
    (f : node -> node) :
  (forall n, n_type (f n) = n_type n) ->
  no_new_instance name w w' ->
  no_new_instance name w (with_nodes (alter f k) w').
Proof.
  intros Hf H j n'. simpl. rewrite lookup_alter.
  destruct (decide (k = j)) as [->|Hne]; [|apply H].
  destruct (w_nodes w' !! j) as [n1|] eqn:Hn1; [|done].
  simpl. intros [= <-] Hty. rewrite Hf in Hty. by apply (H j n1).
Qed.

Lemma no_new_instance_destroy (name : string) (w w' : world) (i : node_id) :
  no_new_instance name w w' ->
  no_new_instance name w
    (with_nodes (fun ns => with_inputs (filter (fun c => c.2 <> i)) <$> delete i ns) w').
Proof.
  intros H j n'. simpl. rewrite lookup_fmap.
  destruct (decide (i = j)) as [->|Hne].
  - by rewrite lookup_delete_eq.
  - rewrite lookup_delete_ne by done.
    destruct (w_nodes w' !! j) as [n1|] eqn:Hn1; [|done].
    simpl. intros [= <-] Hty. by apply (H j n1).
Qed.

Lemma no_new_instance_insert (name : string) (w w' : world) (j : node_id) (g : node) :
  n_type g <> name ->
  no_new_instance name w w' ->
  no_new_instance name w (with_nodes <[j := g]> w').
Proof.
  intros Hg H k n'. simpl. rewrite lookup_insert.
  destruct (decide (j = k)) as [->|Hne]; [|apply H].
  intros [= <-] Hty. done.
Qed.

Ltac type_side :=
  lazymatch goal with
  | |- forall w, no_new_instance _ _ w -> no_new_instance _ _ (with_nodes (alter _ _) w) =>
      intros ? ?; apply no_new_instance_alter; [by intros [] | done]
  | |- forall w, no_new_instance _ _ w -> no_new_instance _ _ _ =>
      intros ? ?; first [ by apply no_new_instance_destroy | done ]
  | |- no_new_instance _ _ _ => done
  end.

Lemma no_new_instance_refl (name : string) (w : world) : no_new_instance name w w.
Proof. intros j n Hn Hty. eauto. Qed.

Lemma convert_to_regular_node_no_new (types : category -> string -> option node_type)
    (L : codec_library) (i : node_id) (w : world) :
  preserves (no_new_instance TK_GEOMETRY_NODE_TYPE w) (convert_to_regular_node types L i).
Proof.
  unfold convert_to_regular_node. cbv zeta.
  apply preserves_bind; [apply preserves_the_node|intros t].
  assert (forall op, op <> TK_GEOMETRY_NODE_TYPE ->
            preserves (no_new_instance TK_GEOMETRY_NODE_TYPE w) (createNode types i op))
    as Hcreate.
  { intros op Hop. unfold createNode.
    apply preserves_bind; [apply preserves_the_node|intros n].
    destruct (types _ _); [|apply preserves_raise].
    intros w0 H0. simpl. by apply no_new_instance_insert. }
  destruct (decide (n_category t = Sop /\ _)); [|destruct (decide (n_category t = Rop /\ _))].
  - apply preserves_bind; [by apply Hcreate|intros j]. frame; type_side.
  - apply preserves_bind; [by apply Hcreate|intros j]. frame; type_side.
  - frame; type_side.
Qed.

Lemma convert_to_regular_node_destroys (types : category -> string -> option node_type)
    (L : codec_library) (i : node_id) (w w1 : world) (t : node) :
  w_nodes w !! i = Some t ->
  n_type t = TK_GEOMETRY_NODE_TYPE ->
  convert_to_regular_node types L i w = (Ok tt, w1) ->
  w_nodes w1 !! i = None.
Proof.
  intros Hi Hty Hconv.
  unfold convert_to_regular_node in Hconv. cbv zeta in Hconv.
  rewrite (bind_Ok _ _ w w t) in Hconv by (unfold the_node; by rewrite Hi).
  rewrite regular_operator in Hconv by done.
  apply bind_Ok_inv in Hconv as (j & w0 & Hcreate & Hconv).
  set (I := fun w => node_has i (fun _ => True) w /\ node_has j (fun _ => True) w).
  assert (i <> j /\ I w0) as [Hij H0].
  { unfold createNode in Hcreate.
    rewrite (bind_Ok _ _ w w t) in Hcreate by (unfold the_node; by rewrite Hi).
    destruct (types _ _) as [nt|]; [|discriminate].
    injection Hcreate as <- <-.
    split; [by eapply fresh_node_ne|]. split.
    - exists t. split; [|done]. simpl. rewrite lookup_insert_ne; [done|].
      intros E. by eapply fresh_node_ne.
    - eexists. split; [simpl; apply lookup_insert_eq | done]. }
  apply bind_Ok_inv in Hconv as (output_parm & wa & Ha & Hconv).
  apply the_parm_inv in Ha as [-> _].
  apply bind_Ok_inv in Hconv as (filename & wa & Ha & Hconv).
  apply lift_inv in Ha as [-> _].
  apply bind_Ok_inv in Hconv as ([] & wa & Ha & Hconv).
  assert (I wa) as H0_a.
  { eapply (preserves_elim I); [|exact H0|exact Ha]. subst I. frame; parm_side. }
  apply bind_Ok_inv in Hconv as ([] & wb & Hb & Hconv).
  assert (I wb) as H0_b.
  { eapply (preserves_elim I); [|exact H0_a|exact Hb]. subst I. frame; parm_side. }
  apply bind_Ok_inv in Hconv as (opp & wc & Hc & Hconv).
  apply the_parm_inv in Hc as [-> _].
  apply bind_Ok_inv in Hconv as (label & wc & Hc & Hconv).
  apply lift_inv in Hc as [-> _].
  apply bind_Ok_inv in Hconv as ([] & wd & Hd & Hconv).
  assert (I wd) as H0_d.
  { eapply (preserves_elim I); [|exact H0_b|exact Hd]. subst I. frame; parm_side. }
  apply bind_Ok_inv in Hconv as ([] & we & He & Hconv).
  assert (I we) as H0_e.
  { eapply (preserves_elim I); [|exact H0_d|exact He]. subst I. frame; parm_side. }
  apply bind_Ok_inv in Hconv as ([] & wf & Hf & Hconv).
  assert (I wf) as [(m & Hm & _) (k & Hk & _)].
  { eapply (preserves_elim I); [|exact H0_e|exact Hf]. subst I.
    destruct (_ =? _)%string; [|destruct (_ =? _)%string]; frame; parm_side. }
  destruct (conversion_ends i j wf m k
              (fun t' => "Converted: Tk Geometry node '" +:+ n_name t'
                         +:+ "' to Geometry node.") Hij Hm Hk)
    as (w' & Hrun & Hgone & _).
  rewrite Hrun in Hconv. by injection Hconv as <-.
Qed.

Lemma for_each_convert_to_regular (types : category -> string -> option node_type)
    (L : codec_library) (l : list node_id) (w w' : world) :
  for_each l (convert_to_regular_node types L) w = (Ok tt, w') ->
  forall j n',
    w_nodes w' !! j = Some n' -> n_type n' = TK_GEOMETRY_NODE_TYPE ->
    (j ∉ l) /\ exists n, w_nodes w !! j = Some n /\ n_type n = TK_GEOMETRY_NODE_TYPE.
Proof.
  revert w. induction l as [|i l IH]; intros w Hrun j n' Hj Hty.
  - injection Hrun as <-. split; [by intros ?%elem_of_nil | eauto].
  - simpl in Hrun. apply bind_Ok_inv in Hrun as ([] & w1 & Hstep & Hrun).
    destruct (IH w1 Hrun j n' Hj Hty) as (Hnotin & n1 & Hn1 & Hty1).
    pose proof (preserves_elim _ _ _ _ _ (convert_to_regular_node_no_new types L i w)
                  (no_new_instance_refl _ w) Hstep j n1 Hn1 Hty1) as (n & Hn & Htyn).
    split; [|eauto].
    intros [->|Hin]%elem_of_cons; [|done].
    pose proof (convert_to_regular_node_destroys types L i w w1 n Hn Htyn Hstep) as Hgone.
    congruence.
Qed.

Lemma instances_complete (c : category) (name : string) (w : world) (j : node_id)
    (n : node) :
  w_nodes w !! j = Some n -> n_category n = c -> n_type n = name ->
  exists l, instances c name w = (Ok l, w) /\ j ∈ l.
Proof.
  intros Hn Hc Hty. eexists. split; [reflexivity|].
  apply list_elem_of_fmap. exists (j, n). split; [done|].
  apply list_elem_of_filter. split; [done|]. by apply elem_of_map_to_list.
Qed.

(** X20.  When [convert_to_regular_geometry_nodes] returns, no node of the
    Toolkit type is left in the session. *)
Theorem convert_to_regular_leaves_no_tk_node
    (types : category -> string -> option node_type) (L : codec_library) (w w' : world) :
  convert_to_regular_geometry_nodes types L w = (Ok tt, w') ->
  forall j n, w_nodes w' !! j = Some n -> n_type n <> TK_GEOMETRY_NODE_TYPE.
Proof.
  intros Hrun j n' Hj Hty.
  unfold convert_to_regular_geometry_nodes in Hrun. cbv zeta in Hrun.
  destruct (types Sop TK_GEOMETRY_NODE_TYPE) as [sop_type|]; [|discriminate].
  destruct (types Rop TK_GEOMETRY_NODE_TYPE) as [rop_type|]; [|discriminate].
  apply bind_Ok_inv in Hrun as (sops & w1 & Hsops & Hrun).
  assert (w1 = w) as -> by (by injection Hsops).
  apply bind_Ok_inv in Hrun as (rops & w1 & Hrops & Hrun).
  assert (w1 = w) as -> by (by injection Hrops).
  assert (exists n, w_nodes w !! j = Some n /\ n_type n = TK_GEOMETRY_NODE_TYPE /\
                    (j ∉ (sops ++ rops)%list)) as (n & Hn & Htyn & Hnotin).
  { destruct (sops ++ rops)%list as [|i l] eqn:Hl.
    - injection Hrun as <-. exists n'. split; [done|]. split; [done|].
      by intros ?%elem_of_nil.
    - destruct (for_each_convert_to_regular types L (i :: l) w w' Hrun j n' Hj Hty)
        as (Hnotin & n & Hn & Htyn).
      eauto. }
  apply Hnotin, elem_of_app.
  destruct (n_category n) eqn:Hc.
  - left. destruct (instances_complete Sop _ w j n Hn Hc Htyn) as (l & Hl & Hin).
    rewrite Hl in Hsops. by injection Hsops as <-.
  - right. destruct (instances_complete Rop _ w j n Hn Hc Htyn) as (l & Hl & Hin).
    rewrite Hl in Hrops. by injection Hrops as <-.
Qed.

(** The example session after the conversion. *)
Lemma convert_to_regular_leaves_no_tk_node_witness :
  (n_type <$> w_nodes ex_world !! 0%nat) = Some TK_GEOMETRY_NODE_TYPE /\
  (n_type <$> w_nodes ex_world_regular !! 0%nat) = None /\
  (n_type <$> w_nodes ex_world_regular !! 1%nat) <> Some TK_GEOMETRY_NODE_TYPE /\
  (n_type <$> w_nodes ex_world_regular !! 3%nat) <> Some TK_GEOMETRY_NODE_TYPE /\
  (n_type <$> w_nodes ex_world_regular !! 4%nat) <> Some TK_GEOMETRY_NODE_TYPE.
Proof.
  assert (convert_to_regular_geometry_nodes ex_types ex_lib ex_world
          = (Ok tt, ex_world_regular)) as Hrun by by_computation.
  pose proof (convert_to_regular_leaves_no_tk_node ex_types ex_lib ex_world
                ex_world_regular Hrun) as Hnone.
  assert (forall j, (n_type <$> w_nodes ex_world_regular !! j)
                    <> Some TK_GEOMETRY_NODE_TYPE) as H.
  { intros j. destruct (w_nodes ex_world_regular !! j) as [n|] eqn:Hn; [|done].
    simpl. intros [= Hty]. by apply (Hnone j n). }
  split; [by_computation|]. split; [by_computation|]. repeat split; apply H.
Defined.
